(** * Smart Glasses LED controller (firmware/main.c): a shallow embedding

    The firmware keeps its configuration in file-scope [static] variables,
    which three execution contexts read and write: the GATT write callback
    ([gatts_profile_event_handler]), the modulation loop ([led_task]) and
    the once-a-second lifecycle poll ([check_sleep_condition]).

    The embedding keeps the C program's shape:
    - the statics are one record, [globals], threaded through every function;
    - [uint8_t]/[uint16_t]/[uint32_t] values are [Z] with the wrap-around
      written out ([wrap8], [wrap16], [wrap32]);
    - [float] is IEEE-754 binary32, taken from the standard library's
      [SpecFloat] with [prec = 24] and [emax = 128];
    - calls into the platform (LEDC, FreeRTOS, Bluedroid, esp_sleep) are
      recorded as a list of [event]s, oldest first;
    - [xTaskGetTickCount ()] and [gpio_get_level (HALL_PIN)] are inputs;
    - [portTICK_PERIOD_MS] comes from the FreeRTOS configuration, which is
      not part of the sources: it is a parameter.

    One call of the write callback, one iteration of the modulation loop
    and one call of the poll are each taken as one step. *)

From Stdlib Require Import ZArith List Bool Lia.
From Stdlib Require Import Strings.Byte.
From Stdlib Require Import Floats.SpecFloat.
Import ListNotations.
Local Open Scope Z_scope.

(** ** C integer types *)

Definition wrap8 (z : Z) : Z := z mod 2 ^ 8.
Definition wrap16 (z : Z) : Z := z mod 2 ^ 16.
Definition wrap32 (z : Z) : Z := z mod 2 ^ 32.

(** The numeric value of a payload byte. *)
Definition byte_val (b : byte) : Z := Z.of_N (Byte.to_N b).

(** ** Platform calls *)

Inductive event : Type :=
| ledc_duty (raw : Z)              (* ledc_set_duty; ledc_update_duty *)
| vTaskDelay (ticks : Z)
| gatts_send_response              (* esp_ble_gatts_send_response (.., ESP_GATT_OK, NULL) *)
| ext0_wakeup (level : Z)          (* esp_sleep_enable_ext0_wakeup (HALL_PIN, level) *)
| deep_sleep_start.                (* esp_deep_sleep_start: does not return *)

(** ** Session parameters (the file-scope statics) *)

Record globals : Type := mkGlobals {
  brightness : Z;
  start_hz : Z;
  end_hz : Z;
  inhale_time : Z;
  exhale_time : Z;
  hold_in_end : Z;
  hold_out_end : Z;
  session_minutes : Z;
  session_start_tick : Z;
  session_active : Z;
  session_ended : Z;
  override_active : Z;
  override_duty : Z
}.

Definition set_brightness (v : Z) (g : globals) : globals :=
  mkGlobals v (start_hz g) (end_hz g) (inhale_time g) (exhale_time g)
    (hold_in_end g) (hold_out_end g) (session_minutes g)
    (session_start_tick g) (session_active g) (session_ended g)
    (override_active g) (override_duty g).
Definition set_start_hz (v : Z) (g : globals) : globals :=
  mkGlobals (brightness g) v (end_hz g) (inhale_time g) (exhale_time g)
    (hold_in_end g) (hold_out_end g) (session_minutes g)
    (session_start_tick g) (session_active g) (session_ended g)
    (override_active g) (override_duty g).
Definition set_end_hz (v : Z) (g : globals) : globals :=
  mkGlobals (brightness g) (start_hz g) v (inhale_time g) (exhale_time g)
    (hold_in_end g) (hold_out_end g) (session_minutes g)
    (session_start_tick g) (session_active g) (session_ended g)
    (override_active g) (override_duty g).
Definition set_inhale_time (v : Z) (g : globals) : globals :=
  mkGlobals (brightness g) (start_hz g) (end_hz g) v (exhale_time g)
    (hold_in_end g) (hold_out_end g) (session_minutes g)
    (session_start_tick g) (session_active g) (session_ended g)
    (override_active g) (override_duty g).
Definition set_exhale_time (v : Z) (g : globals) : globals :=
  mkGlobals (brightness g) (start_hz g) (end_hz g) (inhale_time g) v
    (hold_in_end g) (hold_out_end g) (session_minutes g)
    (session_start_tick g) (session_active g) (session_ended g)
    (override_active g) (override_duty g).
Definition set_hold_in_end (v : Z) (g : globals) : globals :=
  mkGlobals (brightness g) (start_hz g) (end_hz g) (inhale_time g)
    (exhale_time g) v (hold_out_end g) (session_minutes g)
    (session_start_tick g) (session_active g) (session_ended g)
    (override_active g) (override_duty g).
Definition set_hold_out_end (v : Z) (g : globals) : globals :=
  mkGlobals (brightness g) (start_hz g) (end_hz g) (inhale_time g)
    (exhale_time g) (hold_in_end g) v (session_minutes g)
    (session_start_tick g) (session_active g) (session_ended g)
    (override_active g) (override_duty g).
Definition set_session_minutes (v : Z) (g : globals) : globals :=
  mkGlobals (brightness g) (start_hz g) (end_hz g) (inhale_time g)
    (exhale_time g) (hold_in_end g) (hold_out_end g) v
    (session_start_tick g) (session_active g) (session_ended g)
    (override_active g) (override_duty g).
Definition set_session_start_tick (v : Z) (g : globals) : globals :=
  mkGlobals (brightness g) (start_hz g) (end_hz g) (inhale_time g)
    (exhale_time g) (hold_in_end g) (hold_out_end g) (session_minutes g)
    v (session_active g) (session_ended g)
    (override_active g) (override_duty g).
Definition set_session_active (v : Z) (g : globals) : globals :=
  mkGlobals (brightness g) (start_hz g) (end_hz g) (inhale_time g)
    (exhale_time g) (hold_in_end g) (hold_out_end g) (session_minutes g)
    (session_start_tick g) v (session_ended g)
    (override_active g) (override_duty g).
Definition set_session_ended (v : Z) (g : globals) : globals :=
  mkGlobals (brightness g) (start_hz g) (end_hz g) (inhale_time g)
    (exhale_time g) (hold_in_end g) (hold_out_end g) (session_minutes g)
    (session_start_tick g) (session_active g) v
    (override_active g) (override_duty g).
Definition set_override_active (v : Z) (g : globals) : globals :=
  mkGlobals (brightness g) (start_hz g) (end_hz g) (inhale_time g)
    (exhale_time g) (hold_in_end g) (hold_out_end g) (session_minutes g)
    (session_start_tick g) (session_active g) (session_ended g)
    v (override_duty g).
Definition set_override_duty (v : Z) (g : globals) : globals :=
  mkGlobals (brightness g) (start_hz g) (end_hz g) (inhale_time g)
    (exhale_time g) (hold_in_end g) (hold_out_end g) (session_minutes g)
    (session_start_tick g) (session_active g) (session_ended g)
    (override_active g) v.

(** The initialisers of the statics (main.c, lines 107-128). *)
Definition static_init : globals :=
  {| brightness := 100; start_hz := 12; end_hz := 8;
     inhale_time := 40; exhale_time := 40;
     hold_in_end := 40; hold_out_end := 40;
     session_minutes := 10; session_start_tick := 0;
     session_active := 0; session_ended := 0;
     override_active := 0; override_duty := 0 |}.

(** ** PWM *)

Definition PWM_MIN_VISIBLE : Z := 400.
Definition PWM_MAX : Z := 1024.

(** [pwm1_setduty]: the dead-zone remap, in [uint32_t] arithmetic. *)
Definition pwm1_raw (duty : Z) : Z :=
  if duty =? 0 then 0
  else wrap32 (PWM_MIN_VISIBLE
               + wrap32 ((PWM_MAX - PWM_MIN_VISIBLE) * duty) / 100).

Definition pwm1_setduty (duty : Z) : list event := [ledc_duty (pwm1_raw duty)].

(** ** The GATT write callback

    [gatts_write_evt] is the [ESP_GATTS_WRITE_EVT] case of
    [gatts_profile_event_handler]; [value] is [param->write.value],
    [param->write.len] its length, and [tick] what [xTaskGetTickCount]
    returns.  Logging is left out.  All operands of [/] and [%] in the
    program are non-negative (unsigned, or promoted [uint8_t]), where C's
    operators agree with [Z.div] and [Z.modulo]. *)

Definition value_at (value : list byte) (i : nat) : Z :=
  byte_val (nth i value x00).

Definition gatts_write_evt (need_rsp : bool) (value : list byte) (tick : Z)
    (g : globals) : globals * list event :=
  let rsp := if need_rsp then [gatts_send_response] else [] in
  let len := Z.of_nat (length value) in
  if 0 <? len then
    if len =? 1 then
      let raw := value_at value 0 in
      let g := set_override_duty (wrap8 (wrap16 raw * 100 / 255)) g in
      let g := set_override_active 1 g in
      let g := set_session_active 0 g in
      (g, rsp ++ pwm1_setduty (override_duty g))
    else
      let cmd := value_at value 0 in
      if cmd =? 0xA1 then
        if 3 <=? len then
          let g := set_start_hz (value_at value 1) g in
          let g := set_end_hz (value_at value 2) g in
          let g := if start_hz g <? 1 then set_start_hz 1 g else g in
          let g := if 50 <? start_hz g then set_start_hz 50 g else g in
          let g := if end_hz g <? 1 then set_end_hz 1 g else g in
          let g := if 50 <? end_hz g then set_end_hz 50 g else g in
          let g := set_override_active 0 g in
          let g := set_session_start_tick tick g in
          let g := set_session_active 1 g in
          let g := set_session_ended 0 g in
          (g, rsp)
        else (g, rsp)
      else if cmd =? 0xA2 then
        if 2 <=? len then
          let g := set_brightness (value_at value 1) g in
          let g := if 100 <? brightness g then set_brightness 100 g else g in
          (g, rsp)
        else (g, rsp)
      else if cmd =? 0xA3 then
        if 5 <=? len then
          let g := set_inhale_time (value_at value 1) g in
          let g := set_hold_in_end (value_at value 2) g in
          let g := set_exhale_time (value_at value 3) g in
          let g := set_hold_out_end (value_at value 4) g in
          let g := set_override_active 0 g in
          let g := set_session_start_tick tick g in
          let g := set_session_active 1 g in
          let g := set_session_ended 0 g in
          (g, rsp)
        else (g, rsp)
      else if cmd =? 0xA4 then
        if 2 <=? len then
          let g := set_session_minutes (value_at value 1) g in
          let g := if session_minutes g <? 1 then set_session_minutes 1 g else g in
          let g := if 60 <? session_minutes g then set_session_minutes 60 g else g in
          let g := set_override_active 0 g in
          let g := set_session_start_tick tick g in
          let g := set_session_active 1 g in
          let g := set_session_ended 0 g in
          (g, rsp)
        else (g, rsp)
      else if cmd =? 0xA5 then
        if 2 <=? len then
          let g := set_override_duty (value_at value 1) g in
          let g := if 100 <? override_duty g then set_override_duty 100 g else g in
          let g := set_override_active 1 g in
          let g := set_session_active 0 g in
          (g, rsp ++ pwm1_setduty (override_duty g))
        else (g, rsp)
      else if cmd =? 0xA6 then
        let g := set_override_active 0 g in
        let g := set_session_start_tick tick g in
        let g := set_session_active 1 g in
        let g := set_session_ended 0 g in
        (g, rsp)
      else if cmd =? 0xA7 then
        let g := set_session_ended 1 g in
        (g, rsp)
      else (g, rsp)
  else (g, rsp).

(** The events the profile handler receives.  Only a write touches the
    session statics; the other cases talk to the Bluetooth stack. *)
Inductive esp_gatts_cb_event_t : Type :=
| ESP_GATTS_REG_EVT
| ESP_GATTS_CREATE_EVT
| ESP_GATTS_WRITE_EVT (need_rsp : bool) (value : list byte)
| ESP_GATTS_CONNECT_EVT
| ESP_GATTS_DISCONNECT_EVT.

Definition gatts_profile_event_handler (ev : esp_gatts_cb_event_t) (tick : Z)
    (g : globals) : globals * list event :=
  match ev with
  | ESP_GATTS_WRITE_EVT need_rsp value => gatts_write_evt need_rsp value tick g
  | _ => (g, [])
  end.

(** ** C [float]: IEEE-754 binary32 *)

Module F32.
Definition prec : Z := 24.
Definition emax : Z := 128.

(** Conversion from an integer type (round to nearest, ties to even). *)
Definition of_Z (z : Z) : spec_float := binary_normalize prec emax z 0 false.

Definition add : spec_float -> spec_float -> spec_float := SFadd prec emax.
Definition sub : spec_float -> spec_float -> spec_float := SFsub prec emax.
Definition mul : spec_float -> spec_float -> spec_float := SFmul prec emax.
Definition div : spec_float -> spec_float -> spec_float := SFdiv prec emax.

(** [x < y] and [x > y]; both are false when an operand is NaN. *)
Definition lt (x y : spec_float) : bool := SFltb x y.
Definition gt (x y : spec_float) : bool := SFltb y x.

(** Conversion to an unsigned integer type of [bits] bits: the value is
    truncated toward zero; when the integral part does not fit (and for
    NaN and the infinities) the behaviour is undefined: [None]. *)
Definition to_unsigned (bits : Z) (x : spec_float) : option Z :=
  match x with
  | S754_zero _ => Some 0
  | S754_finite s m e =>
      let t := Z.shiftl (Zpos m) e in
      if s then (if t =? 0 then Some 0 else None)
      else if t <? 2 ^ bits then Some t else None
  | _ => None
  end.
End F32.

Notation "x <- c ;; k" := (match c with Some x => k | None => None end)
  (at level 61, c at next level, right associativity).

(** ** Sleep *)

Definition SLEEP_HALL_WAIT_TIME : Z := 5.

(** [enter_deep_sleep] zeroes the PWM output, arms the wake source and
    starts deep sleep; it does not return. *)
Definition enter_deep_sleep : list event :=
  [ledc_duty 0; ext0_wakeup 0; deep_sleep_start].

(** The function-scope statics of [check_sleep_condition]. *)
Record sleep_statics : Type := mkSleep {
  arms_closed_duration : Z;
  last_check_time : Z
}.

Definition sleep_init : sleep_statics :=
  {| arms_closed_duration := 0; last_check_time := 0 |}.

(** What a call of [check_sleep_condition] ends in: it returns, or the
    device is in deep sleep. *)
Inductive outcome : Type :=
| Returns (s : sleep_statics)
| DeepSleep (ev : list event).

(** ** The modulation loop's variables *)

(** The locals of [led_task] that live across iterations ([breath_phase],
    [phase_start], [breath_brightness]) and the two the phase loop works
    on ([breath_elapsed], [phase_checks], set afresh in every iteration).
    [strobe_state] is never read and [last_log] only paces a log line. *)
Record led_vars : Type := mkLed {
  breath_phase : Z;
  phase_start : Z;
  breath_brightness : spec_float;
  breath_elapsed : Z;
  phase_checks : Z
}.

Definition led_init (tick : Z) : led_vars :=
  {| breath_phase := 0; phase_start := tick;
     breath_brightness := S754_zero false;
     breath_elapsed := 0; phase_checks := 0 |}.

(** [phase_durations[breath_phase]] *)
Definition phase_duration (durs : list Z) (v : led_vars) : Z :=
  nth (Z.to_nat (breath_phase v)) durs 0.

(** The condition of the phase loop without its bound: the phase has zero
    duration or its time is up. *)
Definition phase_due (durs : list Z) (v : led_vars) : bool :=
  (phase_duration durs v =? 0) || (phase_duration durs v <=? breath_elapsed v).

Definition phase_cond (durs : list Z) (v : led_vars) : bool :=
  (phase_checks v <? 4) && phase_due durs v.

Definition phase_body (now : Z) (v : led_vars) : led_vars :=
  {| breath_phase := wrap8 ((breath_phase v + 1) mod 4);
     phase_start := now;
     breath_brightness := breath_brightness v;
     breath_elapsed := 0;
     phase_checks := wrap8 (phase_checks v + 1) |}.

(** [while (phase_checks < 4 && (...)) { ... }]; [None] when the fuel does
    not suffice. *)
Fixpoint phase_loop (fuel : nat) (durs : list Z) (now : Z) (v : led_vars)
    : option led_vars :=
  if phase_cond durs v then
    match fuel with
    | O => None
    | S fuel' => phase_loop fuel' durs now (phase_body now v)
    end
  else Some v.

(** [bp], with its clamp. *)
Definition breath_bp (durs : list Z) (v : led_vars) : spec_float :=
  let bp := F32.div (F32.of_Z (breath_elapsed v))
                    (F32.of_Z (phase_duration durs v)) in
  if F32.gt bp (F32.of_Z 1) then F32.of_Z 1 else bp.

(** The [switch (breath_phase)]: it has no default case. *)
Definition breath_switch (bp : spec_float) (v : led_vars) : spec_float :=
  if breath_phase v =? 0 then F32.mul bp (F32.of_Z 100)
  else if breath_phase v =? 1 then F32.of_Z 100
  else if breath_phase v =? 2 then
    F32.mul (F32.sub (F32.of_Z 1) bp) (F32.of_Z 100)
  else if breath_phase v =? 3 then S754_zero false
  else breath_brightness v.

(** [(uint8_t)(breath_brightness * brightness / 100)] *)
Definition final_duty (bb : spec_float) (brightness : Z) : option Z :=
  F32.to_unsigned 8
    (F32.div (F32.mul bb (F32.of_Z brightness)) (F32.of_Z 100)).

Definition set_breath_brightness (bb : spec_float) (v : led_vars) : led_vars :=
  mkLed (breath_phase v) (phase_start v) bb (breath_elapsed v) (phase_checks v).

Definition enter_phase_loop (now : Z) (v : led_vars) : led_vars :=
  mkLed (breath_phase v) (phase_start v) (breath_brightness v)
    (wrap32 (now - phase_start v)) 0.

Section Tick.

(** FreeRTOS's [portTICK_PERIOD_MS], the length of a tick in
    milliseconds, a [TickType_t] ([uint32_t]). *)
Variable portTICK_PERIOD_MS : Z.

(** *** One iteration of [led_task]'s [while (1)]

    [now] is what [xTaskGetTickCount] returns.  The result is [None]
    when the iteration has undefined behaviour (a [float] converted to
    an integer type that cannot hold it).  The iteration is cut into
    its stages, in the order of the source. *)

Definition session_duration_ticks (g : globals) : Z :=
  wrap32 (session_minutes g * 60 * 1000 / portTICK_PERIOD_MS).

Definition elapsed_ticks (now : Z) (g : globals) : Z :=
  wrap32 (now - session_start_tick g).

(** [progress], with its clamp. *)
Definition session_progress (now : Z) (g : globals) : spec_float :=
  let progress :=
    F32.div (F32.of_Z (elapsed_ticks now g))
            (F32.of_Z (session_duration_ticks g)) in
  if F32.gt progress (F32.of_Z 1) then F32.of_Z 1 else progress.

(** [strobe_delay_ms] *)
Definition strobe_delay (progress : spec_float) (g : globals) : option Z :=
  let current_hz :=
    F32.add (F32.of_Z (start_hz g))
            (F32.mul (F32.of_Z (end_hz g - start_hz g)) progress) in
  let current_hz :=
    if F32.lt current_hz (F32.of_Z 1) then F32.of_Z 1 else current_hz in
  F32.to_unsigned 32 (F32.div (F32.of_Z 500) current_hz).

(** [phase_durations], from the holds interpolated at [progress]. *)
Definition breath_durations (progress : spec_float) (g : globals)
    : option (list Z) :=
  current_hold_in <-
    F32.to_unsigned 8 (F32.mul (F32.of_Z (hold_in_end g)) progress) ;;
  current_hold_out <-
    F32.to_unsigned 8 (F32.mul (F32.of_Z (hold_out_end g)) progress) ;;
  Some [ wrap32 (inhale_time g * 100) / portTICK_PERIOD_MS;
         wrap32 (current_hold_in * 100) / portTICK_PERIOD_MS;
         wrap32 (exhale_time g * 100) / portTICK_PERIOD_MS;
         wrap32 (current_hold_out * 100) / portTICK_PERIOD_MS ].

(** The phase loop settles, then [bp], the [switch] and [duty]. *)
Definition breath_duty (phase_durations : list Z) (now brightness : Z)
    (v : led_vars) : option (led_vars * Z) :=
  let v := enter_phase_loop now v in
  v <- phase_loop 4 phase_durations now v ;;
  let bp := breath_bp phase_durations v in
  let v := set_breath_brightness (breath_switch bp v) v in
  duty <- final_duty (breath_brightness v) brightness ;;
  Some (v, duty).

Definition led_task_iter (now : Z) (g : globals) (v : led_vars)
    : option (led_vars * globals * list event) :=
  if negb (override_active g =? 0) then
    Some (v, g, [vTaskDelay (100 / portTICK_PERIOD_MS)])
  else if session_active g =? 0 then
    Some (v, g, [vTaskDelay (100 / portTICK_PERIOD_MS)])
  else
    let progress := session_progress now g in
    if session_duration_ticks g <=? elapsed_ticks now g then
      let ev := pwm1_setduty 0 in
      let g := set_session_active 0 g in
      let g := set_session_ended 1 g in
      Some (v, g, ev)
    else
      strobe_delay_ms <- strobe_delay progress g ;;
      phase_durations <- breath_durations progress g ;;
      r <- breath_duty phase_durations now (brightness g) v ;;
      let '(v, duty) := r in
      let strobe_on_ms := wrap32 (strobe_delay_ms * 3) / 2 in
      let strobe_off_ms := strobe_delay_ms / 2 in
      Some (v, g,
            pwm1_setduty duty
            ++ [vTaskDelay (strobe_on_ms / portTICK_PERIOD_MS)]
            ++ pwm1_setduty 0
            ++ [vTaskDelay (strobe_off_ms / portTICK_PERIOD_MS)]).

(** Consecutive iterations, at the tick counts [nows]. *)
Fixpoint led_task_run (nows : list Z) (g : globals) (v : led_vars)
    : option (led_vars * globals * list event) :=
  match nows with
  | [] => Some (v, g, [])
  | now :: rest =>
      r <- led_task_iter now g v ;;
      let '(v1, g1, ev1) := r in
      r' <- led_task_run rest g1 v1 ;;
      let '(v2, g2, ev2) := r' in
      Some (v2, g2, ev1 ++ ev2)
  end.

(** *** [check_sleep_condition]

    [current_time] is what [xTaskGetTickCount] returns and [hall] what
    [gpio_get_level (HALL_PIN)] would return. *)
Definition check_sleep_condition (current_time hall : Z) (g : globals)
    (s : sleep_statics) : outcome :=
  if wrap32 (current_time - last_check_time s)
     <? 1000 / portTICK_PERIOD_MS then Returns s
  else
    let s := mkSleep (arms_closed_duration s) current_time in
    if negb (session_ended g =? 0) then DeepSleep enter_deep_sleep
    else if hall =? 1 then
      let s := mkSleep (wrap32 (arms_closed_duration s + 1))
                       (last_check_time s) in
      if SLEEP_HALL_WAIT_TIME <=? arms_closed_duration s
      then DeepSleep enter_deep_sleep
      else Returns s
    else Returns (mkSleep 0 (last_check_time s)).

(** The polls of [app_main]'s main loop, one per element of [polls]
    (tick count, sensor level); the run stops when the device sleeps. *)
Fixpoint sleep_polls (polls : list (Z * Z)) (g : globals)
    (s : sleep_statics) : outcome :=
  match polls with
  | [] => Returns s
  | (t, hall) :: rest =>
      match check_sleep_condition t hall g s with
      | Returns s' => sleep_polls rest g s'
      | DeepSleep ev => DeepSleep ev
      end
  end.

(** *** The whole device *)

Record system : Type := mkSystem {
  sys_globals : globals;
  sys_led : led_vars;
  sys_sleep : sleep_statics
}.

(** [app_main] after initialisation: the session starts at boot ([tick])
    and [led_task] starts at [tick']. *)
Definition app_main (tick tick' : Z) : system :=
  let g := set_session_start_tick tick static_init in
  let g := set_session_active 1 g in
  let g := set_session_ended 0 g in
  {| sys_globals := g; sys_led := led_init tick'; sys_sleep := sleep_init |}.

Inductive action : Type :=
| Gatts (ev : esp_gatts_cb_event_t) (tick : Z)
| LedIter (now : Z)
| Poll (current_time hall : Z).

Inductive step : system -> action -> system -> Prop :=
| step_gatts sys ev tick :
    step sys (Gatts ev tick)
      (mkSystem (fst (gatts_profile_event_handler ev tick (sys_globals sys)))
                (sys_led sys) (sys_sleep sys))
| step_led sys now v g evs :
    led_task_iter now (sys_globals sys) (sys_led sys) = Some (v, g, evs) ->
    step sys (LedIter now) (mkSystem g v (sys_sleep sys))
| step_poll sys t hall s :
    check_sleep_condition t hall (sys_globals sys) (sys_sleep sys) = Returns s ->
    step sys (Poll t hall) (mkSystem (sys_globals sys) (sys_led sys) s).

(** States the running device can be in.  Deep sleep ends in a reset,
    after which [app_main] runs again. *)
Inductive reachable : system -> Prop :=
| reach_boot tick tick' : reachable (app_main tick tick')
| reach_step sys a sys' : reachable sys -> step sys a sys' -> reachable sys'.

End Tick.

(** ** Notions the specification uses *)

(** The nearest integer to [n / d] (for [d > 0]). *)
Definition round_div (n d : Z) : Z := (2 * n + d) / (2 * d).

Definition clamp (lo hi x : Z) : Z := Z.max lo (Z.min hi x).

(** "Resume/restart: clear override, set session active, clear ended,
    reset start_time to now." *)
Definition restarted (tick : Z) (g : globals) : globals :=
  {| brightness := brightness g; start_hz := start_hz g; end_hz := end_hz g;
     inhale_time := inhale_time g; exhale_time := exhale_time g;
     hold_in_end := hold_in_end g; hold_out_end := hold_out_end g;
     session_minutes := session_minutes g;
     session_start_tick := tick; session_active := 1; session_ended := 0;
     override_active := 0; override_duty := override_duty g |}.

(** The acknowledgement the write callback owes the stack. *)
Definition ack (need_rsp : bool) : list event :=
  if need_rsp then [gatts_send_response] else [].

(** [active] and [ended] both asserted. *)
Definition both_asserted (g : globals) : Prop :=
  session_active g <> 0 /\ session_ended g <> 0.

(** Every [uint8_t] static holds a [uint8_t]. *)
Definition globals_ok (g : globals) : Prop :=
  0 <= brightness g <= 255 /\ 0 <= start_hz g <= 255 /\ 0 <= end_hz g <= 255
  /\ 0 <= inhale_time g <= 255 /\ 0 <= exhale_time g <= 255
  /\ 0 <= hold_in_end g <= 255 /\ 0 <= hold_out_end g <= 255
  /\ 0 <= session_minutes g <= 255
  /\ 0 <= session_active g <= 255 /\ 0 <= session_ended g <= 255
  /\ 0 <= override_active g <= 255 /\ 0 <= override_duty g <= 255.

(** The four breathing phases and their cyclic order
    Inhale -> HoldIn -> Exhale -> HoldOut -> Inhale. *)
Inductive phase : Type := Inhale | HoldIn | Exhale | HoldOut.

Definition next_phase (ph : phase) : phase :=
  match ph with
  | Inhale => HoldIn
  | HoldIn => Exhale
  | Exhale => HoldOut
  | HoldOut => Inhale
  end.

Definition phase_index (ph : phase) : Z :=
  match ph with Inhale => 0 | HoldIn => 1 | Exhale => 2 | HoldOut => 3 end.

(** One advance as the specification words it: taken when the active
    phase's duration is zero or its elapsed time has reached the duration;
    it moves to the next phase of the cycle, sets [phase_start] to now and
    the elapsed time to 0. *)
Inductive advance (durs : list Z) (now : Z) : led_vars -> led_vars -> Prop :=
| advance_intro v v' ph :
    breath_phase v = phase_index ph ->
    (phase_duration durs v = 0 \/ phase_duration durs v <= breath_elapsed v) ->
    breath_phase v' = phase_index (next_phase ph) ->
    phase_start v' = now ->
    breath_elapsed v' = 0 ->
    phase_checks v' = phase_checks v + 1 ->
    breath_brightness v' = breath_brightness v ->
    advance durs now v v'.

(** [n] advances in a row. *)
Inductive advances (durs : list Z) (now : Z) : nat -> led_vars -> led_vars -> Prop :=
| advances_O v : advances durs now O v v
| advances_S n v v1 v2 :
    advance durs now v v1 -> advances durs now n v1 v2 ->
    advances durs now (S n) v v2.

(** Polls that each come at least a second ([1000 / portTICK_PERIOD_MS]
    ticks) after the previous one, so that none is skipped. *)
Fixpoint spaced (tick_ms last : Z) (polls : list (Z * Z)) : Prop :=
  match polls with
  | [] => True
  | (t, _) :: rest => 1000 / tick_ms <= wrap32 (t - last) /\ spaced tick_ms t rest
  end.

(** The calls of [check_sleep_condition] in a run that pass its rate
    limit, given the tick of the last one that did: the others return
    before the sensor is read. *)
Fixpoint accepted (tick_ms last : Z) (polls : list (Z * Z)) : list (Z * Z) :=
  match polls with
  | [] => []
  | (t, hall) :: rest =>
      if wrap32 (t - last) <? 1000 / tick_ms then accepted tick_ms last rest
      else (t, hall) :: accepted tick_ms t rest
  end.

(** The sensor levels: 1 is "closed" (arms folded). *)
Definition closed : Z := 1.
Definition open : Z := 0.

(** A write of at least two bytes that starts with [0xA7]. *)
Definition is_sleep_command (a : action) : Prop :=
  exists need_rsp b rest tick,
    a = Gatts (ESP_GATTS_WRITE_EVT need_rsp (xa7 :: b :: rest)) tick.

(** The payloads that restart the session: [0xA1] with at least three
    bytes, [0xA3] with at least five, [0xA4] and [0xA6] with at least
    two. *)
Definition restart_payload (value : list byte) : Prop :=
  (exists b1 b2 rest, value = xa1 :: b1 :: b2 :: rest)
  \/ (exists b1 b2 b3 b4 rest, value = xa3 :: b1 :: b2 :: b3 :: b4 :: rest)
  \/ (exists b rest, value = xa4 :: b :: rest)
  \/ (exists b rest, value = xa6 :: b :: rest).

(** A write of one of the restart commands. *)
Definition is_restart_command (a : action) : Prop :=
  exists need_rsp value tick,
    a = Gatts (ESP_GATTS_WRITE_EVT need_rsp value) tick
    /\ restart_payload value.

(** Bounds through binary32 rounding.  [rec_up] and [loc_up] are the
    mantissa rounded up, from a shift record and from a location;
    [bounds lo hi x] says that [x] is [+0] or a positive finite number
    whose exponent is not positive, with [lo <= x <= hi] for the integers
    [lo] and [hi] (of [+0] it only records [lo <= 0]). *)
Definition rec_up (mrs : shr_record) : Z :=
  if shr_r mrs || shr_s mrs then shr_m mrs + 1 else shr_m mrs.

Definition loc_up (m : Z) (l : location) : Z :=
  match l with loc_Exact => m | loc_Inexact _ => m + 1 end.

Definition bounds (lo hi : Z) (x : spec_float) : Prop :=
  match x with
  | S754_zero false => lo <= 0
  | S754_finite false m e =>
      e <= 0 /\ lo * 2 ^ (- e) <= Zpos m <= hi * 2 ^ (- e)
  | _ => False
  end.

(** What holds of the statics in every reachable state. *)
Definition state_inv (g : globals) : Prop :=
  globals_ok g /\ brightness g <= 100
  /\ 1 <= start_hz g <= 50 /\ 1 <= end_hz g <= 50.

(** ** Notions of the further properties *)

(** What a write does to the statics and to the actuator, the
    acknowledgement apart: one case per branch of the handler. *)
Inductive write_effect (tick : Z) (g : globals) : globals -> list event -> Prop :=
| eff_none : write_effect tick g g []
| eff_legacy b :
    write_effect tick g
      (set_session_active 0
         (set_override_active 1 (set_override_duty (byte_val b * 100 / 255) g)))
      [ledc_duty (pwm1_raw (byte_val b * 100 / 255))]
| eff_strobe b1 b2 :
    write_effect tick g
      (restarted tick
         (set_end_hz (clamp 1 50 (byte_val b2))
            (set_start_hz (clamp 1 50 (byte_val b1)) g))) []
| eff_brightness b :
    write_effect tick g (set_brightness (Z.min 100 (byte_val b)) g) []
| eff_breathing b1 b2 b3 b4 :
    write_effect tick g
      (restarted tick
         (set_hold_out_end (byte_val b4)
            (set_exhale_time (byte_val b3)
               (set_hold_in_end (byte_val b2)
                  (set_inhale_time (byte_val b1) g))))) []
| eff_minutes b :
    write_effect tick g
      (restarted tick (set_session_minutes (clamp 1 60 (byte_val b)) g)) []
| eff_override b :
    write_effect tick g
      (set_session_active 0
         (set_override_active 1 (set_override_duty (Z.min 100 (byte_val b)) g)))
      [ledc_duty (pwm1_raw (Z.min 100 (byte_val b)))]
| eff_resume : write_effect tick g (restarted tick g) []
| eff_sleep : write_effect tick g (set_session_ended 1 g) [].

(** Static override and a timed session exclude each other. *)
Definition modes_exclusive (g : globals) : Prop :=
  ~ (override_active g <> 0 /\ session_active g <> 0).

(** The ranges the command processor keeps the configuration in. *)
Definition config_ok (g : globals) : Prop :=
  0 <= brightness g <= 100
  /\ 1 <= start_hz g <= 50 /\ 1 <= end_hz g <= 50
  /\ 0 <= inhale_time g <= 255 /\ 0 <= exhale_time g <= 255
  /\ 0 <= hold_in_end g <= 255 /\ 0 <= hold_out_end g <= 255
  /\ 1 <= session_minutes g <= 60
  /\ 0 <= override_duty g <= 100
  /\ 0 <= session_active g <= 1 /\ 0 <= session_ended g <= 1
  /\ 0 <= override_active g <= 1.

(** [start_hz + (end_hz - start_hz) * progress] *)
Definition interpolated_hz (progress : spec_float) (g : globals) : spec_float :=
  F32.add (F32.of_Z (start_hz g))
          (F32.mul (F32.of_Z (end_hz g - start_hz g)) progress).

(** [current_hz], with its floor at 1.0. *)
Definition current_hz (progress : spec_float) (g : globals) : spec_float :=
  if F32.lt (interpolated_hz progress g) (F32.of_Z 1) then F32.of_Z 1
  else interpolated_hz progress g.

(** ** Advertising

    The calls into the Bluetooth stack that the handlers make, and the
    static [adv_config_done] ([uint8_t]) that gates the start of
    advertising. *)
Inductive ble_call : Type :=
| gap_set_device_name
| gap_config_adv_data
| gatts_create_service
| gatts_start_service
| gatts_add_char
| gap_start_advertising.

Definition ADV_CONFIG_FLAG : Z := Z.shiftl 1 0.

(** The GAP events: the handler has a case for one, the others fall to
    its [default]. *)
Inductive esp_gap_ble_cb_event_t : Type :=
| ESP_GAP_BLE_ADV_DATA_SET_COMPLETE_EVT
| ESP_GAP_BLE_OTHER_EVT.

Definition gap_event_handler (ev : esp_gap_ble_cb_event_t)
    (adv_config_done : Z) : Z * list ble_call :=
  match ev with
  | ESP_GAP_BLE_ADV_DATA_SET_COMPLETE_EVT =>
      let adv_config_done :=
        wrap8 (Z.land adv_config_done (Z.lnot ADV_CONFIG_FLAG)) in
      if adv_config_done =? 0 then (adv_config_done, [gap_start_advertising])
      else (adv_config_done, [])
  | ESP_GAP_BLE_OTHER_EVT => (adv_config_done, [])
  end.

(** The profile handler's side towards the stack: what it does to
    [adv_config_done] and which setup calls it makes.  (The write case's
    response is part of [gatts_write_evt].) *)
Definition gatts_profile_setup (ev : esp_gatts_cb_event_t)
    (adv_config_done : Z) : Z * list ble_call :=
  match ev with
  | ESP_GATTS_REG_EVT =>
      (wrap8 (Z.lor adv_config_done ADV_CONFIG_FLAG),
       [gap_set_device_name; gap_config_adv_data; gatts_create_service])
  | ESP_GATTS_CREATE_EVT =>
      (adv_config_done, [gatts_start_service; gatts_add_char])
  | ESP_GATTS_WRITE_EVT _ _ => (adv_config_done, [])
  | ESP_GATTS_CONNECT_EVT => (adv_config_done, [])
  | ESP_GATTS_DISCONNECT_EVT => (adv_config_done, [gap_start_advertising])
  end.

(** [gatts_event_handler]: a failed registration returns before the
    profile handler is called.  [reg_ok] is [param->reg.status ==
    ESP_GATT_OK]. *)
Definition gatts_event_handler (ev : esp_gatts_cb_event_t) (reg_ok : bool)
    (adv_config_done : Z) : Z * list ble_call :=
  match ev with
  | ESP_GATTS_REG_EVT =>
      if reg_ok then gatts_profile_setup ev adv_config_done
      else (adv_config_done, [])
  | _ => gatts_profile_setup ev adv_config_done
  end.

(** The callbacks the stack makes, in order. *)
Inductive ble_event : Type :=
| ble_gatts (ev : esp_gatts_cb_event_t) (reg_ok : bool)
| ble_gap (ev : esp_gap_ble_cb_event_t).

Definition ble_handler (ev : ble_event) (adv_config_done : Z)
    : Z * list ble_call :=
  match ev with
  | ble_gatts ev reg_ok => gatts_event_handler ev reg_ok adv_config_done
  | ble_gap ev => gap_event_handler ev adv_config_done
  end.

Fixpoint ble_run (evs : list ble_event) (adv_config_done : Z)
    : Z * list ble_call :=
  match evs with
  | [] => (adv_config_done, [])
  | ev :: rest =>
      let '(a, calls) := ble_handler ev adv_config_done in
      let '(a', calls') := ble_run rest a in
      (a', calls ++ calls')
  end.

(** The events after which the device is meant to advertise. *)
Definition wants_advertising (ev : ble_event) : bool :=
  match ev with
  | ble_gap ESP_GAP_BLE_ADV_DATA_SET_COMPLETE_EVT => true
  | ble_gatts ESP_GATTS_DISCONNECT_EVT _ => true
  | _ => false
  end.

Definition is_start_advertising (c : ble_call) : bool :=
  match c with gap_start_advertising => true | _ => false end.

(** The frequencies the command processor admits, for a check of the
    strobe period at each pair of them. *)
Definition hz_range : list Z := map Z.of_nat (seq 1 50).

Definition with_hz (s e : Z) : globals :=
  set_end_hz e (set_start_hz s static_init).

Definition endpoints_ok (s e : Z) : bool :=
  match strobe_delay (S754_zero false) (with_hz s e),
        strobe_delay (F32.of_Z 1) (with_hz s e) with
  | Some a, Some b => (a =? 500 / s) && (b =? 500 / e)
  | _, _ => false
  end.

(** The check of [gap_event_handler] at one value of the flag byte. *)
Definition flag_ok (n : nat) : bool :=
  let a := Z.of_nat n in
  let a' := fst (gap_event_handler ESP_GAP_BLE_ADV_DATA_SET_COMPLETE_EVT a) in
  (a' =? 2 * (a / 2))
  && (Nat.eqb (length (snd (gap_event_handler
                              ESP_GAP_BLE_ADV_DATA_SET_COMPLETE_EVT a)))
              (if a <=? 1 then 1 else 0)).

(** * Properties *)

Lemma byte_val_range (b : byte) : 0 <= byte_val b <= 255.
Proof.
  unfold byte_val. pose proof (Byte.to_N_bounded b). lia.
Qed.

(** ** The duty mapper *)

(** C8: for every logical percent in [0,100], [pwm1_setduty] writes raw 0
    for percent 0 and raw [400 + (1024 - 400) * percent / 100] (integer
    division) for percent in [1,100]; the raw value stays within
    [400,1024], so the [uint32_t] arithmetic never wraps. *)
Theorem pwm1_setduty_remap (percent : Z) (H : 0 <= percent <= 100) :
  pwm1_setduty percent
  = [ledc_duty (if percent =? 0 then 0
                else 400 + (1024 - 400) * percent / 100)]
  /\ (percent = 0 -> pwm1_raw percent = 0)
  /\ (1 <= percent ->
      pwm1_raw percent = 400 + (1024 - 400) * percent / 100
      /\ 400 <= pwm1_raw percent <= 1024).
Proof.
  assert (E : 1 <= percent ->
              pwm1_raw percent = 400 + (1024 - 400) * percent / 100).
  { intros Hp. unfold pwm1_raw, PWM_MIN_VISIBLE, PWM_MAX, wrap32.
    destruct (Z.eqb_spec percent 0) as [->|_]; [lia|].
    change (1024 - 400) with 624.
    rewrite (Z.mod_small (624 * percent)) by lia.
    assert (0 <= 624 * percent / 100 <= 624).
    { split; [apply Z.div_pos; lia|].
      apply Z.div_le_upper_bound; lia. }
    apply Z.mod_small. lia. }
  split; [|split].
  - unfold pwm1_setduty. f_equal. f_equal.
    destruct (Z.eqb_spec percent 0) as [->|Hn]; [reflexivity|].
    apply E. lia.
  - intros ->. reflexivity.
  - intros Hp. split; [apply E; exact Hp|].
    rewrite (E Hp). change (1024 - 400) with 624.
    assert (6 <= 624 * percent / 100 <= 624).
    { split; [apply Z.div_le_lower_bound; lia|].
      apply Z.div_le_upper_bound; lia. }
    lia.
Qed.

Lemma pwm1_setduty_remap_witness :
  0 <= 50 <= 100 /\ pwm1_raw 50 = 712.
Proof.
  split; [lia|].
  destruct (pwm1_setduty_remap 50 ltac:(lia)) as (_ & _ & H).
  destruct (H ltac:(lia)) as [-> _]. reflexivity.
Defined.

(** ** The command processor *)

Lemma length_cons2 {A : Type} (a b : A) (l : list A) :
  2 <= Z.of_nat (length (a :: b :: l)).
Proof. cbn [length]. lia. Qed.

Lemma length_cons3 {A : Type} (a b c : A) (l : list A) :
  3 <= Z.of_nat (length (a :: b :: c :: l)).
Proof. cbn [length]. lia. Qed.

(** The legacy branch: what a one-byte write does, whatever the byte. *)
Lemma gatts_write_single (need_rsp : bool) (b : byte) (tick : Z) (g : globals) :
  gatts_profile_event_handler (ESP_GATTS_WRITE_EVT need_rsp [b]) tick g
  = (set_session_active 0
       (set_override_active 1
          (set_override_duty (byte_val b * 100 / 255) g)),
     ack need_rsp ++ [ledc_duty (pwm1_raw (byte_val b * 100 / 255))]).
Proof.
  pose proof (byte_val_range b) as Hb.
  assert (Hq : 0 <= byte_val b * 100 / 255 <= 100).
  { split; [apply Z.div_pos; lia|apply Z.div_le_upper_bound; lia]. }
  cbn [gatts_profile_event_handler]. unfold gatts_write_evt.
  cbn [length Z.of_nat Pos.of_succ_nat Z.ltb Z.eqb Z.compare Pos.eqb].
  cbn [value_at nth]. unfold wrap16, wrap8, pwm1_setduty, ack.
  rewrite (Z.mod_small (byte_val b)) by lia.
  rewrite (Z.mod_small (byte_val b * 100 / 255)) by lia.
  reflexivity.
Qed.

(** C4 (as the code has it): for every single-byte payload [b] the
    override duty becomes [b * 100 / 255] rounded down, the override is
    set active, the session is set inactive, the other statics are left
    alone, and that duty is written to the actuator at once; [0x00] gives
    duty 0 and [0xFF] duty 100. *)
Theorem legacy_duty_truncates (need_rsp : bool) (b : byte) (tick : Z)
    (g : globals) :
  let r := gatts_profile_event_handler (ESP_GATTS_WRITE_EVT need_rsp [b]) tick g in
  fst r = set_session_active 0
            (set_override_active 1
               (set_override_duty (byte_val b * 100 / 255) g))
  /\ override_duty (fst r) = byte_val b * 100 / 255
  /\ override_active (fst r) = 1
  /\ session_active (fst r) = 0
  /\ snd r = ack need_rsp ++ pwm1_setduty (override_duty (fst r))
  /\ override_duty
       (fst (gatts_profile_event_handler
               (ESP_GATTS_WRITE_EVT need_rsp [x00]) tick g)) = 0
  /\ override_duty
       (fst (gatts_profile_event_handler
               (ESP_GATTS_WRITE_EVT need_rsp [xff]) tick g)) = 100.
Proof.
  cbv zeta. rewrite !gatts_write_single. cbn [fst snd].
  repeat split; reflexivity.
Qed.

(** C4 fails as stated: for the byte [0x02], [round (2 * 100 / 255)] is 1
    but the code stores duty 0. *)
Lemma legacy_duty_not_rounded :
  round_div (byte_val x02 * 100) 255 = 1
  /\ override_duty
       (fst (gatts_profile_event_handler
               (ESP_GATTS_WRITE_EVT true [x02]) 0 static_init))
     <> round_div (byte_val x02 * 100) 255.
Proof. split; [reflexivity|discriminate]. Qed.

(** The two-sided clamps of the [0xA1] case. *)
Lemma clamp_start_hz (g : globals) :
  (if 50 <? start_hz (if start_hz g <? 1 then set_start_hz 1 g else g)
   then set_start_hz 50 (if start_hz g <? 1 then set_start_hz 1 g else g)
   else if start_hz g <? 1 then set_start_hz 1 g else g)
  = set_start_hz (clamp 1 50 (start_hz g)) g.
Proof.
  destruct g as [br sh eh it et hi ho sm st sa se oa od].
  cbn [start_hz]. unfold clamp.
  destruct (Z.ltb_spec sh 1).
  - unfold set_start_hz; cbn -[Z.max Z.min]. f_equal. lia.
  - cbn [start_hz]. destruct (Z.ltb_spec 50 sh);
      unfold set_start_hz; cbn -[Z.max Z.min]; f_equal; lia.
Qed.

Lemma clamp_end_hz (g : globals) :
  (if 50 <? end_hz (if end_hz g <? 1 then set_end_hz 1 g else g)
   then set_end_hz 50 (if end_hz g <? 1 then set_end_hz 1 g else g)
   else if end_hz g <? 1 then set_end_hz 1 g else g)
  = set_end_hz (clamp 1 50 (end_hz g)) g.
Proof.
  destruct g as [br sh eh it et hi ho sm st sa se oa od].
  cbn [end_hz]. unfold clamp.
  destruct (Z.ltb_spec eh 1).
  - unfold set_end_hz; cbn -[Z.max Z.min]. f_equal. lia.
  - cbn [end_hz]. destruct (Z.ltb_spec 50 eh);
      unfold set_end_hz; cbn -[Z.max Z.min]; f_equal; lia.
Qed.

(** C7: for every payload of length at least 3 that starts with [0xA1],
    [start_hz] and [end_hz] become bytes 1 and 2 clamped to [1,50], the
    override is cleared, the session is active with [ended] cleared and
    the start tick is reset to now; nothing else changes, and nothing is
    sent but the acknowledgement.  [0xA1 5 60] stores [end_hz = 50] and
    [0xA1 0 10] stores [start_hz = 1]. *)
Theorem strobe_range_clamped (need_rsp : bool) (b1 b2 : byte)
    (rest : list byte) (tick : Z) (g : globals) :
  gatts_profile_event_handler
    (ESP_GATTS_WRITE_EVT need_rsp (xa1 :: b1 :: b2 :: rest)) tick g
  = (restarted tick
       (set_end_hz (clamp 1 50 (byte_val b2))
          (set_start_hz (clamp 1 50 (byte_val b1)) g)),
     ack need_rsp)
  /\ end_hz (fst (gatts_profile_event_handler
                    (ESP_GATTS_WRITE_EVT need_rsp [xa1; x05; x3c]) tick g)) = 50
  /\ start_hz (fst (gatts_profile_event_handler
                      (ESP_GATTS_WRITE_EVT need_rsp [xa1; x00; x0a]) tick g)) = 1.
Proof.
  split; [|split; reflexivity].
  cbn [gatts_profile_event_handler]. unfold gatts_write_evt.
  change (value_at (xa1 :: b1 :: b2 :: rest) 0) with 161.
  change (value_at (xa1 :: b1 :: b2 :: rest) 1) with (byte_val b1).
  change (value_at (xa1 :: b1 :: b2 :: rest) 2) with (byte_val b2).
  pose proof (length_cons3 xa1 b1 b2 rest) as Hlen.
  set (len := Z.of_nat (length (xa1 :: b1 :: b2 :: rest))) in *.
  destruct (Z.ltb_spec 0 len); [|lia].
  destruct (Z.eqb_spec len 1); [lia|].
  cbn [Z.eqb Pos.eqb].
  destruct (Z.leb_spec 3 len); [|lia].
  rewrite clamp_start_hz, clamp_end_hz.
  destruct g. reflexivity.
Qed.

(** C1 (as the code has it): for every write of length at least 2 whose
    first byte is [0xA6] the session is resumed (override cleared, session
    active, [ended] cleared, start tick reset to now), and for every write
    of length at least 2 whose first byte is [0xA7] [session_ended] is set
    and nothing is written to the actuator; a write of the single byte
    [0xA6] or [0xA7] is a legacy duty command (duty 65). *)
Theorem resume_and_sleep_need_two_bytes (need_rsp : bool) (b : byte)
    (rest : list byte) (tick : Z) (g : globals) :
  gatts_profile_event_handler
    (ESP_GATTS_WRITE_EVT need_rsp (xa6 :: b :: rest)) tick g
  = (restarted tick g, ack need_rsp)
  /\ gatts_profile_event_handler
       (ESP_GATTS_WRITE_EVT need_rsp (xa7 :: b :: rest)) tick g
     = (set_session_ended 1 g, ack need_rsp)
  /\ gatts_profile_event_handler (ESP_GATTS_WRITE_EVT need_rsp [xa6]) tick g
     = (set_session_active 0 (set_override_active 1 (set_override_duty 65 g)),
        ack need_rsp ++ pwm1_setduty 65)
  /\ gatts_profile_event_handler (ESP_GATTS_WRITE_EVT need_rsp [xa7]) tick g
     = (set_session_active 0 (set_override_active 1 (set_override_duty 65 g)),
        ack need_rsp ++ pwm1_setduty 65).
Proof.
  repeat split; try apply gatts_write_single.
  - cbn [gatts_profile_event_handler]. unfold gatts_write_evt.
    change (value_at (xa6 :: b :: rest) 0) with 166.
    pose proof (length_cons2 xa6 b rest) as Hlen.
    set (len := Z.of_nat (length (xa6 :: b :: rest))) in *.
    destruct (Z.ltb_spec 0 len); [|lia].
    destruct (Z.eqb_spec len 1); [lia|].
    cbn [Z.eqb Pos.eqb]. destruct g. reflexivity.
  - cbn [gatts_profile_event_handler]. unfold gatts_write_evt.
    change (value_at (xa7 :: b :: rest) 0) with 167.
    pose proof (length_cons2 xa7 b rest) as Hlen.
    set (len := Z.of_nat (length (xa7 :: b :: rest))) in *.
    destruct (Z.ltb_spec 0 len); [|lia].
    destruct (Z.eqb_spec len 1); [lia|].
    cbn [Z.eqb Pos.eqb]. reflexivity.
Qed.

(** C1 fails as stated: at boot, a write of the single byte [0xA6] does
    not restart the session but stops it and holds the actuator at 65%,
    and a write of the single byte [0xA7] leaves [session_ended] clear and
    writes to the actuator. *)
Lemma single_byte_a6_a7_are_legacy :
  let g := sys_globals (app_main 0 0) in
  let r6 := gatts_profile_event_handler (ESP_GATTS_WRITE_EVT true [xa6]) 9 g in
  let r7 := gatts_profile_event_handler (ESP_GATTS_WRITE_EVT true [xa7]) 9 g in
  fst r6 <> restarted 9 g
  /\ session_active (fst r6) = 0 /\ override_active (fst r6) = 1
  /\ session_ended (fst r7) <> 1
  /\ snd r7 = [gatts_send_response; ledc_duty 805].
Proof.
  cbv zeta. repeat split; try reflexivity; discriminate.
Qed.

(** ** Session completion *)

Lemma led_task_idle (p now : Z) (g : globals) (v : led_vars) :
  override_active g = 0 -> session_active g = 0 ->
  led_task_iter p now g v = Some (v, g, [vTaskDelay (100 / p)]).
Proof.
  intros Ho Ha. unfold led_task_iter. rewrite Ho, Ha. reflexivity.
Qed.

Lemma led_task_run_idle (p : Z) (g : globals) :
  override_active g = 0 -> session_active g = 0 ->
  forall nows v,
    led_task_run p nows g v
    = Some (v, g, map (fun _ => vTaskDelay (100 / p)) nows).
Proof.
  intros Ho Ha nows. induction nows as [|now rest IH]; intros v.
  - reflexivity.
  - cbn [led_task_run map]. rewrite (led_task_idle p now g v Ho Ha).
    rewrite IH. reflexivity.
Qed.

(** C6: when the session is active, not overridden, and the elapsed ticks
    have reached the session's duration (equality included), the loop
    iteration writes duty 0 to the actuator, clears [session_active] and
    sets [session_ended]; every run of later iterations on that state
    changes nothing and only delays: no further actuator write. *)
Theorem session_completes_once (p now : Z) (g : globals) (v : led_vars)
    (Hact : session_active g <> 0) (Hov : override_active g = 0)
    (Hdone : session_duration_ticks p g <= elapsed_ticks now g) :
  let g' := set_session_ended 1 (set_session_active 0 g) in
  led_task_iter p now g v = Some (v, g', pwm1_setduty 0)
  /\ pwm1_setduty 0 = [ledc_duty 0]
  /\ session_active g' = 0 /\ session_ended g' = 1
  /\ forall nows v1,
       led_task_run p nows g' v1
       = Some (v1, g', map (fun _ => vTaskDelay (100 / p)) nows).
Proof.
  cbv zeta. repeat split.
  - unfold led_task_iter. rewrite Hov. cbn [Z.eqb negb].
    destruct (Z.eqb_spec (session_active g) 0) as [E|_]; [contradiction|].
    destruct (Z.leb_spec (session_duration_ticks p g) (elapsed_ticks now g));
      [reflexivity|lia].
  - intros nows v1. apply led_task_run_idle; [exact Hov|reflexivity].
Qed.

Lemma session_completes_once_witness :
  let g := sys_globals (app_main 0 0) in
  led_task_iter 1 600000 g (led_init 0)
  = Some (led_init 0, set_session_ended 1 (set_session_active 0 g),
          [ledc_duty 0]).
Proof.
  cbv zeta.
  refine (proj1 (session_completes_once 1 600000 (sys_globals (app_main 0 0))
                   (led_init 0) _ _ _)).
  - discriminate.
  - reflexivity.
  - vm_compute. discriminate.
Defined.

(** ** The sleep/wake controller *)

Lemma poll_closed (p t : Z) (g : globals) (s : sleep_statics) :
  session_ended g = 0 ->
  1000 / p <= wrap32 (t - last_check_time s) ->
  0 <= arms_closed_duration s < 2 ^ 32 - 1 ->
  check_sleep_condition p t closed g s
  = if 5 <=? arms_closed_duration s + 1 then DeepSleep enter_deep_sleep
    else Returns (mkSleep (arms_closed_duration s + 1) t).
Proof.
  intros He Hsp Hc. unfold check_sleep_condition, closed.
  destruct (Z.ltb_spec (wrap32 (t - last_check_time s)) (1000 / p)); [lia|].
  rewrite He. cbn [Z.eqb negb arms_closed_duration last_check_time].
  unfold wrap32, SLEEP_HALL_WAIT_TIME.
  rewrite Z.mod_small by lia. reflexivity.
Qed.

Lemma poll_open (p t hall : Z) (g : globals) (s : sleep_statics) :
  session_ended g = 0 ->
  1000 / p <= wrap32 (t - last_check_time s) ->
  hall <> closed ->
  check_sleep_condition p t hall g s = Returns (mkSleep 0 t).
Proof.
  intros He Hsp Hh. unfold check_sleep_condition, closed in *.
  destruct (Z.ltb_spec (wrap32 (t - last_check_time s)) (1000 / p)); [lia|].
  rewrite He. cbn [Z.eqb negb].
  destruct (Z.eqb_spec hall 1); [contradiction|reflexivity].
Qed.

(** A poll that passes the rate limit while a session end is pending
    puts the device to sleep; one that comes too early returns at
    once. *)
Lemma poll_ended (p t hall : Z) (g : globals) (s : sleep_statics) :
  session_ended g <> 0 ->
  1000 / p <= wrap32 (t - last_check_time s) ->
  check_sleep_condition p t hall g s = DeepSleep enter_deep_sleep.
Proof.
  intros He Hsp. unfold check_sleep_condition.
  destruct (Z.ltb_spec (wrap32 (t - last_check_time s)) (1000 / p)); [lia|].
  destruct (Z.eqb_spec (session_ended g) 0); [contradiction|reflexivity].
Qed.

Lemma poll_skipped (p t hall : Z) (g : globals) (s : sleep_statics) :
  wrap32 (t - last_check_time s) < 1000 / p ->
  check_sleep_condition p t hall g s = Returns s.
Proof.
  intros Hsp. unfold check_sleep_condition.
  destruct (Z.ltb_spec (wrap32 (t - last_check_time s)) (1000 / p));
    [reflexivity|lia].
Qed.

(** A run of closed polls from a counter below the threshold: the device
    sleeps as soon as the counter reaches [SLEEP_HALL_WAIT_TIME]. *)
Lemma closed_run (p : Z) (g : globals) :
  session_ended g = 0 ->
  forall (ts : list Z) (s : sleep_statics),
    0 <= arms_closed_duration s <= 4 ->
    spaced p (last_check_time s) (map (fun t => (t, closed)) ts) ->
    (5 <= arms_closed_duration s + Z.of_nat (length ts) ->
     sleep_polls p (map (fun t => (t, closed)) ts) g s
     = DeepSleep enter_deep_sleep)
    /\ (arms_closed_duration s + Z.of_nat (length ts) < 5 ->
        exists t',
          sleep_polls p (map (fun t => (t, closed)) ts) g s
          = Returns (mkSleep (arms_closed_duration s + Z.of_nat (length ts)) t')).
Proof.
  intros He ts. induction ts as [|t ts IH]; intros s Hc Hsp.
  - cbn [map sleep_polls length Z.of_nat]. split; [lia|].
    intros _. exists (last_check_time s). rewrite Z.add_0_r.
    destruct s; reflexivity.
  - cbn [map spaced] in Hsp. destruct Hsp as [Ht Hsp].
    cbn [map sleep_polls].
    rewrite poll_closed by (try assumption; lia).
    destruct (Z.leb_spec 5 (arms_closed_duration s + 1)) as [H5|H5].
    + split; [reflexivity|cbn [length]; lia].
    + destruct (IH (mkSleep (arms_closed_duration s + 1) t)) as [IH1 IH2].
      * cbn [arms_closed_duration]. lia.
      * exact Hsp.
      * cbn [arms_closed_duration length] in *.
        replace (arms_closed_duration s + Z.of_nat (S (length ts)))
          with (arms_closed_duration s + 1 + Z.of_nat (length ts)) by lia.
        split; assumption.
Qed.

(** An accepted poll that returns has recorded its tick. *)
Lemma poll_returns_time (p t hall : Z) (g : globals) (s s' : sleep_statics) :
  1000 / p <= wrap32 (t - last_check_time s) ->
  check_sleep_condition p t hall g s = Returns s' ->
  last_check_time s' = t.
Proof.
  intros Hsp. unfold check_sleep_condition.
  destruct (Z.ltb_spec (wrap32 (t - last_check_time s)) (1000 / p)); [lia|].
  destruct (negb (session_ended g =? 0)); [discriminate|].
  destruct (hall =? 1).
  - cbn [arms_closed_duration last_check_time].
    destruct (SLEEP_HALL_WAIT_TIME <=? _); [discriminate|].
    intros [= <-]. reflexivity.
  - intros [= <-]. reflexivity.
Qed.

(** A run is the run of its accepted calls. *)
Lemma sleep_polls_accepted (p : Z) (g : globals) (polls : list (Z * Z)) :
  forall s,
    sleep_polls p polls g s
    = sleep_polls p (accepted p (last_check_time s) polls) g s
    /\ spaced p (last_check_time s) (accepted p (last_check_time s) polls).
Proof.
  induction polls as [|[t hall] rest IH]; intros s.
  - split; [reflexivity|exact I].
  - cbn [accepted sleep_polls].
    destruct (Z.ltb_spec (wrap32 (t - last_check_time s)) (1000 / p)) as [H|H].
    + rewrite (poll_skipped p t hall g s H). apply IH.
    + cbn [sleep_polls spaced].
      destruct (check_sleep_condition p t hall g s) as [s'|ev] eqn:E.
      * pose proof (poll_returns_time p t hall g s s' H E) as Et.
        destruct (IH s') as [IH1 IH2]. rewrite Et in IH1, IH2.
        split; [exact IH1|split; [exact H|exact IH2]].
      * split; [reflexivity|]. split; [exact H|].
        destruct (IH (mkSleep 0 t)) as [_ IH2]. exact IH2.
Qed.

(** A run of accepted closed polls that reaches the threshold ends in deep
    sleep, whether or not a session end is pending. *)
Lemma closed_run_sleeps (p : Z) (g : globals) (ts : list Z)
    (s : sleep_statics) :
  0 <= arms_closed_duration s <= 4 ->
  spaced p (last_check_time s) (map (fun t => (t, closed)) ts) ->
  5 <= arms_closed_duration s + Z.of_nat (length ts) ->
  sleep_polls p (map (fun t => (t, closed)) ts) g s
  = DeepSleep enter_deep_sleep.
Proof.
  intros Hc Hsp H5.
  destruct (Z.eq_dec (session_ended g) 0) as [He|He].
  - apply (closed_run p g He ts s Hc Hsp). exact H5.
  - destruct ts as [|t ts]; [cbn [length] in H5; lia|].
    cbn [map spaced] in Hsp. destruct Hsp as [Ht _].
    cbn [map sleep_polls].
    rewrite (poll_ended p t closed g s He Ht). reflexivity.
Qed.

(** C9 (as the code has it): a call of [check_sleep_condition] that comes
    less than a second after the last accepted one returns before the
    sensor is read and changes nothing, so a run is the run of its
    accepted polls.  Of the accepted polls: from a counter at 0, five
    consecutive polls that read "closed" put the device into deep sleep
    (actuator to 0, wake on sensor level 0, deep sleep) at the fifth, and
    with no session end pending not before; an accepted poll that reads
    "open" sets the counter to 0; so four closed polls followed by an open
    one return with the counter at 0 and no deep sleep.  From any counter
    the running device can have (0 to 4), five consecutive accepted closed
    polls end in deep sleep. *)
Theorem hall_debounce (p : Z) (g : globals) (s : sleep_statics)
    (t1 t2 t3 t4 t5 : Z)
    (Hzero : arms_closed_duration s = 0)
    (Hsp : spaced p (last_check_time s)
             [(t1, closed); (t2, closed); (t3, closed); (t4, closed); (t5, closed)]) :
  sleep_polls p
    [(t1, closed); (t2, closed); (t3, closed); (t4, closed); (t5, closed)] g s
  = DeepSleep [ledc_duty 0; ext0_wakeup 0; deep_sleep_start]
  /\ (session_ended g = 0 ->
      sleep_polls p [(t1, closed); (t2, closed); (t3, closed); (t4, closed)] g s
      = Returns (mkSleep 4 t4)
      /\ sleep_polls p
           [(t1, closed); (t2, closed); (t3, closed); (t4, closed); (t5, open)]
           g s
         = Returns (mkSleep 0 t5))
  /\ (session_ended g = 0 ->
      forall s0 t hall,
        hall <> closed -> 1000 / p <= wrap32 (t - last_check_time s0) ->
        check_sleep_condition p t hall g s0 = Returns (mkSleep 0 t))
  /\ (forall s0 ts,
        0 <= arms_closed_duration s0 <= 4 -> length ts = 5%nat ->
        spaced p (last_check_time s0) (map (fun t => (t, closed)) ts) ->
        sleep_polls p (map (fun t => (t, closed)) ts) g s0
        = DeepSleep [ledc_duty 0; ext0_wakeup 0; deep_sleep_start])
  /\ (forall s0 t hall,
        wrap32 (t - last_check_time s0) < 1000 / p ->
        check_sleep_condition p t hall g s0 = Returns s0)
  /\ (forall s0 polls,
        sleep_polls p polls g s0
        = sleep_polls p (accepted p (last_check_time s0) polls) g s0
        /\ spaced p (last_check_time s0)
             (accepted p (last_check_time s0) polls)).
Proof.
  split; [|split; [|split; [|split; [|split]]]].
  - apply (closed_run_sleeps p g [t1; t2; t3; t4; t5] s); [lia|exact Hsp|].
    rewrite Hzero. cbn [length]. lia.
  - intros Hend.
    cbn [spaced] in Hsp. destruct Hsp as (H1 & H2 & H3 & H4 & H5 & _).
    assert (E4 : sleep_polls p
                   [(t1, closed); (t2, closed); (t3, closed); (t4, closed)] g s
                 = Returns (mkSleep 4 t4)).
    { cbn [sleep_polls].
      rewrite poll_closed by (try assumption; lia). rewrite Hzero.
      cbn [Z.add Z.leb Z.compare Pos.compare Pos.compare_cont].
      rewrite poll_closed by (cbn; try assumption; lia).
      cbn [arms_closed_duration Z.add Pos.add Z.leb Z.compare Pos.compare
           Pos.compare_cont].
      rewrite poll_closed by (cbn; try assumption; lia).
      cbn [arms_closed_duration Z.add Pos.add Pos.succ Z.leb Z.compare
           Pos.compare Pos.compare_cont].
      rewrite poll_closed by (cbn; try assumption; lia).
      reflexivity. }
    assert (A : forall l,
               sleep_polls p
                 ([(t1, closed); (t2, closed); (t3, closed); (t4, closed)] ++ l)
                 g s
               = sleep_polls p l g (mkSleep 4 t4)).
    { intros l. revert E4. cbn [sleep_polls app].
      repeat match goal with
        | |- context [check_sleep_condition ?a ?b ?c ?d ?e] =>
            destruct (check_sleep_condition a b c d e); try discriminate
        end.
      intros E; injection E as ->. reflexivity. }
    split; [exact E4|].
    change [(t1, closed); (t2, closed); (t3, closed); (t4, closed); (t5, open)]
      with ([(t1, closed); (t2, closed); (t3, closed); (t4, closed)]
            ++ [(t5, open)]).
    rewrite A. cbn [sleep_polls].
    rewrite (poll_open p t5 open) by (cbn; try assumption; discriminate).
    reflexivity.
  - intros Hend s0 t hall Hh Ht. apply poll_open; assumption.
  - intros s0 ts Hc Hl Hs.
    apply (closed_run_sleeps p g ts s0 Hc Hs). rewrite Hl. lia.
  - intros s0 t hall Ht. apply poll_skipped. exact Ht.
  - intros s0 polls. apply sleep_polls_accepted.
Qed.

Lemma hall_debounce_witness :
  sleep_polls 1
    [(1000, closed); (2000, closed); (3000, closed); (4000, closed); (5000, closed)]
    (sys_globals (app_main 0 0)) sleep_init
  = DeepSleep [ledc_duty 0; ext0_wakeup 0; deep_sleep_start].
Proof.
  refine (proj1 (hall_debounce 1 (sys_globals (app_main 0 0)) sleep_init
                   1000 2000 3000 4000 5000 _ _)).
  - reflexivity.
  - cbn [spaced last_check_time sleep_init]. vm_compute.
    repeat split; discriminate.
Defined.

(** C9 fails as stated: [last_check_time] starts at 0, so the main loop's
    first call, made less than a second after boot, returns before the
    sensor is read.  Five consecutive calls one second apart (at 500,
    1500, ..., 4500 ms), all with the sensor closed, leave the counter at 4
    and the device running, and an open reading at the sixth call resets
    the counter after five closed calls; the same happens with 10 ms
    ticks. *)
Lemma first_call_after_boot_is_skipped :
  let calls :=
    [(500, closed); (1500, closed); (2500, closed); (3500, closed);
     (4500, closed)] in
  let g := sys_globals (app_main 0 0) in
  sleep_polls 1 calls g sleep_init = Returns (mkSleep 4 4500)
  /\ sleep_polls 1 (calls ++ [(5500, open)]) g sleep_init
     = Returns (mkSleep 0 5500)
  /\ sleep_polls 10
       [(50, closed); (150, closed); (250, closed); (350, closed);
        (450, closed)] g sleep_init
     = Returns (mkSleep 4 450).
Proof.
  cbv zeta. repeat split; vm_compute; reflexivity.
Qed.

(** ** The breathing phase loop *)

Lemma phase_index_cases (z : Z) :
  0 <= z <= 3 -> exists ph, z = phase_index ph.
Proof.
  intros H.
  assert (C : z = 0 \/ z = 1 \/ z = 2 \/ z = 3) by lia.
  destruct C as [->|[->|[->| ->]]];
    [exists Inhale|exists HoldIn|exists Exhale|exists HoldOut]; reflexivity.
Qed.

Lemma phase_index_next (ph : phase) :
  wrap8 ((phase_index ph + 1) mod 4) = phase_index (next_phase ph).
Proof. destruct ph; reflexivity. Qed.

Lemma phase_index_range (ph : phase) : 0 <= phase_index ph <= 3.
Proof. destruct ph; cbn; lia. Qed.

Lemma phase_due_true (durs : list Z) (v : led_vars) :
  phase_due durs v = true <->
  (phase_duration durs v = 0 \/ phase_duration durs v <= breath_elapsed v).
Proof.
  unfold phase_due. rewrite orb_true_iff, Z.eqb_eq, Z.leb_le. reflexivity.
Qed.

Lemma phase_due_false (durs : list Z) (v : led_vars) :
  phase_due durs v = false <->
  (phase_duration durs v <> 0 /\ breath_elapsed v < phase_duration durs v).
Proof.
  unfold phase_due. rewrite orb_false_iff, Z.eqb_neq, Z.leb_gt. reflexivity.
Qed.

(** The loop body is one advance of the specification. *)
Lemma phase_body_advance (durs : list Z) (now : Z) (v : led_vars) :
  0 <= breath_phase v <= 3 -> 0 <= phase_checks v < 4 ->
  phase_due durs v = true ->
  advance durs now v (phase_body now v).
Proof.
  intros Hph Hck Hdue.
  destruct (phase_index_cases _ Hph) as [ph Eph].
  apply (advance_intro durs now v (phase_body now v) ph); cbn [phase_body
    breath_phase phase_start breath_elapsed phase_checks breath_brightness];
    try reflexivity.
  - exact Eph.
  - apply phase_due_true. exact Hdue.
  - rewrite Eph. apply phase_index_next.
  - unfold wrap8. apply Z.mod_small. lia.
Qed.

(** The loop with [fuel] checks left. *)
Lemma phase_loop_spec (durs : list Z) (now : Z) :
  forall (fuel : nat) (v : led_vars),
    0 <= breath_phase v <= 3 ->
    phase_checks v = 4 - Z.of_nat fuel -> (fuel <= 4)%nat ->
    exists (n : nat) (v' : led_vars),
      phase_loop fuel durs now v = Some v'
      /\ (n <= fuel)%nat
      /\ advances durs now n v v'
      /\ ((n < fuel)%nat -> phase_due durs v' = false)
      /\ phase_checks v' = phase_checks v + Z.of_nat n
      /\ 0 <= breath_phase v' <= 3
      /\ (n = O -> v' = v)
      /\ ((0 < n)%nat -> breath_elapsed v' = 0 /\ phase_start v' = now).
Proof.
  induction fuel as [|fuel IH]; intros v Hph Hck Hf.
  - exists O, v. cbn [phase_loop]. unfold phase_cond.
    destruct (Z.ltb_spec (phase_checks v) 4); [cbn in Hck; lia|].
    cbn [andb].
    split; [reflexivity|]. split; [lia|]. split; [constructor|].
    split; [lia|]. split; [cbn; lia|]. split; [exact Hph|].
    split; [reflexivity|lia].
  - cbn [phase_loop]. unfold phase_cond.
    destruct (Z.ltb_spec (phase_checks v) 4); [|lia].
    cbn [andb]. destruct (phase_due durs v) eqn:Hdue.
    + pose proof (phase_body_advance durs now v Hph ltac:(lia) Hdue) as Hadv.
      assert (Hck' : phase_checks (phase_body now v) = phase_checks v + 1).
      { cbn [phase_body phase_checks]. unfold wrap8.
        rewrite Z.mod_small by lia. reflexivity. }
      destruct (IH (phase_body now v))
        as (n & v' & E & Hn & Hadvs & Hstop & Hc & Hr & H0 & Hz).
      * inversion Hadv as [? ? ph E1 _ E3 _ _ _ _]. rewrite E3.
        apply phase_index_range.
      * rewrite Hck'. lia.
      * lia.
      * exists (S n), v'.
        split; [exact E|]. split; [lia|].
        split; [econstructor; eassumption|].
        split; [intros Hlt; apply Hstop; lia|].
        split; [rewrite Hc, Hck'; lia|].
        split; [exact Hr|].
        split; [discriminate|].
        intros _. destruct n as [|n].
        -- rewrite (H0 eq_refl). split; reflexivity.
        -- apply Hz. lia.
    + exists O, v.
      split; [reflexivity|]. split; [lia|]. split; [constructor|].
      split; [intros _; exact Hdue|]. split; [cbn; lia|]. split; [exact Hph|].
      split; [reflexivity|lia].
Qed.

(** Where the loop settles: on one of the four phases, with an elapsed
    time that does not exceed a non-negative duration. *)
Lemma phase_loop_settled (durs : list Z) (now : Z) (v : led_vars) :
  0 <= breath_phase v <= 3 ->
  exists vs,
    phase_loop 4 durs now (enter_phase_loop now v) = Some vs
    /\ 0 <= breath_phase vs <= 3
    /\ (0 <= phase_duration durs vs ->
        0 <= breath_elapsed vs <= phase_duration durs vs).
Proof.
  intros Hph.
  destruct (phase_loop_spec durs now 4 (enter_phase_loop now v) Hph eq_refl
              ltac:(lia)) as (n & vs & E & _ & _ & Hstop & _ & Hr & H0 & Hz).
  exists vs. split; [exact E|]. split; [exact Hr|]. intros Hd.
  destruct n as [|n].
  - apply phase_due_false in Hstop; [|lia]. rewrite (H0 eq_refl) in *.
    cbn [enter_phase_loop breath_elapsed] in *.
    pose proof (Z.mod_pos_bound (now - phase_start v) (2 ^ 32) eq_refl).
    unfold wrap32 in *. lia.
  - destruct (Hz ltac:(lia)) as [-> _]. lia.
Qed.

(** C5: in every evaluation the phase loop returns after at most 4
    advances; each advance is taken exactly when the active phase's
    duration is zero or its elapsed time has reached the duration, goes to
    the next phase in the order Inhale, HoldIn, Exhale, HoldOut, Inhale and
    sets the elapsed time to 0 (and [phase_start] to now); when it stops
    before the fourth advance, the settled phase has a non-zero duration
    that has not elapsed, so zero-duration phases are skipped within the
    evaluation. *)
Theorem phase_loop_advances (durs : list Z) (now : Z) (v : led_vars)
    (Hph : 0 <= breath_phase v <= 3) :
  exists (n : nat) (v' : led_vars),
    phase_loop 4 durs now (enter_phase_loop now v) = Some v'
    /\ (n <= 4)%nat
    /\ advances durs now n (enter_phase_loop now v) v'
    /\ phase_checks v' = Z.of_nat n
    /\ ((n < 4)%nat ->
        phase_duration durs v' <> 0
        /\ breath_elapsed v' < phase_duration durs v')
    /\ (n = O -> v' = enter_phase_loop now v)
    /\ ((0 < n)%nat -> breath_elapsed v' = 0 /\ phase_start v' = now).
Proof.
  destruct (phase_loop_spec durs now 4 (enter_phase_loop now v))
    as (n & v' & E & Hn & Hadv & Hstop & Hc & _ & H0 & Hz).
  - exact Hph.
  - reflexivity.
  - lia.
  - exists n, v'. repeat split; try assumption.
    + apply phase_due_false. apply Hstop. assumption.
    + apply phase_due_false. apply Hstop. assumption.
    + apply Hz. assumption.
    + apply Hz. assumption.
Qed.

Lemma phase_loop_advances_witness :
  exists v',
    phase_loop 4 [4000; 0; 4000; 0] 5000 (enter_phase_loop 5000 (led_init 0))
    = Some v'
    /\ breath_phase v' = 2 /\ phase_checks v' = 2.
Proof.
  destruct (phase_loop_advances [4000; 0; 4000; 0] 5000 (led_init 0))
    as (n & v' & E & _).
  - cbn. lia.
  - exists v'. split; [exact E|].
    vm_compute in E. injection E as <-. split; reflexivity.
Defined.

(** ** The lifecycle flags *)

Lemma byte_val_inj (b b' : byte) : byte_val b = byte_val b' -> b = b'.
Proof.
  unfold byte_val. intros H. apply N2Z.inj in H.
  pose proof (Byte.of_to_N b) as E. rewrite H, Byte.of_to_N in E.
  congruence.
Qed.

(** Refutes that a payload is a restart command, or a sleep command. *)
Ltac not_restart :=
  let E := fresh "E" in
  intros [(?&?&?&E)|[(?&?&?&?&?&E)|[(?&?&E)|(?&?&E)]]];
  try discriminate E;
  injection E as ?; subst;
  try discriminate;
  try (cbn [length] in *; lia);
  try (exfalso; auto; fail).

Ltac not_sleep :=
  let E := fresh "E" in
  intros (? & ? & E); try discriminate E;
  injection E as ?; subst; try discriminate; try (exfalso; auto; fail).

(** What a write does to [session_active] and [session_ended], by its
    payload. *)
Lemma gatts_restart_cases (need_rsp : bool) (value : list byte) (tick : Z)
    (g : globals) :
  let g' := fst (gatts_write_evt need_rsp value tick g) in
  (restart_payload value /\ session_active g' = 1 /\ session_ended g' = 0)
  \/ ((exists b rest, value = xa7 :: b :: rest) /\ g' = set_session_ended 1 g)
  \/ (~ restart_payload value
      /\ ~ (exists b rest, value = xa7 :: b :: rest)
      /\ ((session_active g' = session_active g
           /\ session_ended g' = session_ended g)
          \/ (session_active g' = 0 /\ session_ended g' = session_ended g))).
Proof.
  cbv zeta.
  destruct value as [|b0 [|b1 rest]].
  - right; right. split; [not_restart|split; [not_sleep|left; split; reflexivity]].
  - right; right. split; [not_restart|split; [not_sleep|]].
    change (gatts_write_evt need_rsp [b0] tick g)
      with (gatts_profile_event_handler (ESP_GATTS_WRITE_EVT need_rsp [b0])
              tick g).
    rewrite gatts_write_single. right. split; reflexivity.
  - unfold gatts_write_evt.
    change (value_at (b0 :: b1 :: rest) 0) with (byte_val b0).
    change (value_at (b0 :: b1 :: rest) 1) with (byte_val b1).
    pose proof (length_cons2 b0 b1 rest) as Hlen.
    assert (Hrest : Z.of_nat (length (b0 :: b1 :: rest))
                    = 2 + Z.of_nat (length rest)) by (cbn [length]; lia).
    set (len := Z.of_nat (length (b0 :: b1 :: rest))) in *.
    destruct (Z.ltb_spec 0 len); [|lia].
    destruct (Z.eqb_spec len 1); [lia|].
    destruct (Z.eqb_spec (byte_val b0) 161) as [E|].
    { change 161 with (byte_val xa1) in E. apply byte_val_inj in E. subst b0.
      destruct (Z.leb_spec 3 len).
      - left. split; [|split; reflexivity].
        left. destruct rest as [|b2 rest]; [cbn [length] in Hrest; lia|].
        exists b1, b2, rest. reflexivity.
      - right; right.
        split; [not_restart|split; [not_sleep|left; split; reflexivity]]. }
    destruct (Z.eqb_spec (byte_val b0) 162) as [E|].
    { change 162 with (byte_val xa2) in E. apply byte_val_inj in E. subst b0.
      right; right. split; [not_restart|split; [not_sleep|]].
      destruct (2 <=? len); [|left; split; reflexivity].
      left. cbn [fst].
      destruct (100 <? brightness (set_brightness (byte_val b1) g));
        split; reflexivity. }
    destruct (Z.eqb_spec (byte_val b0) 163) as [E|].
    { change 163 with (byte_val xa3) in E. apply byte_val_inj in E. subst b0.
      destruct (Z.leb_spec 5 len).
      - left. split; [|split; reflexivity].
        right; left.
        destruct rest as [|b2 [|b3 [|b4 rest]]];
          try (cbn [length] in Hrest; lia).
        exists b1, b2, b3, b4, rest. reflexivity.
      - right; right.
        split; [not_restart|split; [not_sleep|left; split; reflexivity]]. }
    destruct (Z.eqb_spec (byte_val b0) 164) as [E|].
    { change 164 with (byte_val xa4) in E. apply byte_val_inj in E. subst b0.
      destruct (Z.leb_spec 2 len); [|lia].
      left. split; [|split; reflexivity].
      right; right; left. exists b1, rest. reflexivity. }
    destruct (Z.eqb_spec (byte_val b0) 165) as [E|].
    { change 165 with (byte_val xa5) in E. apply byte_val_inj in E. subst b0.
      right; right. split; [not_restart|split; [not_sleep|]].
      destruct (2 <=? len); [|left; split; reflexivity].
      right. cbn [fst].
      destruct (100 <? override_duty (set_override_duty (byte_val b1) g));
        split; reflexivity. }
    destruct (Z.eqb_spec (byte_val b0) 166) as [E|].
    { change 166 with (byte_val xa6) in E. apply byte_val_inj in E. subst b0.
      left. split; [|split; reflexivity].
      right; right; right. exists b1, rest. reflexivity. }
    destruct (Z.eqb_spec (byte_val b0) 167) as [E|].
    { change 167 with (byte_val xa7) in E. apply byte_val_inj in E. subst b0.
      right; left. split; [|reflexivity]. exists b1, rest. reflexivity. }
    right; right. split; [|split; [|left; split; reflexivity]].
    + intros [(?&?&?&E)|[(?&?&?&?&?&E)|[(?&?&E)|(?&?&E)]]];
        injection E as -> _; auto.
    + intros (? & ? & E). injection E as -> _. auto.
Qed.

(** What a callback does to the two flags, by the kind of its event. *)
Lemma gatts_event_cases (ev : esp_gatts_cb_event_t) (tick : Z) (g : globals) :
  let g' := fst (gatts_profile_event_handler ev tick g) in
  (is_restart_command (Gatts ev tick)
   /\ session_active g' = 1 /\ session_ended g' = 0)
  \/ (is_sleep_command (Gatts ev tick)
      /\ ~ is_restart_command (Gatts ev tick)
      /\ g' = set_session_ended 1 g)
  \/ (~ is_restart_command (Gatts ev tick)
      /\ ~ is_sleep_command (Gatts ev tick)
      /\ ((session_active g' = session_active g
           /\ session_ended g' = session_ended g)
          \/ (session_active g' = 0 /\ session_ended g' = session_ended g))).
Proof.
  cbv zeta.
  destruct ev as [| |need_rsp value| |];
    try (right; right; split;
         [intros (? & ? & ? & E & _); discriminate E
         |split; [intros (? & ? & ? & ? & E); discriminate E
                 |left; split; reflexivity]]).
  cbn [gatts_profile_event_handler].
  destruct (gatts_restart_cases need_rsp value tick g)
    as [(R & Ea & Ee)|[((b & rest & ->) & E)|(R & S & C)]].
  - left. split; [|split; assumption].
    exists need_rsp, value, tick. split; [reflexivity|exact R].
  - right; left. split; [|split; [|exact E]].
    + exists need_rsp, b, rest, tick. reflexivity.
    + intros (? & ? & ? & E' & R). injection E' as <- <- <-.
      revert R. not_restart.
  - right; right. split; [|split; [|exact C]].
    + intros (? & ? & ? & E & R'). injection E as <- <- <-. auto.
    + intros (? & b & rest & ? & E). injection E as <- -> <-.
      apply S. exists b, rest. reflexivity.
Qed.

(** An iteration of the loop leaves the statics alone or completes the
    session. *)
Lemma led_task_iter_globals (p now : Z) (g g' : globals) (v v' : led_vars)
    (evs : list event) :
  led_task_iter p now g v = Some (v', g', evs) ->
  g' = g \/ g' = set_session_ended 1 (set_session_active 0 g).
Proof.
  unfold led_task_iter.
  destruct (negb (override_active g =? 0)); [intros [= _ <- _]; now left|].
  destruct (session_active g =? 0); [intros [= _ <- _]; now left|].
  destruct (session_duration_ticks p g <=? elapsed_ticks now g);
    [intros [= _ <- _]; now right|].
  destruct (strobe_delay _ g); [|discriminate].
  destruct (breath_durations _ _ g); [|discriminate].
  destruct (breath_duty _ _ _ _) as [[v1 d]|]; [|discriminate].
  intros [= _ <- _]. now left.
Qed.

(** C2 (as the code has it): every transition that sets [session_active]
    also clears [session_ended], from any state: the restart commands
    ([0xA1] with at least three bytes, [0xA3] with at least five, [0xA4]
    and [0xA6] with at least two) and the boot leave [session_active = 1]
    and [session_ended = 0], and no other step of the command processor,
    of the modulation loop or of the lifecycle poll sets [session_active].
    With each callback, iteration and poll taken as one step, every step
    other than a [0xA7] write of at least two bytes keeps the two flags
    from being asserted together; that write sets [session_ended] and
    leaves [session_active] as it is.  The completion of a session is two
    stores ([session_active = 0], line 407, then [session_ended = 1],
    line 408) that nothing locks: a callback that comes between them
    leaves both flags asserted exactly when it is a restart command. *)
Theorem active_ended_exclusive_but_sleep (p : Z) (sys sys' : system) (a : action)
    (Hstep : step p sys a sys') :
  (is_restart_command a ->
   session_active (sys_globals sys') = 1
   /\ session_ended (sys_globals sys') = 0)
  /\ (~ is_restart_command a ->
      session_active (sys_globals sys') = session_active (sys_globals sys)
      \/ session_active (sys_globals sys') = 0)
  /\ (forall tick tick',
        session_active (sys_globals (app_main tick tick')) = 1
        /\ session_ended (sys_globals (app_main tick tick')) = 0)
  /\ (~ is_sleep_command a ->
      ~ both_asserted (sys_globals sys) ->
      ~ both_asserted (sys_globals sys'))
  /\ (is_sleep_command a ->
      session_active (sys_globals sys') = session_active (sys_globals sys)
      /\ session_ended (sys_globals sys') = 1)
  /\ (forall ev tick g,
        let g1 := set_session_active 0 g in
        let g2 := fst (gatts_profile_event_handler ev tick g1) in
        let g3 := set_session_ended 1 g2 in
        both_asserted g3 <-> is_restart_command (Gatts ev tick)).
Proof.
  split; [|split; [|split; [|split; [|split]]]].
  - intros R.
    destruct Hstep as [sys ev tick|sys now v g evs Hled|sys t hall s Hpoll];
      cbn [sys_globals];
      try (destruct R as (? & ? & ? & E & _); discriminate E).
    destruct (gatts_event_cases ev tick (sys_globals sys))
      as [(_ & Ea & Ee)|[(_ & N & _)|(N & _)]];
      [split; assumption|contradiction|contradiction].
  - intros N.
    destruct Hstep as [sys ev tick|sys now v g evs Hled|sys t hall s Hpoll];
      cbn [sys_globals].
    + destruct (gatts_event_cases ev tick (sys_globals sys))
        as [(R & _)|[(_ & _ & E)|(_ & _ & [[Ea _]|[Ea _]])]];
        [contradiction|rewrite E; now left|now left|now right].
    + destruct (led_task_iter_globals _ _ _ _ _ _ _ Hled) as [->| ->];
        [now left|now right].
    + now left.
  - intros tick tick'. split; reflexivity.
  - intros NS NB. unfold both_asserted in *.
    destruct Hstep as [sys ev tick|sys now v g evs Hled|sys t hall s Hpoll];
      cbn [sys_globals].
    + destruct (gatts_event_cases ev tick (sys_globals sys))
        as [(_ & Ea & Ee)|[(S & _)|(_ & _ & [[Ea Ee]|[Ea Ee]])]];
        [|contradiction| |]; rewrite Ea, Ee; lia.
    + destruct (led_task_iter_globals _ _ _ _ _ _ _ Hled) as [->| ->];
        [exact NB|cbn; lia].
    + exact NB.
  - intros S.
    destruct Hstep as [sys ev tick|sys now v g evs Hled|sys t hall s Hpoll];
      cbn [sys_globals];
      try (destruct S as (? & ? & ? & ? & E); discriminate E).
    destruct (gatts_event_cases ev tick (sys_globals sys))
      as [(R & _)|[(_ & _ & E)|(_ & N & _)]].
    + exfalso. destruct S as (? & ? & ? & ? & E).
      destruct R as (? & ? & ? & E' & R). rewrite E in E'.
      injection E' as <- <- <-. revert R. not_restart.
    + rewrite E. split; reflexivity.
    + contradiction.
  - intros ev tick g. cbv zeta. unfold both_asserted.
    cbn [set_session_ended session_active session_ended].
    destruct (gatts_event_cases ev tick (set_session_active 0 g))
      as [(R & Ea & _)|[(_ & N & E)|(N & _ & [[Ea _]|[Ea _]])]].
    + rewrite Ea. split; [intros _; exact R|intros _; split; discriminate].
    + rewrite E. cbn. split; [intros [H _]; contradiction|contradiction].
    + rewrite Ea. cbn. split; [intros [H _]; contradiction|contradiction].
    + rewrite Ea. split; [intros [H _]; contradiction|contradiction].
Qed.

Lemma active_ended_exclusive_but_sleep_witness :
  let sys :=
    mkSystem (set_session_ended 1 (sys_globals (app_main 0 0)))
             (led_init 0) sleep_init in
  let sys' :=
    mkSystem (fst (gatts_profile_event_handler
                     (ESP_GATTS_WRITE_EVT true [xa6; x00]) 5 (sys_globals sys)))
             (sys_led sys) (sys_sleep sys) in
  both_asserted (sys_globals sys)
  /\ session_active (sys_globals sys') = 1
  /\ session_ended (sys_globals sys') = 0.
Proof.
  cbv zeta. split; [split; discriminate|].
  refine (proj1 (active_ended_exclusive_but_sleep 1 _ _
                   (Gatts (ESP_GATTS_WRITE_EVT true [xa6; x00]) 5)
                   (step_gatts 1 _ _ 5)) _).
  exists true, [xa6; x00], 5. split; [reflexivity|].
  right; right; right. exists x00, []. reflexivity.
Defined.

(** C2 fails as stated: at boot the session is active; a write of
    [0xA7 0x00] sets [session_ended] and leaves [session_active] set, so a
    state with both asserted is reachable. *)
Lemma active_and_ended_reachable :
  let sys :=
    mkSystem (set_session_ended 1 (sys_globals (app_main 0 0)))
             (led_init 0) sleep_init in
  reachable 1 sys
  /\ session_active (sys_globals sys) = 1
  /\ session_ended (sys_globals sys) = 1
  /\ both_asserted (sys_globals sys).
Proof.
  cbv zeta. split; [|repeat split; discriminate].
  apply (reach_step 1 (app_main 0 0)
           (Gatts (ESP_GATTS_WRITE_EVT true [xa7; x00]) 5)).
  - apply reach_boot.
  - apply (step_gatts 1 (app_main 0 0) (ESP_GATTS_WRITE_EVT true [xa7; x00]) 5).
Qed.

(** ** The brightness fraction *)

(** Whatever the phase, when all four durations are zero the loop makes
    its four advances and [bp] is the quotient 0/0. *)
Lemma bp_nan_all_zero (now : Z) (v : led_vars) :
  0 <= breath_phase v <= 3 ->
  exists v',
    phase_loop 4 [0; 0; 0; 0] now (enter_phase_loop now v) = Some v'
    /\ phase_checks v' = 4
    /\ breath_phase v' = breath_phase v
    /\ phase_duration [0; 0; 0; 0] v' = 0
    /\ breath_bp [0; 0; 0; 0] v' = S754_nan.
Proof.
  intros H.
  assert (C : breath_phase v = 0 \/ breath_phase v = 1
              \/ breath_phase v = 2 \/ breath_phase v = 3) by lia.
  destruct v as [ph ps bb el ck]. cbn [breath_phase] in *.
  destruct C as [->|[->|[->| ->]]]; eexists; repeat split.
Qed.

(** C3, at the input where the code departs from it: after the write
    [0xA3 0 0 0 0] at boot all four phase durations are zero; the loop
    makes its four advances and settles on a phase of duration zero, and
    [bp] is then the quotient 0/0, a NaN that the clamp leaves alone: it is
    not 1.  The conversion of [bp * 100] to [uint8_t] is then undefined. *)
Theorem bp_zero_duration_is_nan :
  let g := fst (gatts_profile_event_handler
                  (ESP_GATTS_WRITE_EVT true [xa3; x00; x00; x00; x00]) 0
                  (sys_globals (app_main 0 0))) in
  let durs := [0; 0; 0; 0] in
  let settled := mkLed 0 1000 (S754_zero false) 0 4 in
  breath_durations 1 (session_progress 1 1000 g) g = Some durs
  /\ phase_loop 4 durs 1000 (enter_phase_loop 1000 (led_init 0)) = Some settled
  /\ phase_duration durs settled = 0
  /\ breath_bp durs settled = S754_nan
  /\ breath_bp durs settled <> F32.of_Z 1
  /\ led_task_iter 1 1000 g (led_init 0) = None.
Proof.
  cbv zeta. repeat split; try (vm_compute; reflexivity).
  vm_compute. discriminate.
Qed.

(** ** Bounds through binary32 rounding *)

Lemma digits2_pos_bounds (m : positive) :
  2 ^ (Zpos (digits2_pos m) - 1) <= Zpos m < 2 ^ Zpos (digits2_pos m).
Proof.
  induction m as [m IH|m IH|]; cbn [digits2_pos].
  - rewrite Pos2Z.inj_succ.
    replace (Z.succ (Zpos (digits2_pos m)) - 1) with (Z.succ (Zpos (digits2_pos m) - 1)) by lia.
    rewrite !Z.pow_succ_r by lia. lia.
  - rewrite Pos2Z.inj_succ.
    replace (Z.succ (Zpos (digits2_pos m)) - 1) with (Z.succ (Zpos (digits2_pos m) - 1)) by lia.
    rewrite !Z.pow_succ_r by lia. lia.
  - cbn. lia.
Qed.

Lemma Zdigits2_le (m n : Z) :
  0 <= m < 2 ^ n -> 0 <= n -> Zdigits2 m <= n.
Proof.
  intros [H0 H1] Hn. destruct m as [|p|p]; cbn [Zdigits2]; [lia| |lia].
  pose proof (digits2_pos_bounds p) as [Hlo _].
  destruct (Z.le_gt_cases (Zpos (digits2_pos p)) n) as [|Hgt]; [assumption|].
  exfalso.
  assert (2 ^ n <= 2 ^ (Zpos (digits2_pos p) - 1)) by (apply Z.pow_le_mono_r; lia).
  lia.
Qed.

Lemma shr_1_bounds (mrs : shr_record) (lo hi : Z) :
  0 <= shr_m mrs -> 2 * lo <= shr_m mrs -> rec_up mrs <= 2 * hi ->
  0 <= shr_m (shr_1 mrs) /\ lo <= shr_m (shr_1 mrs) /\ rec_up (shr_1 mrs) <= hi.
Proof.
  destruct mrs as [m r s]. unfold rec_up. cbn [shr_m shr_r shr_s].
  destruct m as [|[p|p|]|p]; cbn [shr_1 shr_m shr_r shr_s];
    destruct r, s; cbn [orb]; lia.
Qed.

Lemma iter_shr_bounds (k : positive) :
  forall (mrs : shr_record) (lo hi : Z),
    0 <= shr_m mrs -> 2 ^ Zpos k * lo <= shr_m mrs ->
    rec_up mrs <= 2 ^ Zpos k * hi ->
    0 <= shr_m (iter_pos shr_1 k mrs)
    /\ lo <= shr_m (iter_pos shr_1 k mrs)
    /\ rec_up (iter_pos shr_1 k mrs) <= hi.
Proof.
  induction k as [k IH|k IH|]; intros mrs lo hi H0 Hlo Hhi; cbn [iter_pos].
  - assert (E : forall x, 2 ^ Zpos k~1 * x = 2 * (2 ^ Zpos k * (2 ^ Zpos k * x))).
    { intros x. replace (Zpos k~1) with (Zpos k + Zpos k + 1) by lia.
      rewrite !Z.pow_add_r by lia. rewrite Z.pow_1_r. ring. }
    rewrite E in Hlo, Hhi.
    destruct (shr_1_bounds mrs _ _ H0 Hlo Hhi) as (A0 & Alo & Ahi).
    destruct (IH _ _ _ A0 Alo Ahi) as (B0 & Blo & Bhi).
    apply IH; assumption.
  - assert (E : forall x, 2 ^ Zpos k~0 * x = 2 ^ Zpos k * (2 ^ Zpos k * x)).
    { intros x. replace (Zpos k~0) with (Zpos k + Zpos k) by lia.
      rewrite Z.pow_add_r by lia. ring. }
    rewrite E in Hlo, Hhi.
    destruct (IH _ _ _ H0 Hlo Hhi) as (B0 & Blo & Bhi).
    apply IH; assumption.
  - apply shr_1_bounds; [assumption|..]; rewrite Z.pow_1_r in *; assumption.
Qed.

Lemma rec_up_of_loc (m : Z) (l : location) :
  rec_up (shr_record_of_loc m l) = loc_up m l
  /\ shr_m (shr_record_of_loc m l) = m.
Proof. destruct l as [|[| |]]; split; reflexivity. Qed.

Lemma pow2_pos (n : Z) : 0 <= n -> 0 < 2 ^ n.
Proof. intros. apply Z.pow_pos_nonneg; lia. Qed.

Lemma shr_fexp_bounds (m e : Z) (l : location) (lo hi : Z) :
  0 <= m -> e <= 0 -> hi < 2 ^ 24 ->
  lo * 2 ^ (- e) <= m -> loc_up m l <= hi * 2 ^ (- e) ->
  let r := shr_fexp F32.prec F32.emax m e l in
  snd r <= 0 /\ 0 <= shr_m (fst r)
  /\ lo * 2 ^ (- snd r) <= shr_m (fst r)
  /\ rec_up (fst r) <= hi * 2 ^ (- snd r).
Proof.
  intros H0 He Hhi Hlo Hup. cbv zeta. unfold shr_fexp, shr.
  destruct (rec_up_of_loc m l) as [Eu Em].
  assert (Hm : m <= loc_up m l) by (destruct l; cbn; lia).
  pose proof (pow2_pos (- e) ltac:(lia)) as HP.
  assert (Hd : Zdigits2 m + e <= 24).
  { assert (Zdigits2 m <= 24 - e); [|lia].
    apply Zdigits2_le; [|lia]. split; [lia|].
    replace (24 - e) with (24 + - e) by lia. rewrite Z.pow_add_r by lia.
    assert (hi * 2 ^ (- e) < 2 ^ 24 * 2 ^ (- e))
      by (apply Z.mul_lt_mono_pos_r; assumption).
    lia. }
  assert (Hf : fexp F32.prec F32.emax (Zdigits2 m + e) <= 0).
  { unfold fexp, emin, F32.prec, F32.emax. lia. }
  destruct (fexp F32.prec F32.emax (Zdigits2 m + e) - e) as [|k|k] eqn:Ek;
    cbn [fst snd].
  - rewrite Eu, Em. repeat split; assumption.
  - assert (Ee : - e = Zpos k + - (e + Zpos k)) by lia.
    rewrite Ee in Hlo, Hup. rewrite Z.pow_add_r in Hlo, Hup by lia.
    split; [lia|].
    apply iter_shr_bounds.
    + rewrite Em. assumption.
    + rewrite Em. lia.
    + rewrite Eu. lia.
  - rewrite Eu, Em. repeat split; assumption.
Qed.

Lemma round_nearest_even_bounds (mrs : shr_record) :
  shr_m mrs <= round_nearest_even (shr_m mrs) (loc_of_shr_record mrs) <= rec_up mrs.
Proof.
  destruct mrs as [m r s]. unfold rec_up. cbn [shr_m shr_r shr_s].
  destruct r, s; cbn [loc_of_shr_record round_nearest_even orb];
    try destruct (Z.even m); lia.
Qed.

(** Rounding keeps a non-negative value between two integers below 2^24:
    both lie on every grid the rounding can choose. *)
Lemma round_aux_bounds (m e : Z) (l : location) (lo hi : Z) :
  0 <= m -> e <= 0 -> hi < 2 ^ 24 ->
  lo * 2 ^ (- e) <= m -> loc_up m l <= hi * 2 ^ (- e) ->
  bounds lo hi (binary_round_aux F32.prec F32.emax false m e l).
Proof.
  intros H0 He Hhi Hlo Hup. unfold binary_round_aux.
  pose proof (shr_fexp_bounds m e l lo hi H0 He Hhi Hlo Hup) as H1.
  cbv zeta in H1.
  destruct (shr_fexp F32.prec F32.emax m e l) as [mrs1 e1]. cbn [fst snd] in H1.
  destruct H1 as (He1 & A0 & Alo & Ahi).
  pose proof (round_nearest_even_bounds mrs1) as [R1 R2].
  set (m2 := round_nearest_even (shr_m mrs1) (loc_of_shr_record mrs1)) in *.
  pose proof (shr_fexp_bounds m2 e1 loc_Exact lo hi ltac:(lia) He1 Hhi
                ltac:(lia) ltac:(cbn [loc_up]; lia)) as H2.
  cbv zeta in H2.
  destruct (shr_fexp F32.prec F32.emax m2 e1 loc_Exact) as [mrs2 e2].
  cbn [fst snd] in H2. destruct H2 as (He2 & B0 & Blo & Bhi).
  assert (Bm : shr_m mrs2 <= rec_up mrs2).
  { unfold rec_up. destruct (shr_r mrs2 || shr_s mrs2); lia. }
  pose proof (pow2_pos (- e2) ltac:(lia)) as HP.
  destruct (shr_m mrs2) as [|p|p] eqn:Em; cbn [bounds].
  - nia.
  - unfold F32.prec, F32.emax.
    destruct (Z.leb_spec e2 (128 - 24)); [|lia].
    cbn [bounds]. repeat split; lia.
  - lia.
Qed.

Lemma bounds_weaken (lo hi lo' hi' : Z) (x : spec_float) :
  bounds lo hi x -> lo' <= lo -> hi <= hi' -> bounds lo' hi' x.
Proof.
  destruct x as [[|]|[|]| |[|] m e]; cbn [bounds]; try tauto; try lia.
  intros (He & H1 & H2) Hlo Hhi.
  pose proof (pow2_pos (- e) ltac:(lia)). split; [assumption|]. nia.
Qed.

Lemma iter_xO_pow2 (m d : positive) :
  Zpos (Pos.iter xO m d) = Zpos m * 2 ^ Zpos d.
Proof.
  induction d as [|d IH] using Pos.peano_ind.
  - cbn [Pos.iter]. rewrite Z.pow_1_r. lia.
  - rewrite Pos.iter_succ, Pos2Z.inj_succ, Z.pow_succ_r by lia.
    change (Zpos (Pos.iter xO m d)~0) with (2 * Zpos (Pos.iter xO m d)).
    rewrite IH. ring.
Qed.

Lemma shl_align_spec (mx : positive) (ex ex' : Z) :
  snd (shl_align mx ex ex') <= ex
  /\ Zpos (fst (shl_align mx ex ex'))
     = Zpos mx * 2 ^ (ex - snd (shl_align mx ex ex'))
  /\ (ex' <= ex -> snd (shl_align mx ex ex') = ex').
Proof.
  unfold shl_align. destruct (ex' - ex) as [|d|d] eqn:E; cbn [fst snd].
  - rewrite Z.sub_diag. cbn. lia.
  - rewrite Z.sub_diag. cbn. lia.
  - rewrite iter_xO_pow2. replace (ex - ex') with (Zpos d) by lia. lia.
Qed.

Lemma binary_round_bounds (m : positive) (e lo hi : Z) :
  e <= 0 -> hi < 2 ^ 24 ->
  lo * 2 ^ (- e) <= Zpos m <= hi * 2 ^ (- e) ->
  bounds lo hi (binary_round F32.prec F32.emax false m e).
Proof.
  intros He Hhi [Hlo Hup]. unfold binary_round.
  pose proof (shl_align_spec m e
                (fexp F32.prec F32.emax (Zpos (digits2_pos m) + e)))
    as (S1 & S2 & _).
  destruct (shl_align m e _) as [mz ez]. cbn [fst snd] in S1, S2.
  assert (Ee : - ez = - e + (e - ez)) by lia.
  pose proof (pow2_pos (e - ez) ltac:(lia)).
  apply round_aux_bounds; try lia.
  - rewrite S2, Ee, Z.pow_add_r by lia. nia.
  - cbn [loc_up]. rewrite S2, Ee, Z.pow_add_r by lia. nia.
Qed.

Lemma of_Z_bounds (z : Z) :
  0 <= z < 2 ^ 24 -> bounds z z (F32.of_Z z).
Proof.
  intros [H0 H1]. unfold F32.of_Z, binary_normalize.
  destruct z as [|p|p]; [cbn; lia| |lia].
  apply binary_round_bounds; [lia|assumption|].
  cbn [Z.opp]. rewrite Z.pow_0_r. lia.
Qed.

Lemma mul_bounds (a b c d : Z) (x y : spec_float) :
  bounds a b x -> bounds c d y -> 0 <= a -> 0 <= c -> b * d < 2 ^ 24 ->
  bounds (a * c) (b * d) (F32.mul x y).
Proof.
  intros Hx Hy Ha Hc Hbd.
  destruct x as [[|]|[|]| |[|] mx ex]; cbn [bounds] in Hx; try contradiction;
  destruct y as [[|]|[|]| |[|] my ey]; cbn [bounds] in Hy; try contradiction;
    unfold F32.mul; cbn [SFmul xorb bounds]; try nia.
  destruct Hx as (Hex & Hx1 & Hx2). destruct Hy as (Hey & Hy1 & Hy2).
  pose proof (pow2_pos (- ex) ltac:(lia)).
  pose proof (pow2_pos (- ey) ltac:(lia)).
  assert (E : 2 ^ (- (ex + ey)) = 2 ^ (- ex) * 2 ^ (- ey)).
  { rewrite <- Z.pow_add_r by lia. f_equal. lia. }
  apply round_aux_bounds; try lia.
  - rewrite E, Pos2Z.inj_mul. nia.
  - cbn [loc_up]. rewrite E, Pos2Z.inj_mul. nia.
Qed.

Lemma to_unsigned_bounds (bits hi : Z) (x : spec_float) :
  bounds 0 hi x -> 0 <= hi < 2 ^ bits ->
  exists t, F32.to_unsigned bits x = Some t /\ 0 <= t <= hi.
Proof.
  intros Hx Hhi.
  destruct x as [[|]|[|]| |[|] m e]; cbn [bounds] in Hx; try contradiction.
  - exists 0. split; [reflexivity|lia].
  - destruct Hx as (He & _ & Hm).
    pose proof (pow2_pos (- e) ltac:(lia)) as HP.
    assert (Ht : 0 <= Z.shiftl (Zpos m) e <= hi).
    { rewrite Z.shiftl_div_pow2 by lia. split.
      - apply Z.div_pos; lia.
      - apply Z.div_le_upper_bound; lia. }
    exists (Z.shiftl (Zpos m) e). split; [|exact Ht].
    cbn [F32.to_unsigned].
    destruct (Z.ltb_spec (Z.shiftl (Zpos m) e) (2 ^ bits)); [reflexivity|lia].
Qed.

Lemma to_unsigned_range (bits t : Z) (x : spec_float) :
  0 <= bits -> F32.to_unsigned bits x = Some t -> 0 <= t < 2 ^ bits.
Proof.
  intros Hb. pose proof (pow2_pos bits Hb).
  destruct x as [s|s| |s m e]; cbn [F32.to_unsigned]; try discriminate.
  - intros [= <-]. lia.
  - destruct s.
    + destruct (Z.shiftl (Zpos m) e =? 0); [|discriminate].
      intros [= <-]. lia.
    + destruct (Z.ltb_spec (Z.shiftl (Zpos m) e) (2 ^ bits)); [|discriminate].
      intros [= <-]. split; [|assumption].
      apply Z.shiftl_nonneg. lia.
Qed.

Lemma new_location_up (n q r : Z) :
  loc_up q (new_location n r) = if r =? 0 then q else q + 1.
Proof.
  unfold new_location, new_location_even, new_location_odd.
  destruct (Z.even n); destruct (r =? 0); reflexivity.
Qed.

(** The quotient of a value at most [X] by a value at least [Y >= 1],
    where [X <= B * Y], is at most [B]. *)
Lemma div_bounds (X Y Y' B : Z) (x y : spec_float) :
  bounds 0 X x -> bounds Y Y' y -> 1 <= Y -> X <= B * Y -> B < 2 ^ 24 ->
  bounds 0 B (F32.div x y).
Proof.
  intros Hx Hy HY HXB HB.
  destruct y as [[|]|[|]| |[|] my ey]; cbn [bounds] in Hy; try contradiction;
    [lia|].
  destruct x as [[|]|[|]| |[|] mx ex]; cbn [bounds] in Hx; try contradiction;
    unfold F32.div; cbn [SFdiv xorb bounds]; [lia|].
  destruct Hx as (Hex & _ & Hx2). destruct Hy as (Hey & Hy1 & _).
  unfold SFdiv_core_binary. cbn [Zdigits2].
  pose proof (digits2_pos_bounds mx) as [D1 _].
  pose proof (digits2_pos_bounds my) as [_ D2].
  set (d1 := Zpos (digits2_pos mx)) in *.
  set (d2 := Zpos (digits2_pos my)) in *.
  assert (Hd1 : 1 <= d1) by (unfold d1; lia).
  assert (Hd2 : 1 <= d2) by (unfold d2; lia).
  pose proof (pow2_pos (- ex) ltac:(lia)) as Px.
  pose proof (pow2_pos (- ey) ltac:(lia)) as Pe.
  assert (HB1 : 1 <= B) by nia.
  assert (Hmag : d1 + ex - (d2 + ey) <= 24).
  { destruct (Z.le_gt_cases (d1 + ex - (d2 + ey)) 24) as [|Hgt]; [assumption|].
    exfalso.
    assert (Hpow : 2 ^ (24 + d2 - ex) <= 2 ^ (d1 - 1 - ey))
      by (apply Z.pow_le_mono_r; lia).
    replace (24 + d2 - ex) with (24 + d2 + - ex) in Hpow by lia.
    replace (d1 - 1 - ey) with ((d1 - 1) + - ey) in Hpow by lia.
    rewrite !Z.pow_add_r in Hpow by lia.
    pose proof (pow2_pos (d1 - 1) ltac:(lia)) as P1.
    pose proof (pow2_pos d2 ltac:(lia)) as P2.
    set (p1 := 2 ^ (d1 - 1)) in *. set (pe := 2 ^ (- ey)) in *.
    set (px := 2 ^ (- ex)) in *. set (p2 := 2 ^ d2) in *.
    assert (A1 : p1 * pe <= Zpos mx * pe) by nia.
    assert (A2 : Zpos mx * pe <= X * px * pe) by nia.
    assert (A3 : X * px * pe <= B * Y * px * pe).
    { assert (X * (px * pe) <= B * Y * (px * pe)) by (apply Z.mul_le_mono_nonneg_r; nia).
      nia. }
    assert (A4 : B * Y * px * pe <= B * px * Zpos my).
    { assert (B * px * (Y * pe) <= B * px * Zpos my)
        by (apply Z.mul_le_mono_nonneg_l; nia).
      nia. }
    assert (A5 : B * px * Zpos my < 2 ^ 24 * p2 * px).
    { assert (B * Zpos my < 2 ^ 24 * p2) by nia.
      assert (B * Zpos my * px < 2 ^ 24 * p2 * px)
        by (apply Z.mul_lt_mono_pos_r; assumption).
      nia. }
    lia. }
  set (e' := Z.min (fexp F32.prec F32.emax (d1 + ex - (d2 + ey))) (ex - ey)).
  assert (He' : e' <= 0).
  { unfold e', fexp, emin, F32.prec, F32.emax. lia. }
  assert (Hs : 0 <= ex - ey - e') by (unfold e'; lia).
  set (m' := match ex - ey - e' with
             | Z0 => Zpos mx
             | Zpos _ => Z.shiftl (Zpos mx) (ex - ey - e')
             | Zneg _ => 0
             end).
  assert (Hm' : m' = Zpos mx * 2 ^ (ex - ey - e')).
  { unfold m'. destruct (ex - ey - e') as [|s|s] eqn:Es.
    - cbn. lia.
    - apply Z.shiftl_mul_pow2. lia.
    - lia. }
  pose proof (Z_div_mod m' (Zpos my) eq_refl) as Hdm.
  destruct (Z.div_eucl m' (Zpos my)) as [q r]. destruct Hdm as [Eq Hr].
  pose proof (pow2_pos (- e') ltac:(lia)) as Pe'.
  pose proof (pow2_pos (ex - ey - e') Hs) as Ps.
  assert (Epow : 2 ^ (- ex) * 2 ^ (ex - ey - e') = 2 ^ (- ey) * 2 ^ (- e')).
  { rewrite <- !Z.pow_add_r by lia. f_equal. lia. }
  assert (Hle : m' <= Zpos my * (B * 2 ^ (- e'))).
  { rewrite Hm'.
    set (pe := 2 ^ (- ey)) in *. set (px := 2 ^ (- ex)) in *.
    set (ps := 2 ^ (ex - ey - e')) in *. set (pe' := 2 ^ (- e')) in *.
    assert (A1 : Zpos mx * ps <= X * px * ps) by nia.
    assert (A2 : X * (px * ps) <= B * Y * (px * ps))
      by (apply Z.mul_le_mono_nonneg_r; nia).
    assert (A3 : B * pe' * (Y * pe) <= B * pe' * Zpos my)
      by (apply Z.mul_le_mono_nonneg_l; nia).
    rewrite Epow in A2. nia. }
  apply round_aux_bounds; try assumption.
  - nia.
  - nia.
  - rewrite new_location_up.
    destruct (Z.eqb_spec r 0); nia.
Qed.

Lemma one_minus_bounds (bp : spec_float) :
  bounds 0 1 bp -> bounds 0 1 (F32.sub (F32.of_Z 1) bp).
Proof.
  intros Hbp.
  change (F32.of_Z 1) with (S754_finite false 8388608 (-23)).
  destruct bp as [[|]|[|]| |[|] m e]; cbn [bounds] in Hbp; try contradiction.
  - cbn. lia.
  - destruct Hbp as (He & _ & Hm). unfold F32.sub. cbn [SFsub cond_Zopp].
    set (ez := Z.min (-23) e).
    assert (Hez : ez <= 0) by (unfold ez; lia).
    pose proof (shl_align_spec 8388608 (-23) ez) as (_ & A2 & A3).
    pose proof (shl_align_spec m e ez) as (_ & B2 & B3).
    rewrite A3 in A2 by (unfold ez; lia). rewrite B3 in B2 by (unfold ez; lia).
    rewrite A2, B2.
    pose proof (pow2_pos (- e) ltac:(lia)) as Pe.
    pose proof (pow2_pos (e - ez) ltac:(unfold ez; lia)) as Pd.
    assert (E1 : 8388608 * 2 ^ (-23 - ez) = 2 ^ (- ez)).
    { change 8388608 with (2 ^ 23). rewrite <- Z.pow_add_r by (unfold ez; lia).
      f_equal. lia. }
    assert (E2 : 2 ^ (- ez) = 2 ^ (- e) * 2 ^ (e - ez)).
    { rewrite <- Z.pow_add_r by (unfold ez; lia). f_equal. lia. }
    rewrite E1.
    assert (Hd : 0 <= 2 ^ (- ez) - Zpos m * 2 ^ (e - ez) <= 1 * 2 ^ (- ez)).
    { rewrite E2. nia. }
    destruct (2 ^ (- ez) - Zpos m * 2 ^ (e - ez)) as [|d|d] eqn:Ed;
      cbn [binary_normalize].
    + cbn. lia.
    + apply binary_round_bounds; [assumption|reflexivity|lia].
    + lia.
Qed.

(** *** Negative operands *)

Lemma round_aux_opp (m e : Z) (l : location) :
  binary_round_aux F32.prec F32.emax true m e l
  = SFopp (binary_round_aux F32.prec F32.emax false m e l).
Proof.
  unfold binary_round_aux.
  destruct (shr_fexp F32.prec F32.emax m e l) as [mrs1 e1].
  destruct (shr_fexp F32.prec F32.emax _ e1 loc_Exact) as [mrs2 e2].
  destruct (shr_m mrs2); [reflexivity| |reflexivity].
  destruct (e2 <=? F32.emax - F32.prec); reflexivity.
Qed.

Lemma of_Z_neg_bounds (z : Z) :
  - 2 ^ 24 < z < 0 -> bounds (- z) (- z) (SFopp (F32.of_Z z)).
Proof.
  intros [H0 H1]. unfold F32.of_Z, binary_normalize.
  destruct z as [|p|p]; [lia|lia|].
  unfold binary_round.
  destruct (shl_align p 0 _) as [mz ez] eqn:E.
  rewrite round_aux_opp.
  assert (I : forall x, SFopp (SFopp x) = x)
    by (intros [[|]|[|]| |[|] ? ?]; reflexivity).
  rewrite I.
  pose proof (binary_round_bounds p 0 (Zpos p) (Zpos p)) as B.
  unfold binary_round in B. rewrite E in B.
  change (- Zneg p) with (Zpos p).
  apply B; [lia|lia|]. cbn [Z.opp]. rewrite Z.pow_0_r. lia.
Qed.

(** A product with a non-positive left factor. *)
Lemma mul_neg_bounds (a b c d : Z) (x y : spec_float) :
  bounds a b (SFopp x) -> bounds c d y -> 0 <= a -> 0 <= c ->
  b * d < 2 ^ 24 ->
  bounds (a * c) (b * d) (SFopp (F32.mul x y)).
Proof.
  intros Hx Hy Ha Hc Hbd.
  destruct x as [[|]|[|]| |[|] mx ex]; cbn [bounds SFopp negb] in Hx;
    try contradiction;
  destruct y as [[|]|[|]| |[|] my ey]; cbn [bounds] in Hy; try contradiction;
    unfold F32.mul; cbn [SFmul xorb bounds SFopp negb]; try nia.
  rewrite round_aux_opp.
  assert (I : forall x, SFopp (SFopp x) = x)
    by (intros [[|]|[|]| |[|] ? ?]; reflexivity).
  rewrite I.
  apply (mul_bounds a b c d (S754_finite false mx ex) (S754_finite false my ey));
    assumption.
Qed.

(** A sum of two non-negative values. *)
Lemma add_bounds (a b c d : Z) (x y : spec_float) :
  bounds a b x -> bounds c d y -> 1 <= a -> 0 <= c <= d -> b + d < 2 ^ 24 ->
  bounds (a + c) (b + d) (F32.add x y).
Proof.
  intros Hx Hy Ha Hc Hbd.
  destruct x as [[|]|[|]| |[|] mx ex]; cbn [bounds] in Hx; try contradiction;
    [exfalso; lia|].
  destruct Hx as (Hex & Hx1 & Hx2).
  pose proof (pow2_pos (- ex) ltac:(lia)) as Px.
  destruct y as [[|]|[|]| |[|] my ey]; cbn [bounds] in Hy; try contradiction.
  - unfold F32.add. cbn [SFadd bounds]. split; [assumption|]. nia.
  - destruct Hy as (Hey & Hy1 & Hy2).
    pose proof (pow2_pos (- ey) ltac:(lia)) as Py.
    unfold F32.add. cbn [SFadd cond_Zopp].
    set (ez := Z.min ex ey).
    assert (Hez : ez <= 0) by (unfold ez; lia).
    pose proof (shl_align_spec mx ex ez) as (_ & A2 & A3).
    pose proof (shl_align_spec my ey ez) as (_ & B2 & B3).
    rewrite A3 in A2 by (unfold ez; lia). rewrite B3 in B2 by (unfold ez; lia).
    rewrite A2, B2.
    pose proof (pow2_pos (ex - ez) ltac:(unfold ez; lia)) as Pdx.
    pose proof (pow2_pos (ey - ez) ltac:(unfold ez; lia)) as Pdy.
    assert (Ex : 2 ^ (- ez) = 2 ^ (- ex) * 2 ^ (ex - ez)).
    { rewrite <- Z.pow_add_r by (unfold ez; lia). f_equal. lia. }
    assert (Ey : 2 ^ (- ez) = 2 ^ (- ey) * 2 ^ (ey - ez)).
    { rewrite <- Z.pow_add_r by (unfold ez; lia). f_equal. lia. }
    assert (Hs : (a + c) * 2 ^ (- ez)
                 <= Zpos mx * 2 ^ (ex - ez) + Zpos my * 2 ^ (ey - ez)
                 <= (b + d) * 2 ^ (- ez)).
    { rewrite !Z.mul_add_distr_r. rewrite Ex at 1 3. rewrite Ey. nia. }
    destruct (Zpos mx * 2 ^ (ex - ez) + Zpos my * 2 ^ (ey - ez)) as [|s|s] eqn:Es;
      cbn [binary_normalize]; [nia| |nia].
    apply binary_round_bounds; assumption.
Qed.

(** A sum of a positive value and a non-positive one of smaller magnitude. *)
Lemma add_neg_bounds (a b c d : Z) (x y : spec_float) :
  bounds a b x -> bounds c d (SFopp y) -> 1 <= a - d -> 0 <= c <= d ->
  b - c < 2 ^ 24 ->
  bounds (a - d) (b - c) (F32.add x y).
Proof.
  intros Hx Hy Ha Hc Hbd.
  destruct x as [[|]|[|]| |[|] mx ex]; cbn [bounds] in Hx; try contradiction.
  { destruct y as [[|]|[|]| |[|] my ey]; cbn [bounds SFopp negb] in Hy;
      try contradiction.
    - exfalso; lia.
    - destruct Hy as (Hey & Hy1 & Hy2).
      pose proof (pow2_pos (- ey) ltac:(lia)). exfalso; nia. }
  destruct Hx as (Hex & Hx1 & Hx2).
  pose proof (pow2_pos (- ex) ltac:(lia)) as Px.
  destruct y as [[|]|[|]| |[|] my ey]; cbn [bounds SFopp negb] in Hy;
    try contradiction.
  - unfold F32.add. cbn [SFadd bounds]. split; [assumption|]. nia.
  - destruct Hy as (Hey & Hy1 & Hy2).
    pose proof (pow2_pos (- ey) ltac:(lia)) as Py.
    unfold F32.add. cbn [SFadd cond_Zopp].
    set (ez := Z.min ex ey).
    assert (Hez : ez <= 0) by (unfold ez; lia).
    pose proof (shl_align_spec mx ex ez) as (_ & A2 & A3).
    pose proof (shl_align_spec my ey ez) as (_ & B2 & B3).
    rewrite A3 in A2 by (unfold ez; lia). rewrite B3 in B2 by (unfold ez; lia).
    rewrite A2, B2.
    pose proof (pow2_pos (ex - ez) ltac:(unfold ez; lia)) as Pdx.
    pose proof (pow2_pos (ey - ez) ltac:(unfold ez; lia)) as Pdy.
    assert (Ex : 2 ^ (- ez) = 2 ^ (- ex) * 2 ^ (ex - ez)).
    { rewrite <- Z.pow_add_r by (unfold ez; lia). f_equal. lia. }
    assert (Ey : 2 ^ (- ez) = 2 ^ (- ey) * 2 ^ (ey - ez)).
    { rewrite <- Z.pow_add_r by (unfold ez; lia). f_equal. lia. }
    assert (Hs : (a - d) * 2 ^ (- ez)
                 <= Zpos mx * 2 ^ (ex - ez) + - (Zpos my * 2 ^ (ey - ez))
                 <= (b - c) * 2 ^ (- ez)).
    { rewrite !Z.mul_sub_distr_r. rewrite Ex at 1 3. rewrite Ey. nia. }
    pose proof (pow2_pos (- ez) ltac:(lia)) as Pz.
    destruct (Zpos mx * 2 ^ (ex - ez) + - (Zpos my * 2 ^ (ey - ez)))
      as [|s|s] eqn:Es; cbn [binary_normalize]; [nia| |nia].
    apply binary_round_bounds; assumption.
Qed.

(** ** The duty never exceeds the configured brightness *)

Lemma breath_bp_bounds (durs : list Z) (v : led_vars) :
  0 < phase_duration durs v < 2 ^ 24 ->
  0 <= breath_elapsed v <= phase_duration durs v ->
  bounds 0 1 (breath_bp durs v).
Proof.
  intros HD HE. unfold breath_bp.
  assert (H1 : bounds 0 1 (F32.of_Z 1)).
  { apply (bounds_weaken 1 1); [apply of_Z_bounds|..]; lia. }
  destruct (F32.gt _ _); [exact H1|].
  apply (div_bounds (breath_elapsed v) (phase_duration durs v)
           (phase_duration durs v) 1).
  - apply (bounds_weaken (breath_elapsed v) (breath_elapsed v));
      [apply of_Z_bounds|..]; lia.
  - apply of_Z_bounds. lia.
  - lia.
  - lia.
  - reflexivity.
Qed.

Lemma breath_switch_bounds (bp : spec_float) (v : led_vars) :
  0 <= breath_phase v <= 3 -> bounds 0 1 bp ->
  bounds 0 100 (breath_switch bp v).
Proof.
  intros Hph Hbp. unfold breath_switch.
  assert (H100 : bounds 100 100 (F32.of_Z 100)) by (apply of_Z_bounds; lia).
  destruct (Z.eqb_spec (breath_phase v) 0).
  { apply (bounds_weaken (0 * 100) (1 * 100)); [|lia|lia].
    apply mul_bounds; try assumption; lia. }
  destruct (Z.eqb_spec (breath_phase v) 1).
  { apply (bounds_weaken 100 100); [assumption|lia|lia]. }
  destruct (Z.eqb_spec (breath_phase v) 2).
  { apply (bounds_weaken (0 * 100) (1 * 100)); [|lia|lia].
    apply mul_bounds; try assumption; try lia.
    apply one_minus_bounds. assumption. }
  destruct (Z.eqb_spec (breath_phase v) 3); [cbn; lia|lia].
Qed.

Lemma final_duty_bounds (bb : spec_float) (br : Z) :
  bounds 0 100 bb -> 0 <= br <= 255 ->
  exists duty, final_duty bb br = Some duty /\ 0 <= duty <= br.
Proof.
  intros Hbb Hbr. unfold final_duty.
  assert (P24 : 2 ^ 24 = 16777216) by reflexivity.
  apply to_unsigned_bounds; [|change (2 ^ 8) with 256; lia].
  apply (div_bounds (100 * br) 100 100 br); try lia.
  - apply (bounds_weaken (0 * br) (100 * br)); [|lia|lia].
    apply mul_bounds; try assumption; try lia.
    apply of_Z_bounds. lia.
  - apply of_Z_bounds. lia.
Qed.

(** ** Reachable states *)

Ltac inv_set g :=
  destruct g as [br sh eh it et hi ho sm st sa se oa od]; unfold state_inv, globals_ok in *;
  cbn [brightness start_hz end_hz inhale_time exhale_time hold_in_end
       hold_out_end session_minutes session_start_tick session_active
       session_ended override_active override_duty
       set_brightness set_start_hz set_end_hz set_inhale_time
       set_exhale_time set_hold_in_end set_hold_out_end
       set_session_minutes set_session_start_tick set_session_active
       set_session_ended set_override_active set_override_duty] in *;
  intuition lia.

Lemma inv_set_brightness v g :
  0 <= v <= 100 -> state_inv g -> state_inv (set_brightness v g).
Proof. intros; inv_set g. Qed.
Lemma inv_set_start_hz v g :
  1 <= v <= 50 -> state_inv g -> state_inv (set_start_hz v g).
Proof. intros; inv_set g. Qed.
Lemma inv_set_end_hz v g :
  1 <= v <= 50 -> state_inv g -> state_inv (set_end_hz v g).
Proof. intros; inv_set g. Qed.
Lemma inv_set_inhale_time v g :
  0 <= v <= 255 -> state_inv g -> state_inv (set_inhale_time v g).
Proof. intros; inv_set g. Qed.
Lemma inv_set_exhale_time v g :
  0 <= v <= 255 -> state_inv g -> state_inv (set_exhale_time v g).
Proof. intros; inv_set g. Qed.
Lemma inv_set_hold_in_end v g :
  0 <= v <= 255 -> state_inv g -> state_inv (set_hold_in_end v g).
Proof. intros; inv_set g. Qed.
Lemma inv_set_hold_out_end v g :
  0 <= v <= 255 -> state_inv g -> state_inv (set_hold_out_end v g).
Proof. intros; inv_set g. Qed.
Lemma inv_set_session_minutes v g :
  0 <= v <= 255 -> state_inv g -> state_inv (set_session_minutes v g).
Proof. intros; inv_set g. Qed.
Lemma inv_set_session_start_tick v g :
  state_inv g -> state_inv (set_session_start_tick v g).
Proof. intros; inv_set g. Qed.
Lemma inv_set_session_active v g :
  0 <= v <= 255 -> state_inv g -> state_inv (set_session_active v g).
Proof. intros; inv_set g. Qed.
Lemma inv_set_session_ended v g :
  0 <= v <= 255 -> state_inv g -> state_inv (set_session_ended v g).
Proof. intros; inv_set g. Qed.
Lemma inv_set_override_active v g :
  0 <= v <= 255 -> state_inv g -> state_inv (set_override_active v g).
Proof. intros; inv_set g. Qed.
Lemma inv_set_override_duty v g :
  0 <= v <= 255 -> state_inv g -> state_inv (set_override_duty v g).
Proof. intros; inv_set g. Qed.

Lemma inv_if (c : bool) (g1 g2 : globals) :
  state_inv g1 -> state_inv g2 -> state_inv (if c then g1 else g2).
Proof. destruct c; auto. Qed.

Lemma clamp_brightness (v : Z) (g : globals) :
  (if 100 <? brightness (set_brightness v g)
   then set_brightness 100 (set_brightness v g)
   else set_brightness v g)
  = set_brightness (Z.min 100 v) g.
Proof.
  destruct g as [br sh eh it et hi ho sm st sa se oa od].
  cbn [brightness set_brightness].
  destruct (Z.ltb_spec 100 v); unfold set_brightness;
    cbn -[Z.min]; f_equal; lia.
Qed.

Create HintDb inv_db.
#[local] Hint Resolve inv_set_start_hz inv_set_end_hz inv_set_inhale_time
  inv_set_exhale_time inv_set_hold_in_end inv_set_hold_out_end
  inv_set_session_minutes inv_set_session_start_tick inv_set_session_active
  inv_set_session_ended inv_set_override_active inv_set_override_duty
  inv_if byte_val_range : inv_db.

Lemma gatts_state_inv (ev : esp_gatts_cb_event_t) (tick : Z) (g : globals) :
  state_inv g -> state_inv (fst (gatts_profile_event_handler ev tick g)).
Proof.
  intros Hg.
  assert (C1 : 0 <= 1 <= 255) by lia. assert (C0 : 0 <= 0 <= 255) by lia.
  assert (C50 : 0 <= 50 <= 255) by lia. assert (C60 : 0 <= 60 <= 255) by lia.
  assert (C100 : 0 <= 100 <= 255) by lia.
  destruct ev as [| |need_rsp value| |]; try exact Hg.
  destruct value as [|b0 [|b1 rest]].
  - exact Hg.
  - rewrite gatts_write_single. cbn [fst].
    pose proof (byte_val_range b0).
    assert (0 <= byte_val b0 * 100 / 255 <= 255).
    { split; [apply Z.div_pos; lia|apply Z.div_le_upper_bound; lia]. }
    auto with inv_db.
  - cbn [gatts_profile_event_handler]. unfold gatts_write_evt.
    destruct (0 <? _); [|exact Hg]. destruct (_ =? 1).
    { cbn [fst]. pose proof (byte_val_range (nth 0 (b0 :: b1 :: rest) x00)).
      unfold value_at, wrap8, wrap16.
      assert (0 <= (byte_val (nth 0 (b0 :: b1 :: rest) x00) mod 2 ^ 16 * 100 / 255) mod 2 ^ 8 <= 255).
      { pose proof (Z.mod_pos_bound (byte_val (nth 0 (b0 :: b1 :: rest) x00) mod 2 ^ 16 * 100 / 255) (2 ^ 8) eq_refl). lia. }
      auto with inv_db. }
    unfold value_at.
    repeat match goal with
      | |- context [byte_val ?b] =>
          lazymatch goal with
          | _ : 0 <= byte_val b <= 255 |- _ => fail
          | _ => pose proof (byte_val_range b)
          end
      end.
    destruct (_ =? 161).
    { destruct (3 <=? _); [|exact Hg]. cbn [fst].
      rewrite clamp_start_hz, clamp_end_hz.
      assert (K : forall x, 1 <= clamp 1 50 x <= 50) by (unfold clamp; lia).
      match goal with
      | |- state_inv (set_session_ended 0 (set_session_active 1
             (set_session_start_tick tick (set_override_active 0
                (set_end_hz ?c2 (set_start_hz ?c1 ?g0))))))
        => pose proof (K (end_hz g0)) as K2; pose proof (K (start_hz g0)) as K1;
           change c2 with (clamp 1 50 (end_hz g0)) in *;
           generalize dependent (clamp 1 50 (end_hz g0));
           generalize dependent (clamp 1 50 (start_hz g0))
      end.
      intros c1 K1 c2 K2. clear -Hg K1 K2. inv_set g. }
    destruct (_ =? 162).
    { destruct (2 <=? _); [|exact Hg]. cbn [fst]. rewrite clamp_brightness.
      apply inv_set_brightness; [lia|exact Hg]. }
    destruct (_ =? 163).
    { destruct (5 <=? _); [|exact Hg]. cbn [fst]. auto 20 with inv_db. }
    destruct (_ =? 164).
    { destruct (2 <=? _); [|exact Hg]. cbn [fst]. auto 20 with inv_db. }
    destruct (_ =? 165).
    { destruct (2 <=? _); [|exact Hg]. cbn [fst]. auto 20 with inv_db. }
    destruct (_ =? 166).
    { cbn [fst]. auto 20 with inv_db. }
    destruct (_ =? 167).
    { cbn [fst]. auto 20 with inv_db. }
    exact Hg.
Qed.

Lemma breath_duty_phase (durs : list Z) (now br : Z) (v v' : led_vars) (d : Z) :
  0 <= breath_phase v <= 3 ->
  breath_duty durs now br v = Some (v', d) ->
  0 <= breath_phase v' <= 3.
Proof.
  intros Hph. unfold breath_duty.
  destruct (phase_loop_spec durs now 4 (enter_phase_loop now v) Hph eq_refl
              ltac:(lia)) as (n & vs & E & _ & _ & _ & _ & Hr & _).
  rewrite E. destruct (final_duty _ br); [|discriminate].
  intros [= <- _]. exact Hr.
Qed.

Lemma led_task_iter_inv (p now : Z) (g g' : globals) (v v' : led_vars)
    (evs : list event) :
  state_inv g -> 0 <= breath_phase v <= 3 ->
  led_task_iter p now g v = Some (v', g', evs) ->
  state_inv g' /\ 0 <= breath_phase v' <= 3.
Proof.
  intros Hg Hph H.
  assert (Hg' : state_inv g').
  { destruct (led_task_iter_globals _ _ _ _ _ _ _ H) as [->| ->];
      [exact Hg|].
    apply inv_set_session_ended; [lia|].
    apply inv_set_session_active; [lia|exact Hg]. }
  split; [exact Hg'|].
  revert H. unfold led_task_iter.
  destruct (negb (override_active g =? 0)); [intros [= <- _ _]; exact Hph|].
  destruct (session_active g =? 0); [intros [= <- _ _]; exact Hph|].
  destruct (session_duration_ticks p g <=? elapsed_ticks now g);
    [intros [= <- _ _]; exact Hph|].
  destruct (strobe_delay _ g); [|discriminate].
  destruct (breath_durations _ _ g); [|discriminate].
  destruct (breath_duty _ _ _ _) as [[v1 d]|] eqn:E; [|discriminate].
  intros [= <- _ _]. eapply breath_duty_phase; eassumption.
Qed.

(** In every reachable state the [uint8_t] statics are in range, the
    brightness is at most 100 and the breathing phase is one of the four. *)
Lemma reachable_inv (p : Z) (sys : system) :
  reachable p sys ->
  state_inv (sys_globals sys) /\ 0 <= breath_phase (sys_led sys) <= 3.
Proof.
  induction 1 as [tick tick'|sys a sys' _ [IHg IHv] Hstep].
  - split; [|cbn; lia].
    unfold state_inv, globals_ok. cbn. lia.
  - destruct Hstep as [sys ev tick|sys now v g evs Hled|sys t hall s Hpoll];
      cbn [sys_globals sys_led].
    + split; [apply gatts_state_inv; exact IHg|exact IHv].
    + eapply led_task_iter_inv; eassumption.
    + split; assumption.
Qed.

(** ** The duty never exceeds the configured brightness *)

Lemma duration_range (x p : Z) :
  0 <= x <= 255 -> 1 <= p -> 0 <= wrap32 (x * 100) / p < 2 ^ 24.
Proof.
  intros Hx Hp. unfold wrap32. rewrite Z.mod_small by lia.
  split; [apply Z.div_pos; lia|].
  apply Z.div_lt_upper_bound; [lia|].
  change (2 ^ 24) with 16777216. nia.
Qed.

Lemma breath_durations_range (p : Z) (progress : spec_float) (g : globals)
    (durs : list Z) :
  1 <= p -> globals_ok g ->
  breath_durations p progress g = Some durs ->
  forall v, 0 <= phase_duration durs v < 2 ^ 24.
Proof.
  intros Hp Hg. unfold breath_durations.
  destruct (F32.to_unsigned 8 (F32.mul (F32.of_Z (hold_in_end g)) progress))
    as [chi|] eqn:Ei; [|discriminate].
  destruct (F32.to_unsigned 8 (F32.mul (F32.of_Z (hold_out_end g)) progress))
    as [cho|] eqn:Eo; [|discriminate].
  apply to_unsigned_range in Ei; [|lia]. apply to_unsigned_range in Eo; [|lia].
  change (2 ^ 8) with 256 in *.
  intros [= <-] v. unfold phase_duration, globals_ok in *.
  destruct (Z.to_nat (breath_phase v)) as [|[|[|[|[|n]]]]]; cbn [nth];
    try (apply duration_range; lia); change (2 ^ 24) with 16777216; lia.
Qed.

(** Once the phase loop has settled on a phase of non-zero duration, the
    duty is defined and at most the brightness. *)
Lemma breath_duty_le (durs : list Z) (now br : Z) (v vs : led_vars) :
  0 <= breath_phase v <= 3 ->
  (forall u, 0 <= phase_duration durs u < 2 ^ 24) ->
  0 <= br <= 255 ->
  phase_loop 4 durs now (enter_phase_loop now v) = Some vs ->
  phase_duration durs vs <> 0 ->
  exists v' duty,
    breath_duty durs now br v = Some (v', duty) /\ 0 <= duty <= br.
Proof.
  intros Hph Hd Hbr Hloop Hnz.
  destruct (phase_loop_settled durs now v Hph) as (vs' & E & Hvs & Hel).
  rewrite Hloop in E. injection E as <-.
  pose proof (Hd vs) as Hdv. specialize (Hel ltac:(lia)).
  pose proof (breath_bp_bounds durs vs ltac:(lia) Hel) as Hbp.
  pose proof (breath_switch_bounds _ vs Hvs Hbp) as Hbb.
  destruct (final_duty_bounds _ br Hbb Hbr) as (duty & Ed & Hduty).
  unfold breath_duty. rewrite Hloop.
  cbn [set_breath_brightness breath_brightness]. rewrite Ed.
  eexists _, duty. split; [reflexivity|exact Hduty].
Qed.

(** What an iteration that returns writes to the actuator. *)
Lemma led_task_iter_events (p now : Z) (g g' : globals) (v v' : led_vars)
    (evs : list event) :
  1 <= p -> globals_ok g -> 0 <= breath_phase v <= 3 ->
  led_task_iter p now g v = Some (v', g', evs) ->
  (forall durs vs,
     breath_durations p (session_progress p now g) g = Some durs ->
     phase_loop 4 durs now (enter_phase_loop now v) = Some vs ->
     phase_duration durs vs <> 0) ->
  forall raw, In (ledc_duty raw) evs ->
    exists duty, raw = pwm1_raw duty /\ 0 <= duty <= brightness g.
Proof.
  intros Hp Hok Hph Hiter Hsettled.
  assert (Hbr : 0 <= brightness g <= 255) by (unfold globals_ok in Hok; lia).
  revert Hiter. unfold led_task_iter.
  destruct (negb (override_active g =? 0)).
  { intros [= _ _ <-] raw [H|[]]. discriminate H. }
  destruct (session_active g =? 0).
  { intros [= _ _ <-] raw [H|[]]. discriminate H. }
  destruct (session_duration_ticks p g <=? elapsed_ticks now g).
  { intros [= _ _ <-] raw [H|[]]. injection H as <-.
    exists 0. split; [reflexivity|lia]. }
  destruct (strobe_delay _ g) as [sd|]; [|discriminate].
  destruct (breath_durations p _ g) as [durs|] eqn:Ed; [|discriminate].
  pose proof (breath_durations_range p _ g durs Hp Hok Ed) as Hrange.
  destruct (phase_loop_settled durs now v Hph) as (vs & El & _).
  pose proof (Hsettled durs vs eq_refl El) as Hnz.
  destruct (breath_duty_le durs now (brightness g) v vs Hph Hrange Hbr El Hnz)
    as (v1 & duty & E & Hduty).
  rewrite E. intros [= _ _ <-] raw Hin.
  cbn [pwm1_setduty app In] in Hin.
  destruct Hin as [H|[H|[H|[H|[]]]]]; try discriminate H; injection H as <-.
  - exists duty. split; [reflexivity|exact Hduty].
  - exists 0. split; [reflexivity|lia].
Qed.

(** ** The iteration is defined *)

Lemma session_duration_range (p : Z) (g : globals) :
  1 <= p -> globals_ok g -> 0 <= session_duration_ticks p g < 2 ^ 24.
Proof.
  intros Hp Hok. unfold session_duration_ticks, wrap32, globals_ok in *.
  assert (0 <= session_minutes g * 60 * 1000 / p <= 15300000).
  { split; [apply Z.div_pos; lia|].
    apply Z.div_le_upper_bound; [lia|]. nia. }
  rewrite Z.mod_small by lia. change (2 ^ 24) with 16777216. lia.
Qed.

Lemma session_progress_bounds (p now : Z) (g : globals) :
  1 <= p -> globals_ok g ->
  elapsed_ticks now g < session_duration_ticks p g ->
  bounds 0 1 (session_progress p now g).
Proof.
  intros Hp Hok Hlt. unfold session_progress.
  pose proof (session_duration_range p g Hp Hok) as HD.
  assert (HE : 0 <= elapsed_ticks now g).
  { unfold elapsed_ticks, wrap32. apply Z.mod_pos_bound. reflexivity. }
  assert (H1 : bounds 0 1 (F32.of_Z 1)).
  { apply (bounds_weaken 1 1); [apply of_Z_bounds|..]; lia. }
  destruct (F32.gt _ _); [exact H1|].
  apply (div_bounds (elapsed_ticks now g) (session_duration_ticks p g)
           (session_duration_ticks p g) 1); try lia.
  - apply (bounds_weaken (elapsed_ticks now g) (elapsed_ticks now g));
      [apply of_Z_bounds|..]; lia.
  - apply of_Z_bounds. lia.
Qed.

Lemma breath_durations_defined (p : Z) (progress : spec_float) (g : globals) :
  bounds 0 1 progress -> globals_ok g ->
  exists durs, breath_durations p progress g = Some durs.
Proof.
  intros Hpr Hok. unfold breath_durations, globals_ok in *.
  assert (P24 : 2 ^ 24 = 16777216) by reflexivity.
  assert (P8 : 2 ^ 8 = 256) by reflexivity.
  destruct (to_unsigned_bounds 8 (hold_in_end g)
              (F32.mul (F32.of_Z (hold_in_end g)) progress))
    as (chi & -> & _); [|lia|].
  { apply (bounds_weaken (hold_in_end g * 0) (hold_in_end g * 1)); [|lia|lia].
    apply mul_bounds; try assumption; try lia. apply of_Z_bounds. lia. }
  destruct (to_unsigned_bounds 8 (hold_out_end g)
              (F32.mul (F32.of_Z (hold_out_end g)) progress))
    as (cho & -> & _); [|lia|].
  { apply (bounds_weaken (hold_out_end g * 0) (hold_out_end g * 1)); [|lia|lia].
    apply mul_bounds; try assumption; try lia. apply of_Z_bounds. lia. }
  eexists. reflexivity.
Qed.

(** The strobe frequency stays between [start_hz] and [end_hz], hence in
    [1,50], and the strobe delay is at most 500 ms. *)
Lemma strobe_delay_defined (progress : spec_float) (g : globals) :
  bounds 0 1 progress ->
  1 <= start_hz g <= 50 -> 1 <= end_hz g <= 50 ->
  exists sd, strobe_delay progress g = Some sd /\ 0 <= sd <= 500.
Proof.
  intros Hpr Hs He. unfold strobe_delay.
  assert (P24 : 2 ^ 24 = 16777216) by reflexivity.
  assert (P32 : 2 ^ 32 = 4294967296) by reflexivity.
  assert (Hs0 : bounds (start_hz g) (start_hz g) (F32.of_Z (start_hz g)))
    by (apply of_Z_bounds; lia).
  assert (Hhz : bounds 1 50
                  (F32.add (F32.of_Z (start_hz g))
                     (F32.mul (F32.of_Z (end_hz g - start_hz g)) progress))).
  { destruct (Z.le_gt_cases (start_hz g) (end_hz g)) as [Hle|Hgt].
    - apply (bounds_weaken (start_hz g + (end_hz g - start_hz g) * 0)
               (start_hz g + (end_hz g - start_hz g) * 1)); [|lia|lia].
      apply add_bounds; try assumption; try lia.
      apply mul_bounds; try assumption; try lia.
      apply of_Z_bounds. lia.
    - apply (bounds_weaken (start_hz g - (- (end_hz g - start_hz g)) * 1)
               (start_hz g - (- (end_hz g - start_hz g)) * 0)); [|lia|lia].
      apply add_neg_bounds; try assumption; try lia.
      apply mul_neg_bounds; try assumption; try lia.
      apply of_Z_neg_bounds. lia. }
  assert (H1 : bounds 1 50 (F32.of_Z 1)).
  { apply (bounds_weaken 1 1); [apply of_Z_bounds|..]; lia. }
  apply to_unsigned_bounds; [|lia].
  apply (div_bounds 500 1 50 500); try lia.
  - apply (bounds_weaken 500 500); [apply of_Z_bounds|..]; lia.
  - destruct (F32.lt _ _); assumption.
Qed.

Lemma led_task_iter_defined (p now : Z) (g : globals) (v : led_vars) :
  1 <= p -> state_inv g -> 0 <= breath_phase v <= 3 ->
  (forall durs vs,
     breath_durations p (session_progress p now g) g = Some durs ->
     phase_loop 4 durs now (enter_phase_loop now v) = Some vs ->
     phase_duration durs vs <> 0) ->
  exists v' g' evs, led_task_iter p now g v = Some (v', g', evs).
Proof.
  intros Hp (Hok & _ & Hs & He) Hph Hsettled. unfold led_task_iter.
  destruct (negb (override_active g =? 0)); [eexists _, _, _; reflexivity|].
  destruct (session_active g =? 0); [eexists _, _, _; reflexivity|].
  destruct (Z.leb_spec (session_duration_ticks p g) (elapsed_ticks now g))
    as [|Hlt]; [eexists _, _, _; reflexivity|].
  pose proof (session_progress_bounds p now g Hp Hok Hlt) as Hpr.
  destruct (strobe_delay_defined _ g Hpr Hs He) as (sd & -> & _).
  destruct (breath_durations_defined p _ g Hpr Hok) as (durs & Ed).
  rewrite Ed.
  pose proof (breath_durations_range p _ g durs Hp Hok Ed) as Hrange.
  destruct (phase_loop_settled durs now v Hph) as (vs & El & _).
  assert (Hbr : 0 <= brightness g <= 255) by (unfold globals_ok in Hok; lia).
  destruct (breath_duty_le durs now (brightness g) v vs Hph Hrange Hbr El
              (Hsettled durs vs Ed El)) as (v1 & duty & -> & _).
  eexists _, _, _. reflexivity.
Qed.

(** C10: every iteration of the modulation loop that starts in a
    reachable state and whose settled breathing phase has a non-zero
    duration is defined, and every duty it writes to the actuator (the dark
    interval's [trunc (breath_brightness * brightness / 100)], computed in
    binary32, and the 0 of the clear interval or of session completion) is
    the remap of a duty between 0 and the configured brightness, which
    itself is at most 100. *)
Theorem duty_le_brightness (p now : Z) (sys : system)
    (Hp : 1 <= p)
    (Hreach : reachable p sys)
    (Hsettled : forall durs vs,
        breath_durations p (session_progress p now (sys_globals sys))
          (sys_globals sys) = Some durs ->
        phase_loop 4 durs now (enter_phase_loop now (sys_led sys)) = Some vs ->
        phase_duration durs vs <> 0) :
  brightness (sys_globals sys) <= 100
  /\ exists v' g' evs,
       led_task_iter p now (sys_globals sys) (sys_led sys) = Some (v', g', evs)
       /\ forall raw, In (ledc_duty raw) evs ->
            exists duty, raw = pwm1_raw duty
                         /\ 0 <= duty <= brightness (sys_globals sys).
Proof.
  destruct (reachable_inv p sys Hreach) as [Hinv Hph].
  split; [apply Hinv|].
  destruct (led_task_iter_defined p now _ _ Hp Hinv Hph Hsettled)
    as (v' & g' & evs & E).
  exists v', g', evs. split; [exact E|].
  eapply led_task_iter_events; try eassumption. apply Hinv.
Qed.

Lemma duty_le_brightness_witness :
  exists duty, 556 = pwm1_raw duty /\ 0 <= duty <= 100.
Proof.
  destruct (duty_le_brightness 1 1000 (app_main 0 0)) as (_ & v' & g' & evs & E & H).
  - lia.
  - apply reach_boot.
  - intros durs vs Hd Hl. vm_compute in Hd. injection Hd as <-.
    vm_compute in Hl. injection Hl as <-. vm_compute. discriminate.
  - vm_compute in E. injection E as _ _ <-.
    apply (H 556). left. reflexivity.
Defined.

(** * Further properties *)

(** ** The other commands *)

(** Evaluates the handler on a payload of at least two bytes up to the
    command switch. *)
Ltac enter_switch b0 b1 rest :=
  cbn [gatts_profile_event_handler]; unfold gatts_write_evt;
  change (value_at (b0 :: b1 :: rest) 0) with (byte_val b0);
  change (value_at (b0 :: b1 :: rest) 1) with (byte_val b1);
  let Hlen := fresh "Hlen" in
  pose proof (length_cons2 b0 b1 rest) as Hlen;
  let len := fresh "len" in
  set (len := Z.of_nat (length (b0 :: b1 :: rest))) in *;
  destruct (Z.ltb_spec 0 len); [|lia];
  destruct (Z.eqb_spec len 1); [lia|].

Lemma clamp_session_minutes (g : globals) :
  (if 60 <? session_minutes
              (if session_minutes g <? 1 then set_session_minutes 1 g else g)
   then set_session_minutes 60
          (if session_minutes g <? 1 then set_session_minutes 1 g else g)
   else if session_minutes g <? 1 then set_session_minutes 1 g else g)
  = set_session_minutes (clamp 1 60 (session_minutes g)) g.
Proof.
  destruct g as [br sh eh it et hi ho sm st sa se oa od].
  cbn [session_minutes]. unfold clamp.
  destruct (Z.ltb_spec sm 1).
  - unfold set_session_minutes; cbn -[Z.max Z.min]. f_equal. lia.
  - cbn [session_minutes]. destruct (Z.ltb_spec 60 sm);
      unfold set_session_minutes; cbn -[Z.max Z.min]; f_equal; lia.
Qed.

Lemma clamp_override_duty (v : Z) (g : globals) :
  (if 100 <? override_duty (set_override_duty v g)
   then set_override_duty 100 (set_override_duty v g)
   else set_override_duty v g)
  = set_override_duty (Z.min 100 v) g.
Proof.
  destruct g as [br sh eh it et hi ho sm st sa se oa od].
  cbn [override_duty set_override_duty].
  destruct (Z.ltb_spec 100 v); unfold set_override_duty;
    cbn -[Z.min]; f_equal; lia.
Qed.


Lemma gatts_a1 (need_rsp : bool) (b1 b2 : byte) (rest : list byte)
    (tick : Z) (g : globals) :
  gatts_profile_event_handler
    (ESP_GATTS_WRITE_EVT need_rsp (xa1 :: b1 :: b2 :: rest)) tick g
  = (restarted tick
       (set_end_hz (clamp 1 50 (byte_val b2))
          (set_start_hz (clamp 1 50 (byte_val b1)) g)),
     ack need_rsp).
Proof.
  cbn [gatts_profile_event_handler]. unfold gatts_write_evt.
  cbn [value_at nth]. change (byte_val xa1) with 161.
  pose proof (length_cons3 xa1 b1 b2 rest) as Hlen.
  set (len := Z.of_nat (length (xa1 :: b1 :: b2 :: rest))) in *.
  destruct (Z.ltb_spec 0 len); [|lia].
  destruct (Z.eqb_spec len 1); [lia|].
  cbn [Z.eqb Pos.eqb]. destruct (Z.leb_spec 3 len); [|lia].
  rewrite clamp_start_hz, clamp_end_hz. destruct g. reflexivity.
Qed.

Lemma gatts_a2 (need_rsp : bool) (b : byte) (rest : list byte)
    (tick : Z) (g : globals) :
  gatts_profile_event_handler
    (ESP_GATTS_WRITE_EVT need_rsp (xa2 :: b :: rest)) tick g
  = (set_brightness (Z.min 100 (byte_val b)) g, ack need_rsp).
Proof.
  enter_switch xa2 b rest. change (byte_val xa2) with 162.
  cbn [Z.eqb Pos.eqb]. destruct (Z.leb_spec 2 len); [|lia].
  rewrite clamp_brightness. reflexivity.
Qed.

Lemma gatts_a3 (need_rsp : bool) (b1 b2 b3 b4 : byte)
    (rest : list byte) (tick : Z) (g : globals) :
  gatts_profile_event_handler
    (ESP_GATTS_WRITE_EVT need_rsp (xa3 :: b1 :: b2 :: b3 :: b4 :: rest)) tick g
  = (restarted tick
       (set_hold_out_end (byte_val b4)
          (set_exhale_time (byte_val b3)
             (set_hold_in_end (byte_val b2)
                (set_inhale_time (byte_val b1) g)))),
     ack need_rsp).
Proof.
  cbn [gatts_profile_event_handler]. unfold gatts_write_evt.
  cbn [value_at nth]. change (byte_val xa3) with 163.
  assert (Hlen : 5 <= Z.of_nat (length (xa3 :: b1 :: b2 :: b3 :: b4 :: rest)))
    by (cbn [length]; lia).
  set (len := Z.of_nat (length (xa3 :: b1 :: b2 :: b3 :: b4 :: rest))) in *.
  destruct (Z.ltb_spec 0 len); [|lia].
  destruct (Z.eqb_spec len 1); [lia|].
  cbn [Z.eqb Pos.eqb]. destruct (Z.leb_spec 5 len); [|lia].
  destruct g. reflexivity.
Qed.

Lemma gatts_a4 (need_rsp : bool) (b : byte) (rest : list byte)
    (tick : Z) (g : globals) :
  gatts_profile_event_handler
    (ESP_GATTS_WRITE_EVT need_rsp (xa4 :: b :: rest)) tick g
  = (restarted tick (set_session_minutes (clamp 1 60 (byte_val b)) g),
     ack need_rsp).
Proof.
  enter_switch xa4 b rest. change (byte_val xa4) with 164.
  cbn [Z.eqb Pos.eqb]. destruct (Z.leb_spec 2 len); [|lia].
  rewrite clamp_session_minutes. destruct g. reflexivity.
Qed.

Lemma gatts_a5 (need_rsp : bool) (b : byte) (rest : list byte)
    (tick : Z) (g : globals) :
  gatts_profile_event_handler
    (ESP_GATTS_WRITE_EVT need_rsp (xa5 :: b :: rest)) tick g
  = (set_session_active 0
       (set_override_active 1
          (set_override_duty (Z.min 100 (byte_val b)) g)),
     ack need_rsp ++ [ledc_duty (pwm1_raw (Z.min 100 (byte_val b)))]).
Proof.
  enter_switch xa5 b rest. change (byte_val xa5) with 165.
  cbn [Z.eqb Pos.eqb]. destruct (Z.leb_spec 2 len); [|lia].
  rewrite clamp_override_duty. destruct g. reflexivity.
Qed.

Lemma gatts_a6 (need_rsp : bool) (b : byte) (rest : list byte)
    (tick : Z) (g : globals) :
  gatts_profile_event_handler
    (ESP_GATTS_WRITE_EVT need_rsp (xa6 :: b :: rest)) tick g
  = (restarted tick g, ack need_rsp).
Proof.
  enter_switch xa6 b rest. change (byte_val xa6) with 166.
  cbn [Z.eqb Pos.eqb]. destruct g. reflexivity.
Qed.

Lemma gatts_a7 (need_rsp : bool) (b : byte) (rest : list byte)
    (tick : Z) (g : globals) :
  gatts_profile_event_handler
    (ESP_GATTS_WRITE_EVT need_rsp (xa7 :: b :: rest)) tick g
  = (set_session_ended 1 g, ack need_rsp).
Proof.
  enter_switch xa7 b rest. change (byte_val xa7) with 167.
  cbn [Z.eqb Pos.eqb]. reflexivity.
Qed.

(** A payload of at least two bytes whose first byte is none of the seven
    commands changes nothing. *)
Lemma gatts_unknown (need_rsp : bool) (b0 b1 : byte) (rest : list byte)
    (tick : Z) (g : globals) :
  byte_val b0 < 161 \/ 167 < byte_val b0 ->
  gatts_profile_event_handler
    (ESP_GATTS_WRITE_EVT need_rsp (b0 :: b1 :: rest)) tick g
  = (g, ack need_rsp).
Proof.
  intros Hb. enter_switch b0 b1 rest.
  destruct (Z.eqb_spec (byte_val b0) 161); [lia|].
  destruct (Z.eqb_spec (byte_val b0) 162); [lia|].
  destruct (Z.eqb_spec (byte_val b0) 163); [lia|].
  destruct (Z.eqb_spec (byte_val b0) 164); [lia|].
  destruct (Z.eqb_spec (byte_val b0) 165); [lia|].
  destruct (Z.eqb_spec (byte_val b0) 166); [lia|].
  destruct (Z.eqb_spec (byte_val b0) 167); [lia|].
  reflexivity.
Qed.

(** A strobe command of two bytes and a breathing command of two to four
    bytes are too short: nothing changes. *)
Lemma gatts_a1_short (need_rsp : bool) (b : byte) (tick : Z) (g : globals) :
  gatts_profile_event_handler (ESP_GATTS_WRITE_EVT need_rsp [xa1; b]) tick g
  = (g, ack need_rsp).
Proof. reflexivity. Qed.

Lemma gatts_a3_short (need_rsp : bool) (b : byte) (rest : list byte)
    (tick : Z) (g : globals) :
  (length rest < 3)%nat ->
  gatts_profile_event_handler
    (ESP_GATTS_WRITE_EVT need_rsp (xa3 :: b :: rest)) tick g
  = (g, ack need_rsp).
Proof.
  intros Hr. enter_switch xa3 b rest. change (byte_val xa3) with 163.
  cbn [Z.eqb Pos.eqb].
  destruct (Z.leb_spec 5 len); [|reflexivity].
  unfold len in *. cbn [length] in *. lia.
Qed.

(** Every write is its acknowledgement followed by one of the effects. *)
Lemma gatts_write_cases (need_rsp : bool) (value : list byte) (tick : Z)
    (g : globals) :
  exists g' tail,
    gatts_profile_event_handler (ESP_GATTS_WRITE_EVT need_rsp value) tick g
    = (g', ack need_rsp ++ tail)
    /\ write_effect tick g g' tail.
Proof.
  destruct value as [|b0 [|b1 rest]].
  - exists g, []. split; [rewrite app_nil_r; reflexivity|constructor].
  - eexists _, _. split; [apply gatts_write_single|constructor].
  - destruct (Z.eqb_spec (byte_val b0) 161) as [E|].
    { change 161 with (byte_val xa1) in E. apply byte_val_inj in E. subst b0.
      destruct rest as [|b2 rest].
      - exists g, []. split; [rewrite app_nil_r; apply gatts_a1_short|constructor].
      - eexists _, []. split; [rewrite app_nil_r; apply gatts_a1|constructor]. }
    destruct (Z.eqb_spec (byte_val b0) 162) as [E|].
    { change 162 with (byte_val xa2) in E. apply byte_val_inj in E. subst b0.
      eexists _, []. split; [rewrite app_nil_r; apply gatts_a2|constructor]. }
    destruct (Z.eqb_spec (byte_val b0) 163) as [E|].
    { change 163 with (byte_val xa3) in E. apply byte_val_inj in E. subst b0.
      destruct rest as [|b2 [|b3 [|b4 rest]]];
        try (exists g, []; split;
             [rewrite app_nil_r; apply gatts_a3_short; cbn [length]; lia
             |constructor]).
      eexists _, []. split; [rewrite app_nil_r; apply gatts_a3|constructor]. }
    destruct (Z.eqb_spec (byte_val b0) 164) as [E|].
    { change 164 with (byte_val xa4) in E. apply byte_val_inj in E. subst b0.
      eexists _, []. split; [rewrite app_nil_r; apply gatts_a4|constructor]. }
    destruct (Z.eqb_spec (byte_val b0) 165) as [E|].
    { change 165 with (byte_val xa5) in E. apply byte_val_inj in E. subst b0.
      eexists _, _. split; [apply gatts_a5|constructor]. }
    destruct (Z.eqb_spec (byte_val b0) 166) as [E|].
    { change 166 with (byte_val xa6) in E. apply byte_val_inj in E. subst b0.
      eexists _, []. split; [rewrite app_nil_r; apply gatts_a6|constructor]. }
    destruct (Z.eqb_spec (byte_val b0) 167) as [E|].
    { change 167 with (byte_val xa7) in E. apply byte_val_inj in E. subst b0.
      eexists _, []. split; [rewrite app_nil_r; apply gatts_a7|constructor]. }
    exists g, []. split; [rewrite app_nil_r; apply gatts_unknown; lia|constructor].
Qed.

(** X1: a brightness command (first byte 0xA2, at least two bytes) stores
    the smaller of 100 and its second byte as the brightness; the only
    call is the acknowledgement, and the session flags, the override flag
    and the session start are left as they were. *)
Theorem brightness_command (need_rsp : bool) (b : byte) (rest : list byte)
    (tick : Z) (g : globals) :
  let r := gatts_profile_event_handler
             (ESP_GATTS_WRITE_EVT need_rsp (xa2 :: b :: rest)) tick g in
  r = (set_brightness (Z.min 100 (byte_val b)) g, ack need_rsp)
  /\ 0 <= brightness (fst r) <= 100
  /\ session_active (fst r) = session_active g
  /\ session_ended (fst r) = session_ended g
  /\ override_active (fst r) = override_active g
  /\ session_start_tick (fst r) = session_start_tick g.
Proof.
  cbv zeta. rewrite gatts_a2. cbn [fst].
  pose proof (byte_val_range b).
  repeat split; try reflexivity; cbn [set_brightness brightness]; lia.
Qed.

(** X2: a breathing command (first byte 0xA3, at least five bytes) stores
    its four bytes, unclamped, as the inhale, hold-in, exhale and hold-out
    times and restarts the session at the current tick with the override
    off. *)
Theorem breathing_command (need_rsp : bool) (b1 b2 b3 b4 : byte)
    (rest : list byte) (tick : Z) (g : globals) :
  let r := gatts_profile_event_handler
             (ESP_GATTS_WRITE_EVT need_rsp (xa3 :: b1 :: b2 :: b3 :: b4 :: rest))
             tick g in
  r = (restarted tick
         (set_hold_out_end (byte_val b4)
            (set_exhale_time (byte_val b3)
               (set_hold_in_end (byte_val b2)
                  (set_inhale_time (byte_val b1) g)))),
       ack need_rsp)
  /\ inhale_time (fst r) = byte_val b1 /\ hold_in_end (fst r) = byte_val b2
  /\ exhale_time (fst r) = byte_val b3 /\ hold_out_end (fst r) = byte_val b4
  /\ session_active (fst r) = 1 /\ session_ended (fst r) = 0
  /\ override_active (fst r) = 0 /\ session_start_tick (fst r) = tick.
Proof.
  cbv zeta. rewrite gatts_a3. cbn [fst]. repeat split; reflexivity.
Qed.

(** X3: a session-length command (first byte 0xA4, at least two bytes)
    stores its second byte clamped to 1..60 (a byte in that range is kept)
    and restarts the session at the current tick with the override off. *)
Theorem session_minutes_command (need_rsp : bool) (b : byte)
    (rest : list byte) (tick : Z) (g : globals) :
  let r := gatts_profile_event_handler
             (ESP_GATTS_WRITE_EVT need_rsp (xa4 :: b :: rest)) tick g in
  r = (restarted tick (set_session_minutes (clamp 1 60 (byte_val b)) g),
       ack need_rsp)
  /\ 1 <= session_minutes (fst r) <= 60
  /\ (1 <= byte_val b <= 60 -> session_minutes (fst r) = byte_val b)
  /\ session_active (fst r) = 1 /\ session_ended (fst r) = 0
  /\ override_active (fst r) = 0 /\ session_start_tick (fst r) = tick.
Proof.
  cbv zeta. rewrite gatts_a4. cbn [fst].
  repeat split; try reflexivity;
    cbn [restarted set_session_minutes session_minutes]; unfold clamp; lia.
Qed.

(** X4: an override command (first byte 0xA5, at least two bytes) stores
    the smaller of 100 and its second byte as the override duty, turns the
    override on and the session off, and drives the actuator with that
    duty after the acknowledgement; [session_ended] and the session start
    are left as they were. *)
Theorem override_command (need_rsp : bool) (b : byte) (rest : list byte)
    (tick : Z) (g : globals) :
  let r := gatts_profile_event_handler
             (ESP_GATTS_WRITE_EVT need_rsp (xa5 :: b :: rest)) tick g in
  r = (set_session_active 0
         (set_override_active 1
            (set_override_duty (Z.min 100 (byte_val b)) g)),
       ack need_rsp ++ pwm1_setduty (Z.min 100 (byte_val b)))
  /\ 0 <= override_duty (fst r) <= 100
  /\ override_active (fst r) = 1 /\ session_active (fst r) = 0
  /\ session_ended (fst r) = session_ended g
  /\ session_start_tick (fst r) = session_start_tick g.
Proof.
  cbv zeta. rewrite gatts_a5. cbn [fst].
  pose proof (byte_val_range b).
  repeat split; try reflexivity;
    cbn [set_session_active set_override_active set_override_duty override_duty];
    lia.
Qed.

(** X5: the writes that change nothing and call nothing but the
    acknowledgement: the empty write, a strobe command of two bytes, a
    breathing command of fewer than five bytes, and every write of two or
    more bytes whose first byte is outside 0xA1..0xA7. *)
Theorem ignored_writes (need_rsp : bool) (tick : Z) (g : globals) :
  gatts_profile_event_handler (ESP_GATTS_WRITE_EVT need_rsp []) tick g
  = (g, ack need_rsp)
  /\ (forall b,
        gatts_profile_event_handler (ESP_GATTS_WRITE_EVT need_rsp [xa1; b]) tick g
        = (g, ack need_rsp))
  /\ (forall b rest,
        (length rest < 3)%nat ->
        gatts_profile_event_handler
          (ESP_GATTS_WRITE_EVT need_rsp (xa3 :: b :: rest)) tick g
        = (g, ack need_rsp))
  /\ (forall b0 b1 rest,
        byte_val b0 < 0xA1 \/ 0xA7 < byte_val b0 ->
        gatts_profile_event_handler
          (ESP_GATTS_WRITE_EVT need_rsp (b0 :: b1 :: rest)) tick g
        = (g, ack need_rsp)).
Proof.
  split; [reflexivity|]. split; [intros; apply gatts_a1_short|].
  split; [intros; apply gatts_a3_short; assumption|].
  intros; apply gatts_unknown; assumption.
Qed.

Lemma ignored_writes_witness :
  gatts_profile_event_handler (ESP_GATTS_WRITE_EVT true [x42; x07]) 0
    static_init
  = (static_init, ack true).
Proof.
  apply (proj2 (proj2 (proj2 (ignored_writes true 0 static_init)))).
  left. vm_compute. reflexivity.
Defined.

Lemma pwm1_raw_range (duty : Z) :
  0 <= duty <= 100 ->
  pwm1_raw duty = 0 \/ 400 <= pwm1_raw duty <= 1024.
Proof.
  intros H. unfold pwm1_raw, PWM_MIN_VISIBLE, PWM_MAX, wrap32.
  destruct (Z.eqb_spec duty 0); [now left|right].
  change (1024 - 400) with 624.
  rewrite (Z.mod_small (624 * duty)) by lia.
  assert (0 <= 624 * duty / 100 <= 624).
  { split; [apply Z.div_pos; lia|apply Z.div_le_upper_bound; lia]. }
  rewrite Z.mod_small by lia. lia.
Qed.

Lemma legacy_duty_range (b : byte) : 0 <= byte_val b * 100 / 255 <= 100.
Proof.
  pose proof (byte_val_range b).
  split; [apply Z.div_pos; lia|apply Z.div_le_upper_bound; lia].
Qed.

(** X6: whatever is written, the handler's calls are the acknowledgement
    (when one is requested) followed by at most one actuator update; an
    update is made only while the override is being switched on and the
    session off, with the stored override duty, which is at most 100, so
    the raw value is 0 or within 400..1024. *)
Theorem write_acknowledged_first (need_rsp : bool) (value : list byte)
    (tick : Z) (g : globals) :
  let r := gatts_profile_event_handler (ESP_GATTS_WRITE_EVT need_rsp value) tick g in
  snd r = ack need_rsp
  \/ exists duty,
       snd r = ack need_rsp ++ [ledc_duty (pwm1_raw duty)]
       /\ 0 <= duty <= 100
       /\ (pwm1_raw duty = 0 \/ 400 <= pwm1_raw duty <= 1024)
       /\ override_active (fst r) = 1
       /\ override_duty (fst r) = duty
       /\ session_active (fst r) = 0.
Proof.
  cbv zeta.
  destruct (gatts_write_cases need_rsp value tick g) as (g' & tail & -> & Heff).
  cbn [fst snd].
  destruct Heff; try (left; apply app_nil_r).
  - right. exists (byte_val b * 100 / 255).
    pose proof (legacy_duty_range b) as Hr.
    split; [reflexivity|]. split; [exact Hr|].
    split; [apply pwm1_raw_range; exact Hr|]. repeat split; reflexivity.
  - right. exists (Z.min 100 (byte_val b)).
    pose proof (byte_val_range b).
    assert (Hr : 0 <= Z.min 100 (byte_val b) <= 100) by lia.
    split; [reflexivity|]. split; [exact Hr|].
    split; [apply pwm1_raw_range; exact Hr|]. repeat split; reflexivity.
Qed.

(** X7: an override command followed by a resume command (0xA6) leaves
    the device in a restarted session (override off, session active, not
    ended, start at the tick of the resume); the override duty stays
    stored. *)
Theorem override_then_resume (need_rsp need_rsp' : bool) (b b' : byte)
    (rest rest' : list byte) (tick tick' : Z) (g : globals) :
  let g1 := fst (gatts_profile_event_handler
                   (ESP_GATTS_WRITE_EVT need_rsp (xa5 :: b :: rest)) tick g) in
  let r := gatts_profile_event_handler
             (ESP_GATTS_WRITE_EVT need_rsp' (xa6 :: b' :: rest')) tick' g1 in
  r = (restarted tick' (set_override_duty (Z.min 100 (byte_val b)) g),
       ack need_rsp')
  /\ override_active (fst r) = 0 /\ session_active (fst r) = 1
  /\ session_ended (fst r) = 0 /\ session_start_tick (fst r) = tick'.
Proof.
  cbv zeta. rewrite gatts_a5, gatts_a6. cbn [fst].
  repeat split; reflexivity.
Qed.

(** ** Invariants of the running device *)

Ltac fields g :=
  destruct g as [br sh eh it et hi ho sm st sa se oa od];
  cbn [brightness start_hz end_hz inhale_time exhale_time hold_in_end
       hold_out_end session_minutes session_start_tick session_active
       session_ended override_active override_duty restarted
       set_brightness set_start_hz set_end_hz set_inhale_time
       set_exhale_time set_hold_in_end set_hold_out_end
       set_session_minutes set_session_start_tick set_session_active
       set_session_ended set_override_active set_override_duty] in *.

Lemma write_effect_config_ok (tick : Z) (g g' : globals) (tail : list event) :
  write_effect tick g g' tail -> config_ok g -> config_ok g'.
Proof.
  intros Heff Hg.
  destruct Heff;
    repeat match goal with
      | b : byte |- _ => pose proof (byte_val_range b); generalize dependent (byte_val b); clear b; intros
      end;
    unfold config_ok, clamp in *; try assumption.
  - assert (0 <= z * 100 / 255 <= 100)
      by (split; [apply Z.div_pos; lia|apply Z.div_le_upper_bound; lia]).
    fields g. lia.
  - fields g. lia.
  - fields g. lia.
  - fields g. lia.
  - fields g. lia.
  - fields g. lia.
  - fields g. lia.
  - fields g. lia.
Qed.

Lemma write_effect_modes (tick : Z) (g g' : globals) (tail : list event) :
  write_effect tick g g' tail -> modes_exclusive g -> modes_exclusive g'.
Proof.
  unfold modes_exclusive. intros Heff Hg.
  destruct Heff; try assumption; fields g; lia.
Qed.

Lemma led_task_iter_config_ok (p now : Z) (g g' : globals) (v v' : led_vars)
    (evs : list event) :
  led_task_iter p now g v = Some (v', g', evs) ->
  (config_ok g -> config_ok g') /\ (modes_exclusive g -> modes_exclusive g').
Proof.
  intros H.
  destruct (led_task_iter_globals _ _ _ _ _ _ _ H) as [->| ->];
    [tauto|].
  unfold config_ok, modes_exclusive. fields g. split; lia.
Qed.


(** X8: in every state the running device can reach, the configuration is
    within its ranges: brightness and override duty at most 100, both
    strobe frequencies in 1..50, the session length in 1..60 minutes, the
    breathing times within a byte and the three flags 0 or 1. *)
Theorem reachable_config_ok (p : Z) (sys : system) (H : reachable p sys) :
  config_ok (sys_globals sys).
Proof.
  induction H as [tick tick'|sys a sys' _ IH Hstep].
  - unfold config_ok. cbn. lia.
  - destruct Hstep as [sys ev tick|sys now v g evs Hled|sys t hall s Hpoll];
      cbn [sys_globals].
    + destruct ev as [| |need_rsp value| |]; try exact IH.
      destruct (gatts_write_cases need_rsp value tick (sys_globals sys))
        as (g' & tail & -> & Heff).
      exact (write_effect_config_ok _ _ _ _ Heff IH).
    + exact (proj1 (led_task_iter_config_ok _ _ _ _ _ _ _ Hled) IH).
    + exact IH.
Qed.

Lemma reachable_config_ok_witness :
  config_ok
    (fst (gatts_profile_event_handler
            (ESP_GATTS_WRITE_EVT true [xa4; xff]) 7 (sys_globals (app_main 0 0)))).
Proof.
  apply (reachable_config_ok 1
           (mkSystem _ (sys_led (app_main 0 0)) (sys_sleep (app_main 0 0)))).
  apply (reach_step 1 (app_main 0 0) (Gatts (ESP_GATTS_WRITE_EVT true [xa4; xff]) 7)).
  - apply reach_boot.
  - apply (step_gatts 1 (app_main 0 0) (ESP_GATTS_WRITE_EVT true [xa4; xff]) 7).
Defined.

(** X9: in every state the running device can reach, the static override
    and a timed session are not both active. *)
Theorem reachable_modes_exclusive (p : Z) (sys : system) (H : reachable p sys) :
  modes_exclusive (sys_globals sys).
Proof.
  induction H as [tick tick'|sys a sys' _ IH Hstep].
  - unfold modes_exclusive. cbn. lia.
  - destruct Hstep as [sys ev tick|sys now v g evs Hled|sys t hall s Hpoll];
      cbn [sys_globals].
    + destruct ev as [| |need_rsp value| |]; try exact IH.
      destruct (gatts_write_cases need_rsp value tick (sys_globals sys))
        as (g' & tail & -> & Heff).
      exact (write_effect_modes _ _ _ _ Heff IH).
    + exact (proj2 (led_task_iter_config_ok _ _ _ _ _ _ _ Hled) IH).
    + exact IH.
Qed.

Lemma reachable_modes_exclusive_witness :
  modes_exclusive
    (fst (gatts_profile_event_handler
            (ESP_GATTS_WRITE_EVT true [xa5; x32]) 7 (sys_globals (app_main 0 0)))).
Proof.
  apply (reachable_modes_exclusive 1
           (mkSystem _ (sys_led (app_main 0 0)) (sys_sleep (app_main 0 0)))).
  apply (reach_step 1 (app_main 0 0) (Gatts (ESP_GATTS_WRITE_EVT true [xa5; x32]) 7)).
  - apply reach_boot.
  - apply (step_gatts 1 (app_main 0 0) (ESP_GATTS_WRITE_EVT true [xa5; x32]) 7).
Defined.



(** ** The modulation loop outside a session *)

Lemma led_task_held (p now : Z) (g : globals) (v : led_vars) :
  override_active g <> 0 \/ session_active g = 0 ->
  led_task_iter p now g v = Some (v, g, [vTaskDelay (100 / p)]).
Proof.
  intros H. unfold led_task_iter.
  destruct (Z.eqb_spec (override_active g) 0) as [E|E]; cbn [negb];
    [|reflexivity].
  destruct H as [H|H]; [contradiction|]. rewrite H. reflexivity.
Qed.

(** X11: while the override is active or no session is running, every
    iteration of the modulation loop is a 100 ms delay and nothing else:
    the actuator is never driven and neither the statics nor the loop's
    variables change. *)
Theorem led_task_holds_off (p : Z) (g : globals)
    (H : override_active g <> 0 \/ session_active g = 0) :
  forall nows v,
    led_task_run p nows g v
    = Some (v, g, map (fun _ => vTaskDelay (100 / p)) nows).
Proof.
  intros nows. induction nows as [|now rest IH]; intros v.
  - reflexivity.
  - cbn [led_task_run map]. rewrite (led_task_held p now g v H).
    rewrite IH. reflexivity.
Qed.

Lemma led_task_holds_off_witness :
  let g := fst (gatts_profile_event_handler
                  (ESP_GATTS_WRITE_EVT true [xa5; x32]) 7
                  (sys_globals (app_main 0 0))) in
  led_task_run 1 [100; 200; 300] g (led_init 0)
  = Some (led_init 0, g, [vTaskDelay 100; vTaskDelay 100; vTaskDelay 100]).
Proof.
  cbv zeta.
  refine (led_task_holds_off 1
            (fst (gatts_profile_event_handler
                    (ESP_GATTS_WRITE_EVT true [xa5; x32]) 7
                    (sys_globals (app_main 0 0))))
            (or_introl _) [100; 200; 300] (led_init 0)).
  vm_compute. discriminate.
Defined.

(** X12: an iteration of the modulation loop never changes the
    configuration, the session start or the override; it never starts a
    session, and [session_ended] changes only on completion, when the
    elapsed ticks have reached the session's duration, to 1 with the
    session turned off. *)
Theorem led_task_iter_frame (p now : Z) (g g' : globals) (v v' : led_vars)
    (evs : list event)
    (H : led_task_iter p now g v = Some (v', g', evs)) :
  brightness g' = brightness g
  /\ start_hz g' = start_hz g /\ end_hz g' = end_hz g
  /\ inhale_time g' = inhale_time g /\ exhale_time g' = exhale_time g
  /\ hold_in_end g' = hold_in_end g /\ hold_out_end g' = hold_out_end g
  /\ session_minutes g' = session_minutes g
  /\ session_start_tick g' = session_start_tick g
  /\ override_active g' = override_active g
  /\ override_duty g' = override_duty g
  /\ (session_active g = 0 -> session_active g' = 0)
  /\ (session_ended g' <> session_ended g ->
      session_active g' = 0 /\ session_ended g' = 1
      /\ session_duration_ticks p g <= elapsed_ticks now g).
Proof.
  assert (Hdone : g' <> g ->
                  session_duration_ticks p g <= elapsed_ticks now g).
  { intros Hne. revert H. unfold led_task_iter.
    destruct (negb (override_active g =? 0)); [intros [= _ E _]; congruence|].
    destruct (session_active g =? 0); [intros [= _ E _]; congruence|].
    destruct (Z.leb_spec (session_duration_ticks p g) (elapsed_ticks now g));
      [intros; assumption|].
    destruct (strobe_delay _ g); [|discriminate].
    destruct (breath_durations _ _ g); [|discriminate].
    destruct (breath_duty _ _ _ _) as [[v1 d]|]; [|discriminate].
    intros [= _ E _]; congruence. }
  destruct (led_task_iter_globals _ _ _ _ _ _ _ H) as [->| ->];
    repeat match goal with |- _ /\ _ => split end; try reflexivity.
  - tauto.
  - intros Hne. congruence.
  - intros Hne. repeat match goal with |- _ /\ _ => split end;
      try reflexivity.
    apply Hdone. intros E. apply Hne. rewrite E. reflexivity.
Qed.

Lemma led_task_iter_frame_witness :
  session_minutes (set_session_ended 1 (set_session_active 0 (sys_globals (app_main 0 0))))
  = session_minutes (sys_globals (app_main 0 0)).
Proof.
  refine (proj1 (proj2 (proj2 (proj2 (proj2 (proj2 (proj2 (proj2
            (led_task_iter_frame 1 600000 (sys_globals (app_main 0 0)) _
               (led_init 0) (led_init 0) [ledc_duty 0] _))))))))).
  vm_compute. reflexivity.
Defined.

(** ** Going to sleep *)

(** X13: after a sleep command (first byte 0xA7, at least two bytes) the
    next check of the sleep condition that comes at least a second after
    the previous one puts the device to sleep, whatever the sensor reads:
    actuator to 0, wake on sensor level 0, deep sleep; an earlier check
    returns without changing anything. *)
Theorem sleep_command_sleeps (p : Z) (need_rsp : bool) (b : byte)
    (rest : list byte) (tick t hall : Z) (g : globals) (s : sleep_statics) :
  let g' := fst (gatts_profile_event_handler
                   (ESP_GATTS_WRITE_EVT need_rsp (xa7 :: b :: rest)) tick g) in
  (1000 / p <= wrap32 (t - last_check_time s) ->
   check_sleep_condition p t hall g' s
   = DeepSleep [ledc_duty 0; ext0_wakeup 0; deep_sleep_start])
  /\ (wrap32 (t - last_check_time s) < 1000 / p ->
      check_sleep_condition p t hall g' s = Returns s).
Proof.
  cbv zeta. rewrite gatts_a7. cbn [fst]. split.
  - intros Hsp. apply poll_ended; [|exact Hsp].
    cbn [set_session_ended session_ended]. discriminate.
  - apply poll_skipped.
Qed.

Lemma sleep_command_sleeps_witness :
  check_sleep_condition 10 100 0
    (fst (gatts_profile_event_handler
            (ESP_GATTS_WRITE_EVT true [xa7; x00]) 0 static_init))
    sleep_init
  = DeepSleep [ledc_duty 0; ext0_wakeup 0; deep_sleep_start].
Proof.
  apply (proj1 (sleep_command_sleeps 10 true x00 [] 0 100 0 static_init
                  sleep_init)).
  vm_compute. discriminate.
Defined.

(** X14: when the elapsed ticks have reached the session's duration, the
    iteration only turns the actuator off and leaves the loop's variables,
    and the next check of the sleep condition that is not rate-limited
    puts the device to sleep, whatever the sensor reads. *)
Theorem completed_session_sleeps (p now t hall : Z) (g : globals)
    (v : led_vars) (s : sleep_statics)
    (Hact : session_active g <> 0) (Hov : override_active g = 0)
    (Hdone : session_duration_ticks p g <= elapsed_ticks now g)
    (Hsp : 1000 / p <= wrap32 (t - last_check_time s)) :
  exists g',
    led_task_iter p now g v = Some (v, g', [ledc_duty 0])
    /\ check_sleep_condition p t hall g' s
       = DeepSleep [ledc_duty 0; ext0_wakeup 0; deep_sleep_start].
Proof.
  exists (set_session_ended 1 (set_session_active 0 g)). split.
  - unfold led_task_iter. rewrite Hov. cbn [Z.eqb negb].
    destruct (Z.eqb_spec (session_active g) 0); [contradiction|].
    destruct (Z.leb_spec (session_duration_ticks p g) (elapsed_ticks now g));
      [reflexivity|lia].
  - apply poll_ended; [|exact Hsp].
    cbn [set_session_ended session_ended]. discriminate.
Qed.

Lemma completed_session_sleeps_witness :
  exists g',
    led_task_iter 1 600000 (sys_globals (app_main 0 0)) (led_init 0)
    = Some (led_init 0, g', [ledc_duty 0])
    /\ check_sleep_condition 1 601000 open g' sleep_init
       = DeepSleep [ledc_duty 0; ext0_wakeup 0; deep_sleep_start].
Proof.
  apply (completed_session_sleeps 1 600000 601000 open
           (sys_globals (app_main 0 0)) (led_init 0) sleep_init).
  - discriminate.
  - reflexivity.
  - vm_compute. discriminate.
  - vm_compute. discriminate.
Defined.

(** ** Tick arithmetic *)

(** X15: the elapsed ticks of the session and of the breathing phase are
    exact across a wrap of the 32-bit tick counter: [d] ticks after a
    start at [start], both read [d]. *)
Theorem elapsed_ticks_wrap (start d : Z) (g : globals)
    (Hs : 0 <= start < 2 ^ 32) (Hd : 0 <= d < 2 ^ 32) :
  elapsed_ticks (wrap32 (start + d)) (set_session_start_tick start g) = d
  /\ breath_elapsed
       (enter_phase_loop (wrap32 (start + d))
          (mkLed 0 start (S754_zero false) 0 0)) = d.
Proof.
  assert (E : wrap32 (wrap32 (start + d) - start) = d).
  { unfold wrap32. rewrite Zminus_mod_idemp_l.
    replace (start + d - start) with d by lia. apply Z.mod_small. exact Hd. }
  split; [|exact E].
  unfold elapsed_ticks. cbn [set_session_start_tick session_start_tick].
  exact E.
Qed.

Lemma elapsed_ticks_wrap_witness :
  elapsed_ticks 99 (set_session_start_tick 4294967196 static_init) = 199.
Proof.
  exact (proj1 (elapsed_ticks_wrap 4294967196 199 static_init
                  ltac:(vm_compute; split; [discriminate|reflexivity])
                  ltac:(vm_compute; split; [discriminate|reflexivity]))).
Defined.

(** ** The duty mapper and the legacy mapping *)

(** X16: on 0..100 the duty remap is strictly increasing, and every
    non-zero duty is mapped into 406..1024, above the dead zone. *)
Theorem pwm1_raw_increasing (a b : Z) (H : 0 <= a < b /\ b <= 100) :
  pwm1_raw a < pwm1_raw b /\ 406 <= pwm1_raw b <= 1024.
Proof.
  assert (R : forall d, 1 <= d <= 100 -> pwm1_raw d = 400 + 624 * d / 100).
  { intros d Hd. unfold pwm1_raw, PWM_MIN_VISIBLE, PWM_MAX, wrap32.
    destruct (Z.eqb_spec d 0); [lia|]. change (1024 - 400) with 624.
    rewrite (Z.mod_small (624 * d)) by lia.
    assert (0 <= 624 * d / 100 <= 624)
      by (split; [apply Z.div_pos; lia|apply Z.div_le_upper_bound; lia]).
    apply Z.mod_small. lia. }
  destruct H as [[Ha Hab] Hb].
  rewrite (R b) by lia.
  assert (Hqb : 6 <= 624 * b / 100 <= 624)
    by (split; [apply Z.div_le_lower_bound; lia|apply Z.div_le_upper_bound; lia]).
  split; [|lia].
  destruct (Z.eq_dec a 0) as [->|Hn]; [change (pwm1_raw 0) with 0; lia|].
  rewrite (R a) by lia.
  assert (624 * a / 100 < 624 * b / 100); [|lia].
  apply Z.div_lt_upper_bound; [lia|].
  assert (624 * a + 100 <= 624 * b) by lia.
  pose proof (Z.mul_div_le (624 * b) 100 ltac:(lia)).
  pose proof (Z.mod_pos_bound (624 * b) 100 ltac:(lia)).
  pose proof (Z.div_mod (624 * b) 100 ltac:(lia)). lia.
Qed.

Lemma pwm1_raw_increasing_witness : pwm1_raw 1 < pwm1_raw 2.
Proof.
  exact (proj1 (pwm1_raw_increasing 1 2 ltac:(lia))).
Defined.

(** X17: the legacy mapping of a single byte to a duty is monotone in the
    byte, stays within 0..100, and gives 100 only for the byte 0xFF. *)
Theorem legacy_duty_monotone (need_rsp : bool) (b b' : byte) (tick : Z)
    (g : globals) (H : byte_val b <= byte_val b') :
  let duty x := override_duty
                  (fst (gatts_profile_event_handler
                          (ESP_GATTS_WRITE_EVT need_rsp [x]) tick g)) in
  0 <= duty b <= duty b' /\ duty b' <= 100
  /\ (duty b = 100 <-> b = xff).
Proof.
  cbv beta zeta. rewrite !gatts_write_single. cbn [fst].
  cbn [set_session_active set_override_active set_override_duty override_duty].
  pose proof (byte_val_range b) as Hb. pose proof (byte_val_range b') as Hb'.
  pose proof (legacy_duty_range b). pose proof (legacy_duty_range b').
  split; [split; [lia|apply Z.div_le_mono; lia]|]. split; [lia|].
  split.
  - intros E. apply byte_val_inj. change (byte_val xff) with 255.
    destruct (Z.eq_dec (byte_val b) 255) as [|Hn]; [assumption|].
    exfalso.
    assert (byte_val b * 100 / 255 <= 99); [|lia].
    apply Z.lt_succ_r. apply Z.div_lt_upper_bound; lia.
  - intros ->. reflexivity.
Qed.

Lemma legacy_duty_monotone_witness :
  override_duty
    (fst (gatts_profile_event_handler (ESP_GATTS_WRITE_EVT true [x10]) 0 static_init))
  <= override_duty
       (fst (gatts_profile_event_handler (ESP_GATTS_WRITE_EVT true [x80]) 0 static_init)).
Proof.
  refine (proj2 (proj1 (legacy_duty_monotone true x10 x80 0 static_init _))).
  vm_compute. discriminate.
Defined.

(** ** Two-sided bounds on a quotient *)

Lemma div_bounds2 (X' X Y Y' B' B : Z) (x y : spec_float) :
  bounds X' X x -> bounds Y Y' y -> 1 <= Y -> X <= B * Y ->
  0 <= B' -> B' * Y' <= X' -> B < 2 ^ 24 ->
  bounds B' B (F32.div x y).
Proof.
  intros Hx Hy HY HXB HB' HBX HB.
  destruct y as [[|]|[|]| |[|] my ey]; cbn [bounds] in Hy; try contradiction;
    [exfalso; lia|].
  assert (HY' : 1 <= Y').
  { destruct Hy as (Hey & Hy1 & Hy2).
    pose proof (pow2_pos (- ey) ltac:(lia)). nia. }
  destruct x as [[|]|[|]| |[|] mx ex]; cbn [bounds] in Hx; try contradiction;
    unfold F32.div; cbn [SFdiv xorb bounds]; [nia|].
  destruct Hx as (Hex & Hx1 & Hx2). destruct Hy as (Hey & Hy1 & Hy2).
  unfold SFdiv_core_binary. cbn [Zdigits2].
  pose proof (digits2_pos_bounds mx) as [D1 _].
  pose proof (digits2_pos_bounds my) as [_ D2].
  set (d1 := Zpos (digits2_pos mx)) in *.
  set (d2 := Zpos (digits2_pos my)) in *.
  assert (Hd1 : 1 <= d1) by (unfold d1; lia).
  assert (Hd2 : 1 <= d2) by (unfold d2; lia).
  pose proof (pow2_pos (- ex) ltac:(lia)) as Px.
  pose proof (pow2_pos (- ey) ltac:(lia)) as Pe.
  assert (HB1 : 1 <= B) by nia.
  assert (Hmag : d1 + ex - (d2 + ey) <= 24).
  { destruct (Z.le_gt_cases (d1 + ex - (d2 + ey)) 24) as [|Hgt]; [assumption|].
    exfalso.
    assert (Hpow : 2 ^ (24 + d2 - ex) <= 2 ^ (d1 - 1 - ey))
      by (apply Z.pow_le_mono_r; lia).
    replace (24 + d2 - ex) with (24 + d2 + - ex) in Hpow by lia.
    replace (d1 - 1 - ey) with ((d1 - 1) + - ey) in Hpow by lia.
    rewrite !Z.pow_add_r in Hpow by lia.
    pose proof (pow2_pos (d1 - 1) ltac:(lia)) as P1.
    pose proof (pow2_pos d2 ltac:(lia)) as P2.
    set (p1 := 2 ^ (d1 - 1)) in *. set (pe := 2 ^ (- ey)) in *.
    set (px := 2 ^ (- ex)) in *. set (p2 := 2 ^ d2) in *.
    assert (A1 : p1 * pe <= Zpos mx * pe) by nia.
    assert (A2 : Zpos mx * pe <= X * px * pe) by nia.
    assert (A3 : X * px * pe <= B * Y * px * pe).
    { assert (X * (px * pe) <= B * Y * (px * pe)) by (apply Z.mul_le_mono_nonneg_r; nia).
      nia. }
    assert (A4 : B * Y * px * pe <= B * px * Zpos my).
    { assert (B * px * (Y * pe) <= B * px * Zpos my)
        by (apply Z.mul_le_mono_nonneg_l; nia).
      nia. }
    assert (A5 : B * px * Zpos my < 2 ^ 24 * p2 * px).
    { assert (B * Zpos my < 2 ^ 24 * p2) by nia.
      assert (B * Zpos my * px < 2 ^ 24 * p2 * px)
        by (apply Z.mul_lt_mono_pos_r; assumption).
      nia. }
    lia. }
  set (e' := Z.min (fexp F32.prec F32.emax (d1 + ex - (d2 + ey))) (ex - ey)).
  assert (He' : e' <= 0).
  { unfold e', fexp, emin, F32.prec, F32.emax. lia. }
  assert (Hs : 0 <= ex - ey - e') by (unfold e'; lia).
  set (m' := match ex - ey - e' with
             | Z0 => Zpos mx
             | Zpos _ => Z.shiftl (Zpos mx) (ex - ey - e')
             | Zneg _ => 0
             end).
  assert (Hm' : m' = Zpos mx * 2 ^ (ex - ey - e')).
  { unfold m'. destruct (ex - ey - e') as [|s|s] eqn:Es.
    - cbn. lia.
    - apply Z.shiftl_mul_pow2. lia.
    - lia. }
  pose proof (Z_div_mod m' (Zpos my) eq_refl) as Hdm.
  destruct (Z.div_eucl m' (Zpos my)) as [q r]. destruct Hdm as [Eq Hr].
  pose proof (pow2_pos (- e') ltac:(lia)) as Pe'.
  pose proof (pow2_pos (ex - ey - e') Hs) as Ps.
  assert (Epow : 2 ^ (- ex) * 2 ^ (ex - ey - e') = 2 ^ (- ey) * 2 ^ (- e')).
  { rewrite <- !Z.pow_add_r by lia. f_equal. lia. }
  assert (Hle : m' <= Zpos my * (B * 2 ^ (- e'))).
  { rewrite Hm'.
    set (pe := 2 ^ (- ey)) in *. set (px := 2 ^ (- ex)) in *.
    set (ps := 2 ^ (ex - ey - e')) in *. set (pe' := 2 ^ (- e')) in *.
    assert (A1 : Zpos mx * ps <= X * px * ps) by nia.
    assert (A2 : X * (px * ps) <= B * Y * (px * ps))
      by (apply Z.mul_le_mono_nonneg_r; nia).
    assert (A3 : B * pe' * (Y * pe) <= B * pe' * Zpos my)
      by (apply Z.mul_le_mono_nonneg_l; nia).
    rewrite Epow in A2. nia. }
  assert (Hge : Zpos my * (B' * 2 ^ (- e')) <= m').
  { rewrite Hm'.
    set (pe := 2 ^ (- ey)) in *. set (px := 2 ^ (- ex)) in *.
    set (ps := 2 ^ (ex - ey - e')) in *. set (pe' := 2 ^ (- e')) in *.
    assert (A1 : X' * px * ps <= Zpos mx * ps) by nia.
    assert (A2 : B' * Y' * (px * ps) <= X' * (px * ps))
      by (apply Z.mul_le_mono_nonneg_r; nia).
    assert (A3 : B' * pe' * Zpos my <= B' * pe' * (Y' * pe))
      by (apply Z.mul_le_mono_nonneg_l; nia).
    rewrite Epow in A2. nia. }
  apply round_aux_bounds; try assumption.
  - nia.
  - nia.
  - rewrite new_location_up.
    destruct (Z.eqb_spec r 0); nia.
Qed.

Lemma to_unsigned_bounds2 (bits lo hi : Z) (x : spec_float) :
  bounds lo hi x -> 0 <= lo -> 0 <= hi < 2 ^ bits ->
  exists t, F32.to_unsigned bits x = Some t /\ lo <= t <= hi.
Proof.
  intros Hx Hlo Hhi.
  destruct x as [[|]|[|]| |[|] m e]; cbn [bounds] in Hx; try contradiction.
  - exists 0. split; [reflexivity|lia].
  - destruct Hx as (He & Hm1 & Hm2).
    pose proof (pow2_pos (- e) ltac:(lia)) as HP.
    assert (Ht : lo <= Z.shiftl (Zpos m) e <= hi).
    { rewrite Z.shiftl_div_pow2 by lia. split.
      - apply Z.div_le_lower_bound; lia.
      - apply Z.div_le_upper_bound; lia. }
    exists (Z.shiftl (Zpos m) e). split; [|exact Ht].
    cbn [F32.to_unsigned].
    destruct (Z.ltb_spec (Z.shiftl (Zpos m) e) (2 ^ bits)); [reflexivity|lia].
Qed.

(** ** The strobe frequency *)

Lemma interpolated_hz_bounds (progress : spec_float) (g : globals) :
  bounds 0 1 progress ->
  1 <= start_hz g <= 50 -> 1 <= end_hz g <= 50 ->
  bounds (Z.min (start_hz g) (end_hz g)) (Z.max (start_hz g) (end_hz g))
         (interpolated_hz progress g).
Proof.
  intros Hpr Hs He. unfold interpolated_hz.
  assert (P24 : 2 ^ 24 = 16777216) by reflexivity.
  assert (Hs0 : bounds (start_hz g) (start_hz g) (F32.of_Z (start_hz g)))
    by (apply of_Z_bounds; lia).
  destruct (Z.le_gt_cases (start_hz g) (end_hz g)) as [Hle|Hgt].
  - apply (bounds_weaken (start_hz g + (end_hz g - start_hz g) * 0)
             (start_hz g + (end_hz g - start_hz g) * 1)); [|lia|lia].
    apply add_bounds; try assumption; try lia.
    apply mul_bounds; try assumption; try lia.
    apply of_Z_bounds. lia.
  - apply (bounds_weaken (start_hz g - (- (end_hz g - start_hz g)) * 1)
             (start_hz g - (- (end_hz g - start_hz g)) * 0)); [|lia|lia].
    apply add_neg_bounds; try assumption; try lia.
    apply mul_neg_bounds; try assumption; try lia.
    apply of_Z_neg_bounds. lia.
Qed.

Lemma current_hz_bounds (progress : spec_float) (g : globals) :
  bounds 0 1 progress ->
  1 <= start_hz g <= 50 -> 1 <= end_hz g <= 50 ->
  bounds 1 50 (current_hz progress g).
Proof.
  intros Hpr Hs He. unfold current_hz.
  destruct (F32.lt _ _).
  - apply (bounds_weaken 1 1); [apply of_Z_bounds|..]; lia.
  - eapply bounds_weaken; [apply interpolated_hz_bounds; assumption|lia|lia].
Qed.

Lemma strobe_delay_range (progress : spec_float) (g : globals) :
  bounds 0 1 progress ->
  1 <= start_hz g <= 50 -> 1 <= end_hz g <= 50 ->
  exists sd, strobe_delay progress g = Some sd /\ 10 <= sd <= 500.
Proof.
  intros Hpr Hs He.
  change (strobe_delay progress g)
    with (F32.to_unsigned 32 (F32.div (F32.of_Z 500) (current_hz progress g))).
  assert (P24 : 2 ^ 24 = 16777216) by reflexivity.
  assert (P32 : 2 ^ 32 = 4294967296) by reflexivity.
  apply to_unsigned_bounds2; [|lia|lia].
  apply (div_bounds2 500 500 1 50 10 500); try lia.
  - apply of_Z_bounds. lia.
  - apply current_hz_bounds; assumption.
Qed.

(** X18: for a progress within 0..1 and frequencies within 1..50, the
    interpolated strobe frequency lies between the start and the end
    frequency, the floor at 1 Hz leaves it within 1..50, and the strobe
    half period is defined and within 10..500 ms. *)
Theorem strobe_frequency_between (progress : spec_float) (g : globals)
    (Hpr : bounds 0 1 progress)
    (Hs : 1 <= start_hz g <= 50) (He : 1 <= end_hz g <= 50) :
  bounds (Z.min (start_hz g) (end_hz g)) (Z.max (start_hz g) (end_hz g))
         (interpolated_hz progress g)
  /\ bounds 1 50 (current_hz progress g)
  /\ strobe_delay progress g
     = F32.to_unsigned 32 (F32.div (F32.of_Z 500) (current_hz progress g))
  /\ exists sd, strobe_delay progress g = Some sd /\ 10 <= sd <= 500.
Proof.
  split; [apply interpolated_hz_bounds; assumption|].
  split; [apply current_hz_bounds; assumption|].
  split; [reflexivity|]. apply strobe_delay_range; assumption.
Qed.

Lemma strobe_frequency_between_witness :
  exists sd,
    strobe_delay (F32.div (F32.of_Z 1) (F32.of_Z 2)) (sys_globals (app_main 0 0))
    = Some sd /\ 10 <= sd <= 500.
Proof.
  refine (proj2 (proj2 (proj2
            (strobe_frequency_between (F32.div (F32.of_Z 1) (F32.of_Z 2))
               (sys_globals (app_main 0 0)) _ _ _)))).
  - vm_compute. repeat split; discriminate.
  - vm_compute. split; discriminate.
  - vm_compute. split; discriminate.
Defined.

(** ** The shape of a strobe cycle *)

(** X19: in a reachable state with a session running (and a settled
    breathing phase of non-zero duration), an iteration is exactly: drive
    the actuator with a duty of at most the brightness, wait
    [sd * 3 / 2] ms, drive it with 0, wait [sd / 2] ms, where the half
    period [sd] is within 10..500 ms, so a cycle lasts at most a second;
    the statics are unchanged. *)
Theorem strobe_cycle_shape (p now : Z) (sys : system)
    (Hp : 1 <= p)
    (Hreach : reachable p sys)
    (Hov : override_active (sys_globals sys) = 0)
    (Hact : session_active (sys_globals sys) <> 0)
    (Hrun : elapsed_ticks now (sys_globals sys)
            < session_duration_ticks p (sys_globals sys))
    (Hsettled : forall durs vs,
        breath_durations p (session_progress p now (sys_globals sys))
          (sys_globals sys) = Some durs ->
        phase_loop 4 durs now (enter_phase_loop now (sys_led sys)) = Some vs ->
        phase_duration durs vs <> 0) :
  exists v' duty sd,
    led_task_iter p now (sys_globals sys) (sys_led sys)
    = Some (v', sys_globals sys,
            [ledc_duty (pwm1_raw duty); vTaskDelay (sd * 3 / 2 / p);
             ledc_duty 0; vTaskDelay (sd / 2 / p)])
    /\ 10 <= sd <= 500
    /\ sd * 3 / 2 + sd / 2 <= 1000
    /\ 0 <= duty <= brightness (sys_globals sys).
Proof.
  destruct (reachable_inv p sys Hreach) as [(Hok & _ & Hs & He) Hph].
  set (g := sys_globals sys) in *. set (v := sys_led sys) in *.
  pose proof (session_progress_bounds p now g Hp Hok Hrun) as Hpr.
  destruct (strobe_delay_range _ g Hpr Hs He) as (sd & Esd & Hsd).
  destruct (breath_durations_defined p _ g Hpr Hok) as (durs & Ed).
  pose proof (breath_durations_range p _ g durs Hp Hok Ed) as Hrange.
  destruct (phase_loop_settled durs now v Hph) as (vs & El & _).
  assert (Hbr : 0 <= brightness g <= 255) by (unfold globals_ok in Hok; lia).
  destruct (breath_duty_le durs now (brightness g) v vs Hph Hrange Hbr El
              (Hsettled durs vs Ed El)) as (v1 & duty & Eduty & Hduty).
  exists v1, duty, sd. split; [|split; [exact Hsd|split; [|exact Hduty]]].
  - unfold led_task_iter. rewrite Hov. cbn [Z.eqb negb].
    destruct (Z.eqb_spec (session_active g) 0); [contradiction|].
    destruct (Z.leb_spec (session_duration_ticks p g) (elapsed_ticks now g));
      [lia|].
    rewrite Esd, Ed, Eduty. cbn [pwm1_setduty app].
    unfold wrap32. rewrite (Z.mod_small (sd * 3)) by lia. reflexivity.
  - assert (sd * 3 / 2 <= 750) by (apply Z.div_le_upper_bound; lia).
    assert (sd / 2 <= 250) by (apply Z.div_le_upper_bound; lia). lia.
Qed.

Lemma strobe_cycle_shape_witness :
  exists v' duty sd,
    led_task_iter 1 1000 (sys_globals (app_main 0 0)) (sys_led (app_main 0 0))
    = Some (v', sys_globals (app_main 0 0),
            [ledc_duty (pwm1_raw duty); vTaskDelay (sd * 3 / 2 / 1);
             ledc_duty 0; vTaskDelay (sd / 2 / 1)])
    /\ 10 <= sd <= 500.
Proof.
  destruct (strobe_cycle_shape 1 1000 (app_main 0 0))
    as (v' & duty & sd & E & Hsd & _).
  - lia.
  - apply reach_boot.
  - reflexivity.
  - discriminate.
  - vm_compute. reflexivity.
  - intros durs vs Hd Hl. vm_compute in Hd. injection Hd as <-.
    vm_compute in Hl. injection Hl as <-. vm_compute. discriminate.
  - exists v', duty, sd. split; assumption.
Defined.

(** ** The breathing holds *)

Lemma progress_zero (p now : Z) (g : globals) :
  1 <= p -> globals_ok g ->
  elapsed_ticks now g = 0 -> 0 < session_duration_ticks p g ->
  session_progress p now g = S754_zero false.
Proof.
  intros Hp Hok E HD. unfold session_progress. rewrite E.
  pose proof (session_duration_range p g Hp Hok) as HR.
  pose proof (of_Z_bounds (session_duration_ticks p g) ltac:(lia)) as HB.
  destruct (F32.of_Z (session_duration_ticks p g)) as [[|]|[|]| |[|] m e];
    cbn [bounds] in HB; try contradiction; [lia|].
  reflexivity.
Qed.

Lemma mul_zero_hold (h : Z) :
  0 <= h <= 255 ->
  F32.to_unsigned 8 (F32.mul (F32.of_Z h) (S754_zero false)) = Some 0.
Proof.
  intros Hh.
  pose proof (of_Z_bounds h ltac:(change (2 ^ 24) with 16777216; lia)) as HB.
  destruct (F32.of_Z h) as [[|]|[|]| |[|] m e];
    cbn [bounds] in HB; try contradiction; reflexivity.
Qed.

(** X20: while a session is running, the two interpolated holds are
    defined, each between 0 and its configured end value, and both are 0
    at the start of the session; the inhale and exhale durations do not
    depend on the progress. *)
Theorem hold_durations_bounded (p now : Z) (g : globals)
    (Hp : 1 <= p) (Hok : globals_ok g)
    (Hrun : elapsed_ticks now g < session_duration_ticks p g) :
  exists current_hold_in current_hold_out,
    breath_durations p (session_progress p now g) g
    = Some [inhale_time g * 100 / p; current_hold_in * 100 / p;
            exhale_time g * 100 / p; current_hold_out * 100 / p]
    /\ 0 <= current_hold_in <= hold_in_end g
    /\ 0 <= current_hold_out <= hold_out_end g
    /\ (elapsed_ticks now g = 0 ->
        current_hold_in = 0 /\ current_hold_out = 0).
Proof.
  pose proof (session_progress_bounds p now g Hp Hok Hrun) as Hpr.
  assert (P24 : 2 ^ 24 = 16777216) by reflexivity.
  assert (P8 : 2 ^ 8 = 256) by reflexivity.
  assert (Hg := Hok). unfold globals_ok in Hg.
  destruct (to_unsigned_bounds 8 (hold_in_end g)
              (F32.mul (F32.of_Z (hold_in_end g)) (session_progress p now g)))
    as (chi & Ei & Hi); [|lia|].
  { apply (bounds_weaken (hold_in_end g * 0) (hold_in_end g * 1)); [|lia|lia].
    apply mul_bounds; try assumption; try lia. apply of_Z_bounds. lia. }
  destruct (to_unsigned_bounds 8 (hold_out_end g)
              (F32.mul (F32.of_Z (hold_out_end g)) (session_progress p now g)))
    as (cho & Eo & Ho); [|lia|].
  { apply (bounds_weaken (hold_out_end g * 0) (hold_out_end g * 1)); [|lia|lia].
    apply mul_bounds; try assumption; try lia. apply of_Z_bounds. lia. }
  exists chi, cho. split; [|split; [exact Hi|split; [exact Ho|]]].
  - unfold breath_durations. rewrite Ei, Eo. unfold wrap32.
    rewrite !Z.mod_small by lia. reflexivity.
  - intros E0.
    assert (HD : 0 < session_duration_ticks p g) by lia.
    rewrite (progress_zero p now g Hp Hok E0 HD) in Ei, Eo.
    rewrite mul_zero_hold in Ei, Eo by lia.
    injection Ei as <-. injection Eo as <-. split; reflexivity.
Qed.

Lemma hold_durations_bounded_witness :
  exists current_hold_in current_hold_out,
    breath_durations 1 (session_progress 1 300000 (sys_globals (app_main 0 0)))
      (sys_globals (app_main 0 0))
    = Some [4000; current_hold_in * 100 / 1; 4000; current_hold_out * 100 / 1]
    /\ 0 <= current_hold_in <= 40.
Proof.
  destruct (hold_durations_bounded 1 300000 (sys_globals (app_main 0 0)))
    as (chi & cho & E & Hi & _).
  - lia.
  - unfold globals_ok. vm_compute. repeat split; discriminate.
  - vm_compute. reflexivity.
  - exists chi, cho. split; assumption.
Defined.

(** ** The duty in the hold phases *)

Lemma final_duty_full (br : Z) :
  0 <= br <= 255 -> final_duty (F32.of_Z 100) br = Some br.
Proof.
  intros Hbr. unfold final_duty.
  assert (P24 : 2 ^ 24 = 16777216) by reflexivity.
  assert (P8 : 2 ^ 8 = 256) by reflexivity.
  destruct (to_unsigned_bounds2 8 br br
              (F32.div (F32.mul (F32.of_Z 100) (F32.of_Z br)) (F32.of_Z 100)))
    as (t & -> & Ht); [|lia|lia|f_equal; lia].
  apply (div_bounds2 (100 * br) (100 * br) 100 100 br br); try lia.
  - apply mul_bounds; try lia; apply of_Z_bounds; lia.
  - apply of_Z_bounds. lia.
Qed.

Lemma final_duty_none (br : Z) :
  0 <= br <= 255 -> final_duty (S754_zero false) br = Some 0.
Proof.
  intros Hbr. unfold final_duty.
  pose proof (of_Z_bounds br ltac:(change (2 ^ 24) with 16777216; lia)) as HB.
  destruct (F32.of_Z br) as [[|]|[|]| |[|] m e];
    cbn [bounds] in HB; try contradiction; reflexivity.
Qed.

(** X21: when the phase loop settles on hold-in the duty is the
    brightness itself, and when it settles on hold-out the duty is 0,
    whatever the durations and the elapsed time are. *)
Theorem hold_phase_duty (durs : list Z) (now br : Z) (v vs : led_vars)
    (Hbr : 0 <= br <= 255)
    (Hloop : phase_loop 4 durs now (enter_phase_loop now v) = Some vs) :
  (breath_phase vs = 1 ->
   breath_duty durs now br v
   = Some (set_breath_brightness (F32.of_Z 100) vs, br))
  /\ (breath_phase vs = 3 ->
      breath_duty durs now br v
      = Some (set_breath_brightness (S754_zero false) vs, 0)).
Proof.
  unfold breath_duty. rewrite Hloop. unfold breath_switch. split; intros E;
    rewrite E; cbn [Z.eqb Pos.eqb set_breath_brightness breath_brightness].
  - rewrite final_duty_full by exact Hbr. reflexivity.
  - rewrite final_duty_none by exact Hbr. reflexivity.
Qed.

Lemma hold_phase_duty_witness :
  breath_duty [4000; 2000; 4000; 2000] 4500 80 (led_init 0)
  = Some (set_breath_brightness (F32.of_Z 100) (mkLed 1 4500 (S754_zero false) 0 1), 80).
Proof.
  refine (proj1 (hold_phase_duty [4000; 2000; 4000; 2000] 4500 80 (led_init 0)
                   (mkLed 1 4500 (S754_zero false) 0 1) _ _) _).
  - lia.
  - vm_compute. reflexivity.
  - reflexivity.
Defined.

Lemma phase_loop_S (fuel : nat) (durs : list Z) (now ph ps : Z)
    (bb : spec_float) (el ck : Z) :
  phase_loop (S fuel) durs now (mkLed ph ps bb el ck) =
  if (ck <? 4) && ((nth (Z.to_nat ph) durs 0 =? 0)
                   || (nth (Z.to_nat ph) durs 0 <=? el))
  then phase_loop fuel durs now
         (mkLed (wrap8 ((ph + 1) mod 4)) now bb 0 (wrap8 (ck + 1)))
  else Some (mkLed ph ps bb el ck).
Proof. reflexivity. Qed.

Lemma phase_loop_O (durs : list Z) (now ph ps : Z)
    (bb : spec_float) (el ck : Z) :
  phase_loop O durs now (mkLed ph ps bb el ck) =
  if (ck <? 4) && ((nth (Z.to_nat ph) durs 0 =? 0)
                   || (nth (Z.to_nat ph) durs 0 <=? el))
  then None
  else Some (mkLed ph ps bb el ck).
Proof. reflexivity. Qed.

(** Evaluates the closed integer subterms of the hypothesis [H]. *)
Ltac eval_closed H :=
  repeat match type of H with
  | context [wrap8 ?a] =>
      let x := eval vm_compute in (wrap8 a) in
      change (wrap8 a) with x in H
  | context [Z.to_nat ?a] =>
      let x := eval vm_compute in (Z.to_nat a) in
      change (Z.to_nat a) with x in H
  | context [Z.ltb ?a 4] =>
      let x := eval vm_compute in (Z.ltb a 4) in
      change (Z.ltb a 4) with x in H
  end;
  cbn [nth andb] in H.

Ltac loop_cases H :=
  repeat match type of H with
  | context [Z.eqb ?a ?b] => destruct (Z.eqb_spec a b); cbn [orb] in H
  | context [Z.leb ?a ?b] => destruct (Z.leb_spec a b); cbn [orb] in H
  end.

(** X22: with four non-negative durations, a phase loop that uses all of
    its four advances ends on the phase it started from, and the loop
    settles on a phase of zero duration only when all four durations are
    zero. *)
Theorem phase_loop_full_cycle (d0 d1 d2 d3 now : Z) (v vs : led_vars)
    (Hph : 0 <= breath_phase v <= 3)
    (Hd : 0 <= d0 /\ 0 <= d1 /\ 0 <= d2 /\ 0 <= d3)
    (Hloop : phase_loop 4 [d0; d1; d2; d3] now (enter_phase_loop now v)
             = Some vs) :
  (phase_checks vs = 4 -> breath_phase vs = breath_phase v)
  /\ (phase_duration [d0; d1; d2; d3] vs = 0 ->
      d0 = 0 /\ d1 = 0 /\ d2 = 0 /\ d3 = 0).
Proof.
  destruct v as [ph ps bb el ck]. cbn [breath_phase] in Hph |- *.
  unfold enter_phase_loop in Hloop.
  cbn [breath_phase phase_start breath_brightness] in Hloop.
  generalize dependent (wrap32 (now - ps)). intros e Hloop.
  rewrite !phase_loop_S, phase_loop_O in Hloop.
  assert (C : ph = 0 \/ ph = 1 \/ ph = 2 \/ ph = 3) by lia.
  destruct C as [->|[->|[->| ->]]];
    eval_closed Hloop; loop_cases Hloop;
    injection Hloop as <-; unfold phase_duration;
    cbn [phase_checks breath_phase];
    (split; [intros; first [reflexivity | lia]|]);
    match goal with
    | |- context [Z.to_nat ?a] =>
        let x := eval vm_compute in (Z.to_nat a) in
        change (Z.to_nat a) with x
    end; cbn [nth]; lia.
Qed.

Lemma phase_loop_full_cycle_witness :
  exists vs,
    phase_loop 4 [0; 0; 0; 0] 7 (enter_phase_loop 7 (led_init 0)) = Some vs
    /\ breath_phase vs = 0.
Proof.
  eexists. split; [reflexivity|].
  apply (proj1 (phase_loop_full_cycle 0 0 0 0 7 (led_init 0) _
                  ltac:(cbn; lia) ltac:(lia) eq_refl)).
  reflexivity.
Defined.

(** ** Advertising *)

Lemma ble_handler_flag (ev : ble_event) (a : Z) :
  0 <= a <= 1 ->
  0 <= fst (ble_handler ev a) <= 1
  /\ length (filter is_start_advertising (snd (ble_handler ev a)))
     = (if wants_advertising ev then 1%nat else 0%nat).
Proof.
  intros Ha. assert (C : a = 0 \/ a = 1) by lia.
  destruct C as [-> | ->]; destruct ev as [[| |? ?| |] [|]|[|]];
    cbn; split; first [lia | reflexivity].
Qed.

(** X25: starting with [adv_config_done] at 0 or 1, whatever callbacks
    the stack makes, the flag stays 0 or 1 and advertising is started
    once per completed advertising-data configuration and once per
    disconnect, and at no other time. *)
Theorem advertising_starts (evs : list ble_event) (a : Z) (H : 0 <= a <= 1) :
  0 <= fst (ble_run evs a) <= 1
  /\ length (filter is_start_advertising (snd (ble_run evs a)))
     = length (filter wants_advertising evs).
Proof.
  revert a H. induction evs as [|ev rest IH]; intros a H.
  - cbn. split; [lia | reflexivity].
  - cbn [ble_run filter].
    destruct (ble_handler_flag ev a H) as [Hf Hc].
    destruct (ble_handler ev a) as [a1 c1]. cbn [fst snd] in Hf, Hc.
    destruct (IH a1 Hf) as [Hf' Hc'].
    destruct (ble_run rest a1) as [a2 c2]. cbn [fst snd] in *.
    split; [exact Hf'|].
    rewrite filter_app, length_app, Hc, Hc'.
    destruct (wants_advertising ev); reflexivity.
Qed.

Lemma advertising_starts_witness :
  0 <= 0 <= 1
  /\ length (filter is_start_advertising
       (snd (ble_run [ble_gatts ESP_GATTS_REG_EVT true;
                      ble_gap ESP_GAP_BLE_ADV_DATA_SET_COMPLETE_EVT;
                      ble_gatts ESP_GATTS_DISCONNECT_EVT true] 0)))
     = 2%nat.
Proof.
  split; [lia|].
  exact (proj2 (advertising_starts
                  [ble_gatts ESP_GATTS_REG_EVT true;
                   ble_gap ESP_GAP_BLE_ADV_DATA_SET_COMPLETE_EVT;
                   ble_gatts ESP_GATTS_DISCONNECT_EVT true] 0 ltac:(lia))).
Defined.

(** X24: on ESP_GAP_BLE_ADV_DATA_SET_COMPLETE_EVT the GAP handler clears
    bit 0 of [adv_config_done] and keeps its other bits; it starts
    advertising exactly when no other bit was set. *)
Theorem gap_handler_clears_flag (a : Z) (H : 0 <= a <= 255) :
  let r := gap_event_handler ESP_GAP_BLE_ADV_DATA_SET_COMPLETE_EVT a in
  fst r = 2 * (a / 2)
  /\ (snd r = [gap_start_advertising] <-> a <= 1)
  /\ (snd r = [] <-> 2 <= a).
Proof.
  cbv zeta.
  assert (Hall : forallb flag_ok (seq 0 256) = true) by (vm_compute; reflexivity).
  rewrite forallb_forall in Hall.
  specialize (Hall (Z.to_nat a)).
  assert (Hin : In (Z.to_nat a) (seq 0 256)) by (apply in_seq; lia).
  specialize (Hall Hin). unfold flag_ok in Hall.
  rewrite Z2Nat.id in Hall by lia. cbv zeta in Hall.
  apply andb_true_iff in Hall. destruct Hall as [E1 E2].
  apply Z.eqb_eq in E1. apply Nat.eqb_eq in E2.
  split; [exact E1|].
  unfold gap_event_handler in *.
  destruct (wrap8 (Z.land a (Z.lnot ADV_CONFIG_FLAG)) =? 0);
    cbn [snd length] in *; destruct (Z.leb_spec a 1);
    try discriminate; split; split; intros; try reflexivity;
    try discriminate; lia.
Qed.

Lemma gap_handler_clears_flag_witness :
  0 <= 3 <= 255
  /\ fst (gap_event_handler ESP_GAP_BLE_ADV_DATA_SET_COMPLETE_EVT 3)
     = 2 * (3 / 2).
Proof.
  split; [lia|exact (proj1 (gap_handler_clears_flag 3 ltac:(lia)))].
Defined.

(** ** The strobe period at the two ends of a session *)

Lemma strobe_delay_fields (progress : spec_float) (g g' : globals) :
  start_hz g = start_hz g' -> end_hz g = end_hz g' ->
  strobe_delay progress g = strobe_delay progress g'.
Proof. intros E1 E2. unfold strobe_delay. rewrite E1, E2. reflexivity. Qed.

Lemma endpoints_all :
  forallb (fun s => forallb (endpoints_ok s) hz_range) hz_range = true.
Proof. vm_compute. reflexivity. Qed.

Lemma hz_range_in (z : Z) : 1 <= z <= 50 -> In z hz_range.
Proof.
  intros H. unfold hz_range. rewrite <- (Z2Nat.id z) by lia.
  apply in_map. apply in_seq. lia.
Qed.

Lemma strobe_delay_ends (g : globals) :
  1 <= start_hz g <= 50 -> 1 <= end_hz g <= 50 ->
  strobe_delay (S754_zero false) g = Some (500 / start_hz g)
  /\ strobe_delay (F32.of_Z 1) g = Some (500 / end_hz g).
Proof.
  intros Hs He.
  pose proof endpoints_all as Hall. rewrite forallb_forall in Hall.
  specialize (Hall _ (hz_range_in _ Hs)). rewrite forallb_forall in Hall.
  specialize (Hall _ (hz_range_in _ He)). unfold endpoints_ok in Hall.
  rewrite (strobe_delay_fields _ g (with_hz (start_hz g) (end_hz g)))
    by (destruct g; reflexivity).
  rewrite (strobe_delay_fields (F32.of_Z 1) g
             (with_hz (start_hz g) (end_hz g)))
    by (destruct g; reflexivity).
  destruct (strobe_delay (S754_zero false) _) as [a|]; [|discriminate].
  destruct (strobe_delay (F32.of_Z 1) _) as [b|]; [|discriminate].
  apply andb_true_iff in Hall. destruct Hall as [E1 E2].
  apply Z.eqb_eq in E1. apply Z.eqb_eq in E2. subst. split; reflexivity.
Qed.

(** X23: on the first tick of a session the strobe half period is
    [500 / start_hz] ms, and at a progress of 1 it is [500 / end_hz] ms
    (integer division), for all frequencies within 1..50. *)
Theorem strobe_period_at_ends (p now : Z) (g : globals)
    (Hp : 1 <= p) (Hok : globals_ok g)
    (Hs : 1 <= start_hz g <= 50) (He : 1 <= end_hz g <= 50)
    (HD : 0 < session_duration_ticks p g)
    (E0 : elapsed_ticks now g = 0) :
  strobe_delay (session_progress p now g) g = Some (500 / start_hz g)
  /\ strobe_delay (F32.of_Z 1) g = Some (500 / end_hz g).
Proof.
  rewrite (progress_zero p now g Hp Hok E0 HD).
  apply strobe_delay_ends; assumption.
Qed.

Lemma strobe_period_at_ends_witness :
  strobe_delay (session_progress 1 0 (sys_globals (app_main 0 0)))
    (sys_globals (app_main 0 0))
  = Some 41.
Proof.
  apply (proj1 (strobe_period_at_ends 1 0 (sys_globals (app_main 0 0))
                  ltac:(lia)
                  ltac:(unfold globals_ok; vm_compute; repeat split; discriminate)
                  ltac:(vm_compute; split; discriminate)
                  ltac:(vm_compute; split; discriminate)
                  ltac:(vm_compute; reflexivity)
                  ltac:(vm_compute; reflexivity))).
Defined.
